(** * dcgm-exporter: the HPC enrichment stage and the metrics renderer

    A shallow embedding of
      - [internal/pkg/transformation/hpc.go]: [hpcMapper.Process],
        [FindMIGUUID], [readFile], [getGPUFiles], and the legacy
        [PUSlurmMapper.Process] with [CollectJobInfo];
      - [internal/pkg/rendermetrics/render_metrics.go]: [RenderGroup],
        [RenderSlurm] and the five text templates;
    together with the parts of Go's [strings] and [strconv] packages that
    the code calls.

    Go strings are byte sequences and are modelled by [string]; Go [int] and
    [uint] are 64 bits wide and are modelled by [Z] with the wrap-around
    written out; a call returns, exits the process or panics ([Outcome]);
    Go maps are [gmap]s, and the maps that a [Metric] points to live in an
    explicit store, so that sharing between the copies of a sample is
    visible.

    The file has three parts: the embedding (one module per Go package),
    the vocabulary of the properties (modules [Spec] and [Notions]) with
    some concrete inputs (module [Inputs]), and the properties themselves. *)

From Stdlib Require Import ZArith String Ascii List Lia DecimalString.
From Stdlib Require PrimFloat Uint63 DecimalPos.
From stdpp Require Import gmap strings list fin_maps sorting.

Open Scope Z_scope.

(* ===================================================================== *)
(** ** Go's [strings] package                                             *)
(* ===================================================================== *)

Module Strings.

(** [strings.Contains(s, substr)]: [substr] occurs somewhere in [s]. *)
Fixpoint Contains (s substr : string) : bool :=
  String.prefix substr s ||
  match s with
  | EmptyString => false
  | String _ s' => Contains s' substr
  end.

(** [strings.Split(s, sep)] for a separator of one byte.  The result is
    never empty: a string without separator yields the one-element slice
    holding the string itself, and [n] separators yield [n+1] pieces. *)
Fixpoint Split (s : string) (sep : ascii) : list string :=
  match s with
  | EmptyString => [EmptyString]
  | String c s' =>
      if Ascii.eqb c sep then EmptyString :: Split s' sep
      else match Split s' sep with
           | t :: ts => String c t :: ts
           | [] => [String c EmptyString]
           end
  end.

(** The byte [c] occurs in [s]. *)
Fixpoint HasByte (c : ascii) (s : string) : bool :=
  match s with
  | EmptyString => false
  | String c' s' => Ascii.eqb c' c || HasByte c s'
  end.

End Strings.

(* ===================================================================== *)
(** ** Go's [strconv] package and [fmt.Sprintf("%d")]                     *)
(* ===================================================================== *)

Module Strconv.

Inductive NumError := ErrSyntax | ErrRange.

Definition maxUint64 : Z := 2 ^ 64 - 1.
Definition IntSize : Z := 64.

Definition byteVal (c : ascii) : Z := Z.of_N (N_of_ascii c).

Definition isDigit (c : ascii) : bool :=
  (48 <=? byteVal c) && (byteVal c <=? 57).

(** The digit loop of [ParseUint] in base 10 (no underscores: the base is
    given explicitly).  A byte that is not a decimal digit is a syntax
    error with value 0; an overflow stops the loop at once with the
    largest value and a range error. *)
Fixpoint parseUintLoop (maxVal : Z) (s : string) (n : Z) : Z * option NumError :=
  match s with
  | EmptyString => (n, None)
  | String c s' =>
      if isDigit c then
        let d := byteVal c - 48 in
        if n >=? maxUint64 / 10 + 1 then (maxVal, Some ErrRange)
        else
          let n10 := n * 10 in
          let n1 := (n10 + d) mod 2 ^ 64 in
          if (n1 <? n10) || (n1 >? maxVal) then (maxVal, Some ErrRange)
          else parseUintLoop maxVal s' n1
      else (0, Some ErrSyntax)
  end.

(** [strconv.ParseUint(s, 10, bitSize)]; [bitSize = 0] means [IntSize]. *)
Definition ParseUint (s : string) (bitSize : Z) : Z * option NumError :=
  match s with
  | EmptyString => (0, Some ErrSyntax)
  | _ =>
      let bitSize := if bitSize =? 0 then IntSize else bitSize in
      parseUintLoop (2 ^ bitSize - 1) s 0
  end.

(** [strconv.ParseInt(s, 10, bitSize)]. *)
Definition ParseInt (s : string) (bitSize : Z) : Z * option NumError :=
  match s with
  | EmptyString => (0, Some ErrSyntax)
  | String c s' =>
      let neg := Ascii.eqb c "-" in
      let body := if Ascii.eqb c "+" || neg then s' else s in
      match ParseUint body bitSize with
      | (_, Some ErrSyntax) => (0, Some ErrSyntax)
      | (un, _) =>
          let bitSize := if bitSize =? 0 then IntSize else bitSize in
          let cutoff := 2 ^ (bitSize - 1) in
          if negb neg && (un >=? cutoff) then (cutoff - 1, Some ErrRange)
          else if neg && (un >? cutoff) then (- cutoff, Some ErrRange)
          else (if neg then - un else un, None)
      end
  end.

(** The fast path of [Atoi]: at most 18 bytes, so the value fits. *)
Fixpoint atoiDigits (s : string) (n : Z) : option Z :=
  match s with
  | EmptyString => Some n
  | String c s' =>
      if isDigit c then atoiDigits s' (n * 10 + (byteVal c - 48)) else None
  end.

(** [strconv.Atoi(s)] on a 64-bit platform. *)
Definition Atoi (s : string) : Z * option NumError :=
  let sLen := Z.of_nat (String.length s) in
  if (0 <? sLen) && (sLen <? 19) then
    match s with
    | EmptyString => (0, Some ErrSyntax)
    | String c s' =>
        let signed := Ascii.eqb c "-" || Ascii.eqb c "+" in
        let body := if signed then s' else s in
        if signed && (Z.of_nat (String.length body) <? 1) then (0, Some ErrSyntax)
        else match atoiDigits body 0 with
             | None => (0, Some ErrSyntax)
             | Some n => (if Ascii.eqb c "-" then - n else n, None)
             end
    end
  else ParseInt s 0.

(** Arithmetic on Go's 64-bit [int] wraps around. *)
Definition wrapInt (z : Z) : Z := (z + 2 ^ 63) mod 2 ^ 64 - 2 ^ 63.

(** [fmt.Sprintf("%d", z)]. *)
Definition FormatInt (z : Z) : string := NilZero.string_of_int (Z.to_int z).

End Strconv.

(* ===================================================================== *)
(** ** Outcomes of a Go call                                              *)
(* ===================================================================== *)

(** Why [logrus.Fatalf] was called (it logs and then exits the process). *)
Inductive Fatal :=
| GPUIdNotInteger (gpu : string)
| GPUIdTooBig (gpu : string) (count : Z)
| InstanceIdNotInteger (gpu instanceId : string).

(** A call returns, or the process exits in [logrus.Fatalf], or the
    run-time system panics (index out of range, write to a nil map). *)
Inductive Outcome (A : Type) :=
| Return (a : A)
| Exit (why : Fatal)
| Panic.
Arguments Return {A} a.
Arguments Exit {A} why.
Arguments Panic {A}.

#[export] Instance Outcome_ret : MRet Outcome := @Return.
#[export] Instance Outcome_bind : MBind Outcome := fun A B f c =>
  match c with
  | Return a => f a
  | Exit why => Exit why
  | Panic => Panic
  end.

(** A [for ... range] loop whose body may exit or panic. *)
Fixpoint forRange {A S : Type} (body : S -> A -> Outcome S) (l : list A) (s : S)
  : Outcome S :=
  match l with
  | [] => Return s
  | a :: l' => s' ← body s a; forRange body l' s'
  end.

(** Go's [error] values are opaque here; they are told apart by their text. *)
Definition error := string.

(* ===================================================================== *)
(** ** The value model                                                    *)
(* ===================================================================== *)

Module counters.

(** Modelled from the spec: the struct [Counter] is declared outside the
    source files at hand (the spec's CounterDefinition); it has the fields
    that the two source files read.  [Multiplier] is a Go [int]. *)
Record Counter := {
  FieldID : Z;
  FieldName : string;
  PromType : string;
  Help : string;
  AlterFieldName : string;
  AlterHelp : string;
  Multiplier : Z
}.

End counters.

Module collector.

(** A Go map value is a reference.  [Labels] and [Attributes] are therefore
    addresses into a store of maps; an address that the store does not hold
    is the nil map (reads give the zero value, a write panics). *)
Abbreviation loc := nat.
Abbreviation Heap := (gmap nat (gmap string string)).

(** Modelled from the spec: the struct [Metric] is declared outside the
    source files at hand (the spec's Sample); it has the fields that the two
    source files read and write. *)
Record Metric := {
  Counter : counters.Counter;
  Value : string;
  GPU : string;
  GPUUUID : string;
  GPUDevice : string;
  GPUModelName : string;
  GPUPCIBusID : string;
  UUID : string;
  MigProfile : string;
  GPUInstanceID : string;
  Hostname : string;
  Labels : loc;
  Attributes : loc;
  AlterValue : string;
  AlterUUID : string
}.

(** [m.AlterValue = v], [m.AlterUUID = u] on a struct value. *)
Definition setAlterValue (m : Metric) (v : string) : Metric :=
  {| Counter := Counter m; Value := Value m; GPU := GPU m; GPUUUID := GPUUUID m;
     GPUDevice := GPUDevice m; GPUModelName := GPUModelName m;
     GPUPCIBusID := GPUPCIBusID m; UUID := UUID m; MigProfile := MigProfile m;
     GPUInstanceID := GPUInstanceID m; Hostname := Hostname m;
     Labels := Labels m; Attributes := Attributes m;
     AlterValue := v; AlterUUID := AlterUUID m |}.

Definition setAlterUUID (m : Metric) (u : string) : Metric :=
  {| Counter := Counter m; Value := Value m; GPU := GPU m; GPUUUID := GPUUUID m;
     GPUDevice := GPUDevice m; GPUModelName := GPUModelName m;
     GPUPCIBusID := GPUPCIBusID m; UUID := UUID m; MigProfile := MigProfile m;
     GPUInstanceID := GPUInstanceID m; Hostname := Hostname m;
     Labels := Labels m; Attributes := Attributes m;
     AlterValue := AlterValue m; AlterUUID := u |}.

(** The same struct pointing to other maps. *)
Definition setMaps (m : Metric) (labels attributes : loc) : Metric :=
  {| Counter := Counter m; Value := Value m; GPU := GPU m; GPUUUID := GPUUUID m;
     GPUDevice := GPUDevice m; GPUModelName := GPUModelName m;
     GPUPCIBusID := GPUPCIBusID m; UUID := UUID m; MigProfile := MigProfile m;
     GPUInstanceID := GPUInstanceID m; Hostname := Hostname m;
     Labels := labels; Attributes := attributes;
     AlterValue := AlterValue m; AlterUUID := AlterUUID m |}.

(** [map[Counter][]Metric], as the list of its entries (with distinct keys)
    in the order in which the loop at hand visits them: a [range] over a Go
    map takes the entries in an order that the run-time system chooses, a
    template takes them in the order of the keys. *)
Definition MetricsByCounter := list (counters.Counter * list Metric).

(** Reading a map: the nil map reads as the empty one. *)
Definition mapAt (h : Heap) (l : loc) : gmap string string :=
  default ∅ (h !! l).

(** [v, _ = m[k]]: the zero value when the key is absent. *)
Definition index (h : Heap) (l : loc) (k : string) : string :=
  default EmptyString (mapAt h l !! k).

(** [m[k] = v]: panics on the nil map. *)
Definition assign (h : Heap) (l : loc) (k v : string) : Outcome Heap :=
  match h !! l with
  | Some m => Return (<[l := <[k := v]> m]> h)
  | None => Panic
  end.

End collector.

Module deviceinfo.

(** Modelled from the spec: the interface [Provider] and the structs behind
    it are declared outside the source files at hand; this is the part of
    the device topology that [FindMIGUUID] reads ([GPUCount], and for each
    device its partitions with their NVML instance id and UUID). *)
Record GPUInstanceInfo := {
  NvmlInstanceId : Z;
  UUID : string
}.

Record GPUInfo := {
  GPUInstances : list GPUInstanceInfo
}.

Record Provider := {
  GPUCount : Z;
  GPUs : list GPUInfo
}.

End deviceinfo.

Module utils.
Import collector.

(** Modelled from the spec: [utils.DeepCopy] is not among the source files.
    The spec asks for "a value-copy, not a shared reference — mutations to
    one copy's attributes must never affect another", and lets the
    duplication fail ("a duplication step that cannot complete").  The copy
    gets two maps of its own with the contents of the original's; [fails]
    says for which values the copy cannot be made. *)
Definition DeepCopy (fails : Metric -> bool) (h : Heap) (m : Metric)
  : option (Metric * Heap) :=
  if fails m then None
  else
    let lLabels := fresh (dom h) in
    let h1 := <[lLabels := mapAt h (Labels m)]> h in
    let lAttributes := fresh (dom h1) in
    let h2 := <[lAttributes := mapAt h (Attributes m)]> h1 in
    Some (setMaps m lLabels lAttributes, h2).

End utils.

(* ===================================================================== *)
(** ** internal/pkg/transformation/hpc.go                                 *)
(* ===================================================================== *)

Module transformation.
Import counters collector.

(** Modelled from the spec: the two attribute names are constants of the
    package that are declared outside the source files at hand; the README
    gives them as the labels [jobid] and [userid], the names that the legacy
    mapper writes literally. *)
Definition HpcJobAttribute : string := "jobid".
Definition HpcUserAttribute : string := "userid".

(** What [file.Info()] gives for a directory entry. *)
Inductive FileInfo :=
| InfoError (e : error)
| IsDir
| NotDir.

(** What opening a file and scanning it line by line gives. *)
Inductive FileRead :=
| OpenError (e : error)
| Scanned (lines : list string) (scanErr : option error).

(** The package variable [os] (an interface over Go's [os] package), as seen
    from [Config.HPCJobMappingDir]:
    the result of [os.Stat] on the directory, of [os.ReadDir] on it (entry
    names with their [Info()]), and of opening the file of a given name in
    it and scanning its lines. *)
Record OS := {
  Stat : option error;
  ReadDir : error + list (string * FileInfo);
  Open : string -> FileRead
}.

(** The surroundings of a pass: the file system, the two floating-point
    routines of Go's library that are left abstract
    ([strconv.ParseFloat(_, 64)], whose error the code drops, and
    [fmt.Sprintf("%f", _)]), and the values that [utils.DeepCopy] fails on. *)
Record Env := {
  os : OS;
  ParseFloat : string -> PrimFloat.float * option Strconv.NumError;
  Sprintf_f : PrimFloat.float -> string;
  copyFails : Metric -> bool
}.

(** [float64(i)] for a Go [int]: the magnitude is at most [2^63], and the
    primitive conversion takes the numbers below [2^63]. *)
Definition floatOfMagnitude (n : Z) : PrimFloat.float :=
  if n <? 2 ^ 63 then PrimFloat.of_uint63 (Uint63.of_Z n)
  else PrimFloat.mul (PrimFloat.of_uint63 (Uint63.of_Z (2 ^ 62)))
                     (PrimFloat.of_uint63 (Uint63.of_Z 2)).

Definition float64 (i : Z) : PrimFloat.float :=
  if i <? 0 then PrimFloat.opp (floatOfMagnitude (- i)) else floatOfMagnitude i.

(** [readFile]: the lines of the file, or the error of [os.Open] or of the
    scanner. *)
Definition readFile (o : OS) (path : string) : error + list string :=
  match Open o path with
  | OpenError err => inl err
  | Scanned _ (Some err) => inl err
  | Scanned jobs None => inr jobs
  end.

(** The loop of [getGPUFiles]: entries without file info and directories are
    skipped. *)
Fixpoint mappingFiles (files : list (string * FileInfo)) : list string :=
  match files with
  | [] => []
  | (name, InfoError _) :: files' => mappingFiles files'
  | (name, IsDir) :: files' => mappingFiles files'
  | (name, NotDir) :: files' => name :: mappingFiles files'
  end.

Definition getGPUFiles (o : OS) : error + list string :=
  match ReadDir o with
  | inl err => inl err
  | inr files => inr (mappingFiles files)
  end.

(** The loop of [Process] that fills [gpuToJobMap]; the first file that
    cannot be read ends it with the error. *)
Fixpoint loadJobs (o : OS) (gpuFiles : list string)
    (gpuToJobMap : gmap string (list string)) : error + gmap string (list string) :=
  match gpuFiles with
  | [] => inr gpuToJobMap
  | gpuFileName :: gpuFiles' =>
      match readFile o gpuFileName with
      | inl err => inl err
      | inr jobs =>
          loadJobs o gpuFiles'
            (<[gpuFileName := default [] (gpuToJobMap !! gpuFileName) ++ jobs]>
               gpuToJobMap)
      end
  end.

(** [FindMIGUUID]: the UUID of the GPU instance with NVML id [instanceId] on
    GPU [gpu]. *)
Definition FindMIGUUID (sysInfo : deviceinfo.Provider) (gpu instanceId : string)
  : Outcome string :=
  match Strconv.ParseUint gpu 32 with
  | (_, Some _) => Exit (GPUIdNotInteger gpu)
  | (gpuid, None) =>
      if gpuid >=? deviceinfo.GPUCount sysInfo
      then Exit (GPUIdTooBig gpu (deviceinfo.GPUCount sysInfo))
      else
        match Strconv.ParseUint instanceId 32 with
        | (_, Some _) => Exit (InstanceIdNotInteger gpu instanceId)
        | (migid, None) =>
            match nth_error (deviceinfo.GPUs sysInfo) (Z.to_nat gpuid) with
            | None => Panic
            | Some g =>
                match List.find
                        (fun i => deviceinfo.NvmlInstanceId i =? migid)
                        (deviceinfo.GPUInstances g) with
                | Some i => Return (deviceinfo.UUID i)
                | None => Return EmptyString
                end
            end
        end
  end.

(** The scaling block that opens the loop body of both mappers: the value of
    [AlterValue]. *)
Definition scaled (env : Env) (metric : Metric) : string :=
  let multiplier := Multiplier (Counter metric) in
  if negb (multiplier =? 1) then
    if Strings.Contains (Value metric) "." then
      let newval := fst (ParseFloat env (Value metric)) in
      Sprintf_f env (PrimFloat.mul newval (float64 multiplier))
    else
      let newval := fst (Strconv.Atoi (Value metric)) in
      Strconv.FormatInt (Strconv.wrapInt (newval * multiplier))
  else Value metric.

(** The key of a metric: [gpuid], or [gpuid.gpuinstanceid] under MIG. *)
Definition gpuIDOf (metric : Metric) : string :=
  if negb (String.eqb (MigProfile metric) EmptyString)
  then GPU metric +:+ "." +:+ GPUInstanceID metric
  else GPU metric.

(** The body of [for _, job := range jobs]. *)
Definition fanOut (env : Env) (metric : Metric) (st : list Metric * Heap)
    (job : string) : Outcome (list Metric * Heap) :=
  let '(modifiedMetrics, h) := st in
  match utils.DeepCopy (copyFails env) h metric with
  | None => Return (modifiedMetrics, h)
  | Some (modifiedMetric, h) =>
      if Strings.Contains job " " then
        match Strings.Split job " " with
        | [job0; user] =>
            h ← assign h (Attributes modifiedMetric) HpcJobAttribute job0;
            h ← assign h (Attributes modifiedMetric) HpcUserAttribute user;
            Return (modifiedMetrics ++ [modifiedMetric], h)
        | _ => Return (modifiedMetrics, h)
        end
      else
        h ← assign h (Attributes modifiedMetric) HpcJobAttribute job;
        Return (modifiedMetrics ++ [modifiedMetric], h)
  end.

(** The block "for convenience populate UUIDs": the cache [gpuUUIDs] after
    it.  Only a key that the cache does not hold yet is resolved. *)
Definition populateUUID (sysInfo : deviceinfo.Provider)
    (gpuUUIDs : gmap string string) (metric : Metric) : Outcome (gmap string string) :=
  let gpuID := gpuIDOf metric in
  match gpuUUIDs !! gpuID with
  | Some _ => Return gpuUUIDs
  | None =>
      if negb (String.eqb (MigProfile metric) EmptyString) then
        uuid ← FindMIGUUID sysInfo (GPU metric) (GPUInstanceID metric);
        Return (<[gpuID := uuid]> gpuUUIDs)
      else Return (<[gpuID := GPUUUID metric]> gpuUUIDs)
  end.

(** The job lookup: by UUID first, by [gpuID] when the UUID is not a key. *)
Definition lookupJobs (gpuToJobMap : gmap string (list string))
    (uuid gpuID : string) : option (list string) :=
  match gpuToJobMap !! uuid with
  | Some jobs => Some jobs
  | None => gpuToJobMap !! gpuID
  end.

(** The body of [for _, metric := range metrics[counter]]. *)
Definition enrich (env : Env) (sysInfo : deviceinfo.Provider)
    (gpuToJobMap : gmap string (list string))
    (st : gmap string string * Heap * list Metric) (metric : Metric)
  : Outcome (gmap string string * Heap * list Metric) :=
  let '(gpuUUIDs, h, modifiedMetrics) := st in
  let metric := setAlterValue metric (scaled env metric) in
  let gpuID := gpuIDOf metric in
  gpuUUIDs ← populateUUID sysInfo gpuUUIDs metric;
  let uuid := default EmptyString (gpuUUIDs !! gpuID) in
  let metric := setAlterUUID metric uuid in
  match lookupJobs gpuToJobMap uuid gpuID with
  | Some ((_ :: _) as jobs) =>
      '(modifiedMetrics, h) ← forRange (fanOut env metric) jobs (modifiedMetrics, h);
      Return (gpuUUIDs, h, modifiedMetrics)
  | _ => Return (gpuUUIDs, h, modifiedMetrics ++ [metric])
  end.

(** The body of [for counter := range metrics]; the entries already visited
    are collected with their new sequences. *)
Definition enrichCounter (env : Env) (sysInfo : deviceinfo.Provider)
    (gpuToJobMap : gmap string (list string))
    (st : gmap string string * Heap * MetricsByCounter)
    (entry : counters.Counter * list Metric)
  : Outcome (gmap string string * Heap * MetricsByCounter) :=
  let '(gpuUUIDs, h, done) := st in
  '(gpuUUIDs, h, modifiedMetrics) ←
    forRange (enrich env sysInfo gpuToJobMap) entry.2 (gpuUUIDs, h, []);
  Return (gpuUUIDs, h, done ++ [(entry.1, modifiedMetrics)]).

(** [hpcMapper.Process]: the returned error, the metrics map and the store
    of label and attribute maps after the call. *)
Definition Process (env : Env) (metrics : MetricsByCounter)
    (sysInfo : deviceinfo.Provider) (h : Heap)
  : Outcome (option error * MetricsByCounter * Heap) :=
  match Stat (os env) with
  | Some _ => Return (None, metrics, h)
  | None =>
      match getGPUFiles (os env) with
      | inl err => Return (Some err, metrics, h)
      | inr gpuFiles =>
          match loadJobs (os env) gpuFiles ∅ with
          | inl err => Return (Some err, metrics, h)
          | inr gpuToJobMap =>
              '(_, h, metrics) ←
                forRange (enrichCounter env sysInfo gpuToJobMap) metrics (∅, h, []);
              Return (None, metrics, h)
          end
      end
  end.

End transformation.

(* ===================================================================== *)
(** ** The legacy mapper (package dcgmexporter, second half of hpc.go)    *)
(* ===================================================================== *)

Module dcgmexporter.
Import counters collector.

(** The state directory [/run/gpustat] as [CollectJobInfo] sees it: whether
    [os.Stat] finds the file of a device, what [os.ReadFile] gives for it,
    and the two words that [fmt.Sscanf(content, "%s %s", ...)] scans when it
    reports two items and no error ([None] otherwise). *)
Record StateDir := {
  StatOk : string -> bool;
  ReadFile : string -> option string;
  Sscanf_s_s : string -> option (string * string)
}.

(** [CollectJobInfo]: job id and user id, or two empty strings. *)
Definition CollectJobInfo (dir : StateDir) (gpu : string) : string * string :=
  if StatOk dir gpu then
    match ReadFile dir gpu with
    | Some content =>
        match Sscanf_s_s dir content with
        | Some (jobId, jobUid) => (jobId, jobUid)
        | None => (EmptyString, EmptyString)
        end
    | None => (EmptyString, EmptyString)
    end
  else (EmptyString, EmptyString).

(** The three maps that [PUSlurmMapper.Process] keeps during a pass. *)
Record Caches := {
  jobIds : gmap string string;
  userIds : gmap string string;
  gpuUUIDs : gmap string string
}.

(** The body of [for j, val := range device]: the element [metrics[i][j]]
    after the iteration. *)
Definition annotate (env : transformation.Env) (dir : StateDir)
    (sysInfo : deviceinfo.Provider) (st : Caches * Heap * list Metric) (val : Metric)
  : Outcome (Caches * Heap * list Metric) :=
  let '(c, h, visited) := st in
  let elem := setAlterValue val (transformation.scaled env val) in
  let gpuID := transformation.gpuIDOf val in
  uuids ← transformation.populateUUID sysInfo (gpuUUIDs c) val;
  let uuid := default EmptyString (uuids !! gpuID) in
  let elem := setAlterUUID elem uuid in
  let '(jobId, userId, c) :=
    match jobIds c !! gpuID with
    | Some jobId =>
        (jobId, default EmptyString (userIds c !! gpuID),
         {| jobIds := jobIds c; userIds := userIds c; gpuUUIDs := uuids |})
    | None =>
        let '(jobId, userId) := CollectJobInfo dir uuid in
        (jobId, userId,
         {| jobIds := <[gpuID := jobId]> (jobIds c);
            userIds := <[gpuID := userId]> (userIds c);
            gpuUUIDs := uuids |})
    end in
  if negb (String.eqb jobId EmptyString) && negb (String.eqb userId EmptyString) then
    h ← assign h (Attributes elem) "jobid" jobId;
    h ← assign h (Attributes elem) "userid" userId;
    Return (c, h, visited ++ [elem])
  else Return (c, h, visited ++ [elem]).

(** The body of [for i, device := range metrics]. *)
Definition annotateCounter (env : transformation.Env) (dir : StateDir)
    (sysInfo : deviceinfo.Provider) (st : Caches * Heap * MetricsByCounter)
    (entry : counters.Counter * list Metric)
  : Outcome (Caches * Heap * MetricsByCounter) :=
  let '(c, h, done) := st in
  '(c, h, device) ← forRange (annotate env dir sysInfo) entry.2 (c, h, []);
  Return (c, h, done ++ [(entry.1, device)]).

(** [PUSlurmMapper.Process]: it always returns [nil]; the metrics map and
    the store after the call. *)
Definition Process (env : transformation.Env) (dir : StateDir)
    (metrics : MetricsByCounter) (sysInfo : deviceinfo.Provider) (h : Heap)
  : Outcome (MetricsByCounter * Heap) :=
  '(_, h, metrics) ←
    forRange (annotateCounter env dir sysInfo) metrics
      ({| jobIds := ∅; userIds := ∅; gpuUUIDs := ∅ |}, h, []);
  Return (metrics, h).

End dcgmexporter.

(* ===================================================================== *)
(** ** internal/pkg/rendermetrics/render_metrics.go                       *)
(* ===================================================================== *)

Module rendermetrics.
Import counters collector.

(** The double quote and the line feed. *)
Definition dq : string := String "034"%char EmptyString.
Definition nl : string := String "010"%char EmptyString.

(** [k="v"] *)
Definition label (k v : string) : string := k +:+ "=" +:+ dq +:+ v +:+ dq.

(** A template [range] over a map visits the keys in sorted order. *)
Definition keyLe (a b : string * string) : Prop := String.leb a.1 b.1 = true.

#[export] Instance keyLe_dec a b : Decision (keyLe a b).
Proof. unfold keyLe. apply _. Defined.

Definition sortedEntries (m : gmap string string) : list (string * string) :=
  merge_sort keyLe (map_to_list m).

(** The texts of the elements of a [range], one after the other. *)
Definition concatMap {A : Type} (f : A -> string) (l : list A) : string :=
  fold_right (fun a s => f a +:+ s) EmptyString l.

(** [{{- range $k, $v := . -}} ,{{ $k }}="{{ $v }}" {{- end -}}] *)
Definition renderMap (m : gmap string string) : string :=
  concatMap (fun kv => "," +:+ label kv.1 kv.2) (sortedEntries m).

(** [{{if $metric.MigProfile}},GPU_I_PROFILE=...,GPU_I_ID=...{{end}}] *)
Definition renderMig (metric : Metric) : string :=
  if negb (String.eqb (MigProfile metric) EmptyString)
  then "," +:+ label "GPU_I_PROFILE" (MigProfile metric) +:+
       "," +:+ label "GPU_I_ID" (GPUInstanceID metric)
  else EmptyString.

(** [{{if $metric.Hostname }},Hostname=...{{end}}] *)
Definition renderHostname (metric : Metric) : string :=
  if negb (String.eqb (Hostname metric) EmptyString)
  then "," +:+ label "Hostname" (Hostname metric)
  else EmptyString.

(** One sample line of the first block of [gpuMetricsFormat], with the line
    feed that the [range] action puts before it. *)
Definition gpuLine (h : Heap) (counter : counters.Counter) (metric : Metric) : string :=
  nl +:+ FieldName counter +:+ "{" +:+ label "gpu" (GPU metric) +:+
  "," +:+ label (UUID metric) (AlterUUID metric) +:+
  "," +:+ label "pci_bus_id" (GPUPCIBusID metric) +:+
  "," +:+ label "device" (GPUDevice metric) +:+
  "," +:+ label "modelName" (GPUModelName metric) +:+
  renderMig metric +:+ renderHostname metric +:+
  renderMap (mapAt h (Labels metric)) +:+
  renderMap (mapAt h (Attributes metric)) +:+
  "} " +:+ Value metric.

(** One sample line of the alternate block of [gpuMetricsFormat]. *)
Definition gpuAlterLine (h : Heap) (counter : counters.Counter) (metric : Metric) : string :=
  nl +:+ AlterFieldName counter +:+ "{" +:+ label "minor_number" (GPU metric) +:+
  "," +:+ label "uuid" (AlterUUID metric) +:+
  "," +:+ label "device" (GPUDevice metric) +:+
  "," +:+ label "modelName" (GPUModelName metric) +:+
  renderMig metric +:+ renderHostname metric +:+
  renderMap (mapAt h (Labels metric)) +:+
  renderMap (mapAt h (Attributes metric)) +:+
  "} " +:+ AlterValue metric.

(** [# HELP name help] / [# TYPE name type] *)
Definition header (name help type : string) : string :=
  "# HELP " +:+ name +:+ " " +:+ help +:+ nl +:+ "# TYPE " +:+ name +:+ " " +:+ type.


(** The body of the outer [range] of [gpuMetricsFormat]. *)
Definition gpuBlock (h : Heap) (entry : counters.Counter * list Metric) : string :=
  let '(counter, metrics) := entry in
  header (FieldName counter) (Help counter) (PromType counter) +:+
  concatMap (gpuLine h counter) metrics +:+
  (if negb (String.eqb (AlterFieldName counter) EmptyString)
   then nl +:+ header (AlterFieldName counter) (AlterHelp counter) (PromType counter) +:+
        concatMap (gpuAlterLine h counter) metrics
   else EmptyString) +:+
  nl.

(** The sample line of the four smaller formats: the class labels differ,
    the rest is shared ([Hostname], then the labels; no attributes). *)
Definition plainLine (classLabels : Metric -> string) (h : Heap)
    (counter : counters.Counter) (metric : Metric) : string :=
  nl +:+ FieldName counter +:+ "{" +:+ classLabels metric +:+
  renderHostname metric +:+ renderMap (mapAt h (Labels metric)) +:+
  "} " +:+ Value metric.

Definition plainBlock (classLabels : Metric -> string) (h : Heap)
    (entry : counters.Counter * list Metric) : string :=
  let '(counter, metrics) := entry in
  header (FieldName counter) (Help counter) (PromType counter) +:+
  concatMap (plainLine classLabels h counter) metrics +:+ nl.

Definition gpuMetricsFormat (h : Heap) (metrics : MetricsByCounter) : string :=
  concatMap (gpuBlock h) metrics.

Definition switchMetricsFormat (h : Heap) (metrics : MetricsByCounter) : string :=
  concatMap (plainBlock (fun m => label "nvswitch" (GPU m)) h) metrics.

Definition linkMetricsFormat (h : Heap) (metrics : MetricsByCounter) : string :=
  concatMap (plainBlock (fun m => label "nvlink" (GPU m) +:+ "," +:+
                                  label "nvswitch" (GPUDevice m)) h) metrics.

Definition cpuMetricsFormat (h : Heap) (metrics : MetricsByCounter) : string :=
  concatMap (plainBlock (fun m => label "cpu" (GPU m)) h) metrics.

Definition cpuCoreMetricsFormat (h : Heap) (metrics : MetricsByCounter) : string :=
  concatMap (plainBlock (fun m => label "cpucore" (GPU m) +:+ "," +:+
                                  label "cpu" (GPUDevice m)) h) metrics.

(** The initial values of [strJobId] and [strUserId] (the second line of the
    first begins with a blank in the source). *)
Definition strJobId0 : string :=
  "# HELP nvidia_gpu_jobId JobId number of a job currently using this GPU as reported by Slurm"
  +:+ nl +:+ " # TYPE nvidia_gpu_jobId gauge" +:+ nl.

Definition strUserId0 : string :=
  "# HELP nvidia_gpu_jobUid Uid number of user running jobs on this GPU"
  +:+ nl +:+ "# TYPE nvidia_gpu_jobUid gauge" +:+ nl.

(** The first value of [props]: the device identity of a sample. *)
Definition deviceProps (deviceMetric : Metric) : string :=
  "{" +:+ label "minor_number" (GPU deviceMetric) +:+
  "," +:+ label "uuid" (AlterUUID deviceMetric) +:+
  "," +:+ label "device" (GPUDevice deviceMetric) +:+
  "," +:+ label "modelName" (GPUModelName deviceMetric) +:+
  "," +:+ label "GPU_I_PROFILE" (MigProfile deviceMetric) +:+
  "," +:+ label "GPU_I_ID" (GPUInstanceID deviceMetric).

(** The body of the inner loop of [RenderSlurm] on [(strJobId, strUserId)]. *)
Definition slurmStep (h : Heap) (st : string * string) (deviceMetric : Metric)
  : string * string :=
  let '(strJobId, strUserId) := st in
  let props := deviceProps deviceMetric in
  if negb (Strings.Contains strJobId props) then
    let jobid := index h (Attributes deviceMetric) transformation.HpcJobAttribute in
    let userid := index h (Attributes deviceMetric) transformation.HpcUserAttribute in
    if negb (String.eqb jobid EmptyString) then
      let props := props +:+ "," +:+ label "jobid" jobid in
      if negb (String.eqb userid EmptyString) then
        let props := props +:+ "," +:+ label "userid" userid +:+ "} " in
        (strJobId +:+ "nvidia_gpu_jobId" +:+ props +:+ jobid +:+ nl,
         strUserId +:+ "nvidia_gpu_jobUid" +:+ props +:+ userid +:+ nl)
      else
        let props := props +:+ "} " in
        (strJobId +:+ "nvidia_gpu_jobId" +:+ props +:+ jobid +:+ nl, strUserId)
    else st
  else st.

(** The two loops of [RenderSlurm]. *)
Definition slurmLoop (h : Heap) (metrics : MetricsByCounter) : string * string :=
  foldl (fun st entry => foldl (slurmStep h) st entry.2) (strJobId0, strUserId0) metrics.

(** [RenderSlurm]: what is written to [w] (one [Write], taken to succeed). *)
Definition RenderSlurm (h : Heap) (metrics : MetricsByCounter) : string :=
  let '(strJobId, strUserId) := slurmLoop h metrics in
  strJobId +:+ strUserId.

Inductive Field_Entity_Group :=
| FE_NONE | FE_GPU | FE_VGPU | FE_SWITCH | FE_GPU_I | FE_GPU_CI
| FE_LINK | FE_CPU | FE_CPU_CORE.

(** [RenderGroup]: what is written to [w] and the returned error.  The
    writer is a buffer that takes every write, and the templates cannot
    fail on these data, so the only error is the unknown group.  The list
    gives the order of the entries both for the template and for
    [RenderSlurm]. *)
Definition RenderGroup (h : Heap) (group : Field_Entity_Group)
    (metrics : MetricsByCounter) : string * option error :=
  match group with
  | FE_GPU => (gpuMetricsFormat h metrics +:+ RenderSlurm h metrics, None)
  | FE_SWITCH => (switchMetricsFormat h metrics, None)
  | FE_LINK => (linkMetricsFormat h metrics, None)
  | FE_CPU => (cpuMetricsFormat h metrics, None)
  | FE_CPU_CORE => (cpuCoreMetricsFormat h metrics, None)
  | _ => (EmptyString, Some "unexpected group"%string)
  end.

End rendermetrics.

(* ===================================================================== *)
(** ** Concrete inputs                                                    *)
(* ===================================================================== *)

Module Inputs.
Import counters collector transformation.

(** A gauge named [X] with the given help text and multiplier, without an
    alternate name. *)
Definition counterX (help : string) (multiplier : Z) : counters.Counter :=
  {| FieldID := 1; FieldName := "X"; PromType := "gauge"; Help := help;
     AlterFieldName := EmptyString; AlterHelp := EmptyString;
     Multiplier := multiplier |}.

(** A sample of a standalone device, fresh from collection: no partition,
    no alternate value or identifier yet, label map at 0 and attribute map
    at 1. *)
Definition sample (c : counters.Counter) (value gpu uuid : string) : Metric :=
  {| Counter := c; Value := value; GPU := gpu; GPUUUID := uuid;
     GPUDevice := EmptyString; GPUModelName := EmptyString;
     GPUPCIBusID := EmptyString; UUID := "UUID"; MigProfile := EmptyString;
     GPUInstanceID := EmptyString; Hostname := EmptyString;
     Labels := 0%nat; Attributes := 1%nat;
     AlterValue := EmptyString; AlterUUID := EmptyString |}.

(** A sample of a partition (MIG instance) of a device. *)
Definition migSample (c : counters.Counter) (value gpu instance : string) : Metric :=
  {| Counter := c; Value := value; GPU := gpu; GPUUUID := "GPU-abc";
     GPUDevice := EmptyString; GPUModelName := EmptyString;
     GPUPCIBusID := EmptyString; UUID := "UUID"; MigProfile := "1g.10gb";
     GPUInstanceID := instance; Hostname := EmptyString;
     Labels := 0%nat; Attributes := 1%nat;
     AlterValue := EmptyString; AlterUUID := EmptyString |}.

(** The store with the two empty maps of [sample]. *)
Definition heap0 : Heap := <[1%nat := ∅]> (<[0%nat := ∅]> ∅).

Fixpoint fileLines (files : list (string * list string)) (name : string)
  : FileRead :=
  match files with
  | [] => OpenError "no such file"
  | (n, lines) :: files' =>
      if String.eqb n name then Scanned lines None else fileLines files' name
  end.

(** A mapping directory that holds the given regular files. *)
Definition dirWith (files : list (string * list string)) : OS :=
  {| Stat := None;
     ReadDir := inr (map (fun f => (f.1, NotDir)) files);
     Open := fileLines files |}.

(** No mapping directory. *)
Definition absentDir : OS :=
  {| Stat := Some "no such file or directory"%string;
     ReadDir := inl "no such file or directory"%string;
     Open := fun _ => OpenError "no such file or directory" |}.

(** A mapping directory whose file [0] cannot be opened. *)
Definition unreadableDir : OS :=
  {| Stat := None;
     ReadDir := inr [("0"%string, NotDir)];
     Open := fun _ => OpenError "permission denied" |}.

(** Surroundings in which every copy succeeds; the floating-point routines
    are stand-ins (no example below takes the floating-point path). *)
Definition envOf (o : OS) : Env :=
  {| os := o;
     ParseFloat := fun _ => (PrimFloat.zero, None);
     Sprintf_f := fun _ => "0.000000"%string;
     copyFails := fun _ => false |}.

(** One device with one partition, NVML instance id 3. *)
Definition oneGPU : deviceinfo.Provider :=
  {| deviceinfo.GPUCount := 1;
     deviceinfo.GPUs :=
       [ {| deviceinfo.GPUInstances :=
              [ {| deviceinfo.NvmlInstanceId := 3; deviceinfo.UUID := "MIG-1" |} ] |} ] |}.

(** The sample of the round-trip example: device 0, UUID GPU-abc, value
    139, counter [X] with multiplier 1. *)
Definition metric139 : Metric := sample (counterX "help" 1) "139" "0" "GPU-abc".

(** The same sample after a pass over an empty mapping directory. *)
Definition metric139Enriched : Metric :=
  setAlterUUID (setAlterValue metric139 "139") "GPU-abc".

(** A mapping file for device 0 with a job-and-user record and a bare job
    record. *)
Definition twoJobs : list string := ["100 200"; "300"]%string.

(** A sample of device [gpu], partition instance [instance], whose
    attribute map is at [attributes] (its label map at 0). *)
Definition jobSample (gpu instance : string) (attributes : loc) : Metric :=
  {| Counter := counterX "help" 1; Value := "139"; GPU := gpu; GPUUUID := "GPU-abc";
     GPUDevice := EmptyString; GPUModelName := EmptyString;
     GPUPCIBusID := EmptyString; UUID := "UUID"; MigProfile := EmptyString;
     GPUInstanceID := instance; Hostname := EmptyString;
     Labels := 0%nat; Attributes := attributes;
     AlterValue := "139"; AlterUUID := "GPU-abc" |}.

(** A store with an empty label map at 0 and three attribute maps: job 100
    of user 200 at 1, job 300 at 2, job 7 at 3. *)
Definition heapJobs : Heap :=
  <[3%nat := <["jobid"%string := "7"%string]> ∅]>
    (<[2%nat := <["jobid"%string := "300"%string]> ∅]>
       (<[1%nat := <["userid"%string := "200"%string]> (<["jobid"%string := "100"%string]> ∅)]>
          (<[0%nat := ∅]> ∅))).

(** Two samples of device 0, as the fan-out leaves them for two jobs. *)
Definition sameDevice : MetricsByCounter :=
  [(counterX "help" 1, [jobSample "0" EmptyString 1; jobSample "0" EmptyString 2])].

(** An instance id that holds a double quote, and the instance id that is
    its part before the quote. *)
Definition quoted : string := "1" +:+ String "034"%char (",x=" +:+ String "034"%char EmptyString).

Definition nestedDevices : MetricsByCounter :=
  [(counterX "help" 1, [jobSample "0" quoted 2; jobSample "0" "1" 3])].

(** Values without a decimal point that [Atoi] rejects, for a counter with
    multiplier 2: one past the largest [int]; twenty digits and a letter;
    a word. *)
Definition tooBig : Metric :=
  sample (counterX "help" 2) "9223372036854775808" "0" "GPU-abc".

Definition digitsThenLetter : Metric :=
  sample (counterX "help" 2) "99999999999999999999x" "0" "GPU-abc".

Definition word : Metric := sample (counterX "help" 2) "N/A" "0" "GPU-abc".

End Inputs.

(* ===================================================================== *)
(** ** Vocabulary of the properties                                       *)
(* ===================================================================== *)

Module Spec.
Import counters collector transformation.

(** [m'] is [m] after the scaling and identity blocks, possibly pointing to
    maps of its own: every field of [m] is kept, [AlterValue] is the scaled
    value. *)
Definition derived (env : Env) (m m' : Metric) : Prop :=
  exists uuid labels attributes,
    m' = setMaps (setAlterUUID (setAlterValue m (scaled env m)) uuid) labels attributes.

(** How the loop body of the fan-out reads one job record. *)
Inductive JobRecord :=
| JobOnly (job : string)
| JobUser (job user : string)
| Malformed.

(** The reading of a line: without a blank it is a job id; with blanks it
    is cut at every blank and must give exactly two pieces. *)
Definition parseJob (line : string) : JobRecord :=
  if Strings.Contains line " " then
    match Strings.Split line " " with
    | [job; user] => JobUser job user
    | _ => Malformed
    end
  else JobOnly line.

Definition wellFormed (line : string) : bool :=
  match parseJob line with
  | Malformed => false
  | _ => true
  end.

(** The attributes of a copy made for a job record, from those of the
    original. *)
Definition withJob (r : JobRecord) (attrs : gmap string string) : gmap string string :=
  match r with
  | JobOnly job => <[HpcJobAttribute := job]> attrs
  | JobUser job user => <[HpcUserAttribute := user]> (<[HpcJobAttribute := job]> attrs)
  | Malformed => attrs
  end.

(** The job id of a record, and its user id when it has one. *)
Definition jobId (r : JobRecord) : string :=
  match r with
  | JobOnly job => job
  | JobUser job _ => job
  | Malformed => EmptyString
  end.

Definition userId (r : JobRecord) : option string :=
  match r with
  | JobUser _ user => Some user
  | _ => None
  end.

(** The sample as the fan-out copies it: scaled, with its identity. *)
Definition enriched (env : Env) (metric : Metric) (uuid : string) : Metric :=
  setAlterUUID (setAlterValue metric (scaled env metric)) uuid.

(** What the loop over the job records of [metric] leaves behind, started
    in store [h]: one copy per well-formed record, in order, each with a
    label map and an attribute map of its own that did not exist in [h]
    and that no two copies share; the maps of [h] are as they were. *)
Definition FanOutPost (h : Heap) (metric : Metric) (jobs : list string)
    (cs : list Metric) (h' : Heap) : Prop :=
  Forall2 (fun job c =>
             exists labels attributes,
               c = setMaps metric labels attributes /\
               h' !! attributes = Some (withJob (parseJob job) (mapAt h (Attributes metric))) /\
               h' !! labels = Some (mapAt h (Labels metric)))
          (filter (fun job => wellFormed job = true) jobs) cs /\
  NoDup (flat_map (fun c => [Labels c; Attributes c]) cs) /\
  (forall c, c ∈ cs -> (Labels c ∉ dom h) /\ (Attributes c ∉ dom h)) /\
  (forall l, l ∈ dom h -> h' !! l = h !! l).

(** The number that a run of decimal digits adds to [acc], read from the
    left. *)
Fixpoint decimalValue (d : Decimal.uint) (acc : Z) : Z :=
  match d with
  | Decimal.Nil => acc
  | Decimal.D0 l => decimalValue l (acc * 10 + 0)
  | Decimal.D1 l => decimalValue l (acc * 10 + 1)
  | Decimal.D2 l => decimalValue l (acc * 10 + 2)
  | Decimal.D3 l => decimalValue l (acc * 10 + 3)
  | Decimal.D4 l => decimalValue l (acc * 10 + 4)
  | Decimal.D5 l => decimalValue l (acc * 10 + 5)
  | Decimal.D6 l => decimalValue l (acc * 10 + 6)
  | Decimal.D7 l => decimalValue l (acc * 10 + 7)
  | Decimal.D8 l => decimalValue l (acc * 10 + 8)
  | Decimal.D9 l => decimalValue l (acc * 10 + 9)
  end.

(** **** The compatibility gauges *)

(** The identity of the device of a sample, as [RenderSlurm] prints it. *)
Definition DeviceId (m : Metric) : string * string * string * string * string * string :=
  (GPU m, AlterUUID m, GPUDevice m, GPUModelName m, MigProfile m, GPUInstanceID m).

Definition jobOf (h : Heap) (m : Metric) : string :=
  index h (Attributes m) HpcJobAttribute.

Definition userOf (h : Heap) (m : Metric) : string :=
  index h (Attributes m) HpcUserAttribute.

(** De-duplication with a set of device identities: a sample is taken when
    it carries a job id and no sample of its device was taken before. *)
Definition emitStep (h : Heap) (taken : list Metric) (m : Metric) : list Metric :=
  if decide (DeviceId m ∈ map DeviceId taken) then taken
  else if String.eqb (jobOf h m) EmptyString then taken
  else taken ++ [m].

Definition emitted (h : Heap) (metrics : MetricsByCounter) : list Metric :=
  foldl (fun taken entry => foldl (emitStep h) taken entry.2) [] metrics.

(** [deviceProps] without its opening brace. *)
Definition deviceBody (m : Metric) : string :=
  rendermetrics.label "minor_number" (GPU m) +:+
  "," +:+ rendermetrics.label "uuid" (AlterUUID m) +:+
  "," +:+ rendermetrics.label "device" (GPUDevice m) +:+
  "," +:+ rendermetrics.label "modelName" (GPUModelName m) +:+
  "," +:+ rendermetrics.label "GPU_I_PROFILE" (MigProfile m) +:+
  "," +:+ rendermetrics.label "GPU_I_ID" (GPUInstanceID m).

(** What follows the device identity on a line of the job gauge. *)
Definition lineTail (h : Heap) (m : Metric) : string :=
  "," +:+ rendermetrics.label "jobid" (jobOf h m) +:+
  (if String.eqb (userOf h m) EmptyString then "} "
   else "," +:+ rendermetrics.label "userid" (userOf h m) +:+ "} ") +:+
  jobOf h m +:+ rendermetrics.nl.

(** The line of a taken sample in the job gauge, and in the user gauge. *)
Definition jobLine (h : Heap) (m : Metric) : string :=
  "nvidia_gpu_jobId" +:+ rendermetrics.deviceProps m +:+ lineTail h m.

Definition userLine (h : Heap) (m : Metric) : string :=
  "nvidia_gpu_jobUid" +:+ rendermetrics.deviceProps m +:+
  "," +:+ rendermetrics.label "jobid" (jobOf h m) +:+
  "," +:+ rendermetrics.label "userid" (userOf h m) +:+ "} " +:+
  userOf h m +:+ rendermetrics.nl.

Definition hasUser (h : Heap) (m : Metric) : Prop := userOf h m <> EmptyString.

(** The two buffers for a list of taken samples. *)
Definition gauges (h : Heap) (taken : list Metric) : string * string :=
  (rendermetrics.strJobId0 +:+ rendermetrics.concatMap (jobLine h) taken,
   rendermetrics.strUserId0 +:+
     rendermetrics.concatMap (userLine h) (filter (hasUser h) taken)).

(** A text without an opening brace and without a double quote. *)
Definition plain (s : string) : Prop :=
  Strings.HasByte "{" s = false /\ Strings.HasByte "034" s = false.

(** A sample whose device identity, job id and user id are plain texts. *)
Definition plainSample (h : Heap) (m : Metric) : Prop :=
  plain (GPU m) /\ plain (AlterUUID m) /\ plain (GPUDevice m) /\
  plain (GPUModelName m) /\ plain (MigProfile m) /\ plain (GPUInstanceID m) /\
  plain (jobOf h m) /\ plain (userOf h m).

(** The text of the round-trip example of the renderer. *)
Definition roundTripText (help : string) : string :=
  "# HELP X " +:+ help +:+ rendermetrics.nl +:+
  "# TYPE X gauge" +:+ rendermetrics.nl +:+
  "X{gpu=" +:+ rendermetrics.dq +:+ "0" +:+ rendermetrics.dq +:+
  ",UUID=" +:+ rendermetrics.dq +:+ "GPU-abc" +:+ rendermetrics.dq +:+
  ",pci_bus_id=" +:+ rendermetrics.dq +:+ rendermetrics.dq +:+
  ",device=" +:+ rendermetrics.dq +:+ rendermetrics.dq +:+
  ",modelName=" +:+ rendermetrics.dq +:+ rendermetrics.dq +:+ "} 139".

End Spec.

(* ===================================================================== *)
(** ** Further vocabulary                                                 *)
(* ===================================================================== *)

Module Notions.
Import counters collector transformation.

(** A directory entry that [getGPUFiles] keeps: its file info can be had
    and it is no directory. *)
Definition regular (entry : string * FileInfo) : bool :=
  match entry.2 with
  | NotDir => true
  | _ => false
  end.

(** The surroundings [env] with another way of opening files. *)
Definition withOpen (env : Env) (open : string -> FileRead) : Env :=
  {| os := {| Stat := Stat (os env); ReadDir := ReadDir (os env); Open := open |};
     ParseFloat := ParseFloat env;
     Sprintf_f := Sprintf_f env;
     copyFails := copyFails env |}.

(** The number of blanks (U+0020) in a line. *)
Fixpoint blanks (s : string) : nat :=
  match s with
  | EmptyString => 0%nat
  | String c s' => ((if Ascii.eqb c " " then 1 else 0) + blanks s')%nat
  end.

(** Store [h'] has every map of store [h], with the same contents. *)
Definition keeps (h h' : Heap) : Prop :=
  forall l, l ∈ dom h -> h' !! l = h !! l.

(** The cache of identifiers holds the alternate identifier of a sample
    under the key of the sample. *)
Definition resolved (gpuUUIDs : gmap string string) (m : Metric) : Prop :=
  gpuUUIDs !! gpuIDOf m = Some (AlterUUID m).

(** Store [h'] has the maps of store [h] and no other, and they differ in
    the job attribute and the user attribute at most. *)
Definition sameButJob (h h' : Heap) : Prop :=
  dom h' = dom h /\
  forall l k, k <> HpcJobAttribute -> k <> HpcUserAttribute ->
              mapAt h' l !! k = mapAt h l !! k.

(** Two samples agree in what the formats of the switch, link, CPU and CPU
    core groups print of a sample: key, device, host name, labels, value. *)
Definition samePrinted (h h' : Heap) (m m' : Metric) : Prop :=
  GPU m' = GPU m /\ GPUDevice m' = GPUDevice m /\ Hostname m' = Hostname m /\
  Value m' = Value m /\ mapAt h' (Labels m') = mapAt h (Labels m).

(** Two counters agree in what these formats print of a counter. *)
Definition sameHeader (c c' : counters.Counter) : Prop :=
  FieldName c' = FieldName c /\ Help c' = Help c /\ PromType c' = PromType c.

(** Sample [m'] has what collection has put into sample [m]: its counter,
    its value and the fields that describe its device. *)
Definition sameReading (m m' : Metric) : Prop :=
  Counter m' = Counter m /\ Value m' = Value m /\ GPU m' = GPU m /\
  GPUUUID m' = GPUUUID m /\ GPUDevice m' = GPUDevice m /\
  GPUModelName m' = GPUModelName m /\ GPUPCIBusID m' = GPUPCIBusID m /\
  UUID m' = UUID m /\ MigProfile m' = MigProfile m /\
  GPUInstanceID m' = GPUInstanceID m /\ Hostname m' = Hostname m.

End Notions.

(* ===================================================================== *)
(** ** Properties                                                         *)
(* ===================================================================== *)

Import counters collector transformation.

(** *** Loops *)

Lemma forRange_app {A S : Type} (body : S -> A -> Outcome S) (l1 l2 : list A) (s : S) :
  forRange body (l1 ++ l2) s = (s' ← forRange body l1 s; forRange body l2 s').
Proof.
  revert s. induction l1 as [|a l1 IH]; intros s; simpl; [reflexivity|].
  destruct (body s a) as [s'| |]; simpl; [apply IH|reflexivity|reflexivity].
Qed.

(** An invariant that relates the state to the elements visited so far. *)
Lemma forRange_invariant {A S : Type} (P : list A -> S -> Prop)
    (body : S -> A -> Outcome S) (l : list A) (s s' : S) :
  P [] s ->
  (forall visited a s1 s2,
      P visited s1 -> body s1 a = Return s2 -> P (visited ++ [a]) s2) ->
  forRange body l s = Return s' ->
  P l s'.
Proof.
  intros H0 Hstep.
  assert (Hgen : forall visited s, P visited s ->
            forRange body l s = Return s' -> P (visited ++ l) s').
  { induction l as [|a l IH]; intros visited s1 HP Hrun; simpl in Hrun.
    - inversion Hrun; subst. rewrite app_nil_r. exact HP.
    - destruct (body s1 a) as [s2| |] eqn:Hb; simpl in Hrun; try discriminate.
      replace (visited ++ a :: l) with ((visited ++ [a]) ++ l)
        by (rewrite <- app_assoc; reflexivity).
      apply (IH (visited ++ [a]) s2); [eapply Hstep; eassumption|exact Hrun]. }
  intros Hrun. apply (Hgen [] s H0 Hrun).
Qed.

(** *** Reading the mapping directory *)

Lemma loadJobs_error (o : OS) (gpuFiles : list string) :
  forall (m : gmap string (list string)) name err,
    name ∈ gpuFiles -> readFile o name = inl err ->
    exists name' err',
      name' ∈ gpuFiles /\ readFile o name' = inl err' /\
      loadJobs o gpuFiles m = inl err'.
Proof.
  induction gpuFiles as [|f fs IH]; intros m name err Hin Hread.
  - inversion Hin.
  - simpl. destruct (readFile o f) as [e|jobs] eqn:Hf.
    + exists f, e. split; [left|split; [exact Hf|reflexivity]].
    + apply elem_of_cons in Hin as [->|Hin]; [congruence|].
      destruct (IH (<[f := default [] (m !! f) ++ jobs]> m) name err Hin Hread)
        as (n' & e' & Hn' & He' & Hl).
      exists n', e'. split; [right; exact Hn'|split; assumption].
Qed.

(** C9.  When the mapping directory exists but cannot be listed, or one of
    the listed files cannot be read, [Process] returns the error (that of
    the listing, or that of a listed file) and leaves the metrics map and
    the label and attribute maps exactly as they were: no alternate value,
    no copy, no attribute. *)
Theorem Process_io_error_skips_enrichment
    (env : Env) (metrics : MetricsByCounter) (sysInfo : deviceinfo.Provider) (h : Heap) :
  Stat (os env) = None ->
  (exists err, ReadDir (os env) = inl err) \/
  (exists files name err,
      ReadDir (os env) = inr files /\ name ∈ mappingFiles files /\
      readFile (os env) name = inl err) ->
  exists err,
    transformation.Process env metrics sysInfo h = Return (Some err, metrics, h) /\
    (ReadDir (os env) = inl err \/
     exists files name,
       ReadDir (os env) = inr files /\ name ∈ mappingFiles files /\
       readFile (os env) name = inl err).
Proof.
  intros Hstat [[err Hdir]|(files & name & err & Hdir & Hin & Hread)].
  - exists err. unfold transformation.Process, getGPUFiles. rewrite Hstat, Hdir.
    split; [reflexivity|left; reflexivity].
  - destruct (loadJobs_error (os env) (mappingFiles files) ∅ name err Hin Hread)
      as (n' & e' & Hn' & He' & Hl).
    exists e'. unfold transformation.Process, getGPUFiles. rewrite Hstat, Hdir, Hl.
    split; [reflexivity|right; exists files, n'; auto].
Qed.

Lemma Process_io_error_witness :
  exists err,
    transformation.Process (Inputs.envOf Inputs.unreadableDir)
      [(Inputs.counterX "help" 2, [Inputs.sample (Inputs.counterX "help" 2) "139" "0" "GPU-abc"])]
      Inputs.oneGPU Inputs.heap0
    = Return (Some err,
              [(Inputs.counterX "help" 2, [Inputs.sample (Inputs.counterX "help" 2) "139" "0" "GPU-abc"])],
              Inputs.heap0) /\
    (ReadDir (os (Inputs.envOf Inputs.unreadableDir)) = inl err \/
     exists files name,
       ReadDir (os (Inputs.envOf Inputs.unreadableDir)) = inr files /\
       name ∈ mappingFiles files /\
       readFile (os (Inputs.envOf Inputs.unreadableDir)) name = inl err).
Proof.
  apply (Process_io_error_skips_enrichment (Inputs.envOf Inputs.unreadableDir)).
  - reflexivity.
  - right. exists [("0"%string, NotDir)], "0"%string, "permission denied"%string.
    split; [reflexivity|split; [left|reflexivity]].
Defined.

(** *** The library routines on small inputs *)

Example Atoi_plain : Strconv.Atoi "139" = (139, None).
Proof. reflexivity. Qed.

Example Atoi_signed :
  Strconv.Atoi "-139" = (-139, None) /\ Strconv.Atoi "+7" = (7, None).
Proof. split; reflexivity. Qed.

Example Atoi_syntax_errors :
  Strconv.Atoi EmptyString = (0, Some Strconv.ErrSyntax) /\
  Strconv.Atoi "+" = (0, Some Strconv.ErrSyntax) /\
  Strconv.Atoi "1 2" = (0, Some Strconv.ErrSyntax) /\
  Strconv.Atoi "12a" = (0, Some Strconv.ErrSyntax) /\
  Strconv.Atoi "9223372036854775808x" = (0, Some Strconv.ErrSyntax).
Proof. repeat split; reflexivity. Qed.

Example Atoi_limits :
  Strconv.Atoi "9223372036854775807" = (2 ^ 63 - 1, None) /\
  Strconv.Atoi "-9223372036854775808" = (- 2 ^ 63, None) /\
  Strconv.Atoi "9223372036854775808" = (2 ^ 63 - 1, Some Strconv.ErrRange) /\
  Strconv.Atoi "-9223372036854775809" = (- 2 ^ 63, Some Strconv.ErrRange) /\
  Strconv.Atoi "18446744073709551616" = (2 ^ 63 - 1, Some Strconv.ErrRange).
Proof. repeat split; reflexivity. Qed.

Example ParseUint_32 :
  Strconv.ParseUint "007" 32 = (7, None) /\
  Strconv.ParseUint "4294967295" 32 = (2 ^ 32 - 1, None) /\
  Strconv.ParseUint "4294967296" 32 = (2 ^ 32 - 1, Some Strconv.ErrRange) /\
  Strconv.ParseUint "+7" 32 = (0, Some Strconv.ErrSyntax) /\
  Strconv.ParseUint "-1" 32 = (0, Some Strconv.ErrSyntax) /\
  Strconv.ParseUint EmptyString 32 = (0, Some Strconv.ErrSyntax).
Proof. repeat split; reflexivity. Qed.

Example FormatInt_wraps :
  Strconv.FormatInt (Strconv.wrapInt (139 * 1000)) = "139000"%string /\
  Strconv.FormatInt (Strconv.wrapInt ((2 ^ 63 - 1) * 2)) = "-2"%string /\
  Strconv.FormatInt (Strconv.wrapInt 0) = "0"%string.
Proof. repeat split; reflexivity. Qed.

Example Split_blank :
  Strings.Split "100 200" " " = ["100"; "200"]%string /\
  Strings.Split "1 2 3" " " = ["1"; "2"; "3"]%string /\
  Strings.Split "a  b" " " = ["a"; EmptyString; "b"]%string /\
  Strings.Split " a" " " = [EmptyString; "a"]%string /\
  Strings.Split EmptyString " " = [EmptyString].
Proof. repeat split; reflexivity. Qed.

Example Contains_small :
  Strings.Contains "abc" "bc" = true /\
  Strings.Contains "abc" "bd" = false /\
  Strings.Contains "abc" EmptyString = true /\
  Strings.Contains EmptyString EmptyString = true /\
  Strings.Contains EmptyString "a" = false.
Proof. repeat split; reflexivity. Qed.

(** *** Strings *)

Lemma prefix_nil (s : string) : String.prefix EmptyString s = true.
Proof. destruct s; reflexivity. Qed.

Lemma prefix_cons (a b : ascii) (s t : string) :
  String.prefix (String a s) (String b t) = Ascii.eqb a b && String.prefix s t.
Proof.
  simpl. destruct (ascii_dec a b) as [->|Hne].
  - rewrite Ascii.eqb_refl. reflexivity.
  - apply Ascii.eqb_neq in Hne. rewrite Hne. reflexivity.
Qed.

Lemma Contains_byte (s : string) (c : ascii) :
  Strings.Contains s (String c EmptyString) = Strings.HasByte c s.
Proof.
  induction s as [|a s IH].
  - reflexivity.
  - cbn [Strings.Contains Strings.HasByte]. rewrite prefix_cons, prefix_nil, IH.
    rewrite andb_true_r, (Ascii.eqb_sym c a). reflexivity.
Qed.

Lemma HasByte_app (c : ascii) (s t : string) :
  Strings.HasByte c (s +:+ t) = Strings.HasByte c s || Strings.HasByte c t.
Proof.
  induction s as [|a s IH]; simpl; [reflexivity|].
  rewrite IH, orb_assoc. reflexivity.
Qed.

(** *** Integers and their decimal text *)



Lemma parseUintLoop_syntax_zero (maxVal : Z) (s : string) :
  forall n v, Strconv.parseUintLoop maxVal s n = (v, Some Strconv.ErrSyntax) -> v = 0.
Proof.
  induction s as [|c s IH]; intros n v H; simpl in H.
  - discriminate.
  - destruct (Strconv.isDigit c); [|congruence].
    destruct (n >=? Strconv.maxUint64 / 10 + 1); [congruence|].
    match type of H with
    | (if ?b then _ else _) = _ => destruct b; [congruence|]
    end.
    eapply IH; eassumption.
Qed.

(** A syntax error always comes with the value 0. *)
Lemma Atoi_syntax_zero (s : string) :
  snd (Strconv.Atoi s) = Some Strconv.ErrSyntax -> fst (Strconv.Atoi s) = 0.
Proof.
  unfold Strconv.Atoi.
  destruct ((0 <? Z.of_nat (String.length s)) && (Z.of_nat (String.length s) <? 19)).
  - destruct s as [|c s]; [reflexivity|].
    match goal with
    | |- context [if ?b then (0, Some Strconv.ErrSyntax) else _] => destruct b
    end; [reflexivity|].
    destruct (Strconv.atoiDigits _ 0); [simpl; discriminate|reflexivity].
  - unfold Strconv.ParseInt. destruct s as [|c s]; [reflexivity|].
    destruct (Strconv.ParseUint _ 0) as [un [[]|]] eqn:Hu; [reflexivity| |];
      repeat match goal with
             | |- context [if ?b then (_, _) else _] => destruct b
             end; simpl; try discriminate; try reflexivity.
Qed.

(** A range error comes with the largest or the smallest [int]. *)
Lemma Atoi_range_clamped (s : string) :
  snd (Strconv.Atoi s) = Some Strconv.ErrRange ->
  fst (Strconv.Atoi s) = 2 ^ 63 - 1 \/ fst (Strconv.Atoi s) = - 2 ^ 63.
Proof.
  unfold Strconv.Atoi.
  destruct ((0 <? Z.of_nat (String.length s)) && (Z.of_nat (String.length s) <? 19)).
  - destruct s as [|c s]; [simpl; discriminate|].
    match goal with
    | |- context [if ?b then (0, Some Strconv.ErrSyntax) else _] => destruct b
    end; [simpl; discriminate|].
    destruct (Strconv.atoiDigits _ 0); simpl; discriminate.
  - unfold Strconv.ParseInt. destruct s as [|c s]; [simpl; discriminate|].
    destruct (Strconv.ParseUint _ 0) as [un [[]|]] eqn:Hu; [simpl; discriminate| |];
      repeat match goal with
             | |- context [if ?b then (_, _) else _] => destruct b
             end; simpl; try discriminate; auto.
Qed.

(** *** Reading back the text of an integer *)

Lemma decimalValue_pos (d : Decimal.uint) :
  forall acc : positive, Spec.decimalValue d (Zpos acc) = Zpos (Pos.of_uint_acc d acc).
Proof.
  induction d; intros acc; cbn [Spec.decimalValue Pos.of_uint_acc]; try reflexivity;
    rewrite <- IHd; f_equal; lia.
Qed.

Lemma decimalValue_zero (d : Decimal.uint) :
  Spec.decimalValue d 0 = Z.of_N (Pos.of_uint d).
Proof.
  induction d; cbn [Spec.decimalValue Pos.of_uint]; try reflexivity;
    try (apply (decimalValue_pos d)). exact IHd.
Qed.

Lemma decimalValue_ge (d : Decimal.uint) :
  forall acc, 0 <= acc -> acc <= Spec.decimalValue d acc.
Proof.
  induction d; intros acc Hacc; cbn [Spec.decimalValue]; try lia;
    match goal with
    | |- _ <= Spec.decimalValue _ ?a => specialize (IHd a); lia
    end.
Qed.


Lemma parseUintLoop_decimal (maxVal : Z) (d : Decimal.uint) :
  maxVal < 2 ^ 64 ->
  forall n, 0 <= n -> Spec.decimalValue d n <= maxVal ->
            Strconv.parseUintLoop maxVal (NilEmpty.string_of_uint d) n
            = (Spec.decimalValue d n, None).
Proof.
  intros Hmax.
  assert (Hstep : forall (k : Z) (l : Decimal.uint) (s : string) (n : Z),
             0 <= k <= 9 -> 0 <= n -> Spec.decimalValue l (n * 10 + k) <= maxVal ->
             (forall n', 0 <= n' -> Spec.decimalValue l n' <= maxVal ->
                         Strconv.parseUintLoop maxVal s n' = (Spec.decimalValue l n', None)) ->
             (if n >=? Strconv.maxUint64 / 10 + 1 then (maxVal, Some Strconv.ErrRange)
              else if ((n * 10 + k) mod 2 ^ 64 <? n * 10) || ((n * 10 + k) mod 2 ^ 64 >? maxVal)
                   then (maxVal, Some Strconv.ErrRange)
                   else Strconv.parseUintLoop maxVal s ((n * 10 + k) mod 2 ^ 64))
             = (Spec.decimalValue l (n * 10 + k), None)).
  { intros k l s n Hk Hn Hv IH.
    pose proof (decimalValue_ge l (n * 10 + k) ltac:(lia)) as Hge.
    change (Strconv.maxUint64 / 10 + 1) with 1844674407370955162.
    change (2 ^ 64) with 18446744073709551616 in *.
    replace (n >=? 1844674407370955162) with false
      by (symmetry; rewrite Z.geb_leb; apply Z.leb_gt; lia).
    rewrite Z.mod_small by lia.
    replace (n * 10 + k <? n * 10) with false by (symmetry; apply Z.ltb_ge; lia).
    replace (n * 10 + k >? maxVal) with false
      by (symmetry; rewrite Z.gtb_ltb; apply Z.ltb_ge; lia).
    cbn [orb]. apply IH; [lia|exact Hv]. }
  induction d; intros n Hn Hv;
    cbn [NilEmpty.string_of_uint Strconv.parseUintLoop Spec.decimalValue] in *;
    [reflexivity|..];
    match goal with
    | |- context [Strconv.isDigit ?c] =>
        change (Strconv.isDigit c) with true; cbv iota;
        match goal with
        | |- context [Strconv.byteVal c - 48] =>
            let k := eval vm_compute in (Strconv.byteVal c - 48) in
            change (Strconv.byteVal c - 48) with k
        end
    end;
    cbv zeta; apply Hstep; try lia; try assumption.
Qed.

Lemma string_of_uint_head (d : Decimal.uint) :
  d <> Decimal.Nil ->
  exists c s, NilEmpty.string_of_uint d = String c s /\
              Ascii.eqb c "-" = false /\ Ascii.eqb c "+" = false.
Proof.
  destruct d; intros Hd; [congruence|..]; cbn [NilEmpty.string_of_uint];
    eexists _, _; repeat split; reflexivity.
Qed.


(** *** Scaling *)



Lemma scaled_int (env : Env) (metric : Metric) :
  Multiplier (Counter metric) <> 1 ->
  Strings.Contains (Value metric) "." = false ->
  scaled env metric =
    Strconv.FormatInt
      (Strconv.wrapInt (fst (Strconv.Atoi (Value metric)) * Multiplier (Counter metric))).
Proof.
  intros Hm Hp. unfold scaled. apply Z.eqb_neq in Hm. rewrite Hm, Hp. reflexivity.
Qed.

(** *** The fan-out *)

Lemma DeepCopy_ok (fails : Metric -> bool) (h : Heap) (m : Metric) :
  fails m = false ->
  exists labels attributes,
    utils.DeepCopy fails h m =
      Some (setMaps m labels attributes,
            <[attributes := mapAt h (Attributes m)]> (<[labels := mapAt h (Labels m)]> h)) /\
    (labels ∉ dom h) /\ (attributes ∉ dom h) /\ labels <> attributes.
Proof.
  intros Hf. unfold utils.DeepCopy. rewrite Hf.
  set (l1 := fresh (dom h)).
  set (h1 := <[l1 := mapAt h (Labels m)]> h).
  set (l2 := fresh (dom h1)).
  exists l1, l2. split; [reflexivity|].
  assert (H1 : l1 ∉ dom h) by apply is_fresh.
  assert (H2 : l2 ∉ dom h1) by apply is_fresh.
  unfold h1 in H2. rewrite dom_insert_L in H2.
  repeat split; [exact H1|set_solver|set_solver].
Qed.

Lemma assign_insert (h : Heap) (l : loc) (m : gmap string string) (k v : string) :
  assign (<[l := m]> h) l k v = Return (<[l := <[k := v]> m]> h).
Proof.
  unfold assign. rewrite lookup_insert_eq, insert_insert_eq. reflexivity.
Qed.

(** One iteration of the loop over the job records, when the copy can be
    made. *)
Lemma fanOut_step (env : Env) (metric : Metric) (acc : list Metric) (h : Heap)
    (job : string) :
  copyFails env metric = false ->
  exists labels attributes,
    fanOut env metric (acc, h) job =
      Return (acc ++ (if Spec.wellFormed job then [setMaps metric labels attributes] else []),
              <[attributes := Spec.withJob (Spec.parseJob job) (mapAt h (Attributes metric))]>
                (<[labels := mapAt h (Labels metric)]> h)) /\
    (labels ∉ dom h) /\ (attributes ∉ dom h) /\ labels <> attributes.
Proof.
  intros Hf.
  destruct (DeepCopy_ok (copyFails env) h metric Hf) as (l1 & l2 & Hdc & H1 & H2 & H12).
  exists l1, l2. split; [|auto].
  unfold fanOut. rewrite Hdc. unfold Spec.wellFormed, Spec.parseJob.
  destruct (Strings.Contains job " ").
  - destruct (Strings.Split job " ") as [|a [|b [|c rest]]]; cbn [Spec.withJob];
      try (rewrite app_nil_r; reflexivity).
    cbn [Attributes setMaps]. rewrite assign_insert. cbn. rewrite assign_insert.
    reflexivity.
  - cbn [Attributes setMaps Spec.withJob]. rewrite assign_insert. reflexivity.
Qed.

Lemma mapAt_preserved (h h' : Heap) (l : loc) :
  l ∈ dom h -> (forall l', l' ∈ dom h -> h' !! l' = h !! l') -> mapAt h' l = mapAt h l.
Proof. intros Hl Hp. unfold mapAt. rewrite (Hp l Hl). reflexivity. Qed.

Lemma dom3_old (l1 l2 l : loc) (D : gset loc) : l ∈ D -> l ∈ {[l2]} ∪ ({[l1]} ∪ D).
Proof. intros H. apply elem_of_union_r, elem_of_union_r, H. Qed.

Lemma dom3_first (l1 l2 : loc) (D : gset loc) : l1 ∈ {[l2]} ∪ ({[l1]} ∪ D).
Proof. apply elem_of_union_r, elem_of_union_l, elem_of_singleton. reflexivity. Qed.

Lemma dom3_second (l1 l2 : loc) (D : gset loc) : l2 ∈ {[l2]} ∪ ({[l1]} ∪ D).
Proof. apply elem_of_union_l, elem_of_singleton. reflexivity. Qed.

(** The whole loop over the job records of a sample whose maps exist. *)
Lemma fanOut_loop (env : Env) (metric : Metric) :
  copyFails env metric = false ->
  forall (jobs : list string) (acc : list Metric) (h : Heap),
    Labels metric ∈ dom h -> Attributes metric ∈ dom h ->
    exists cs h',
      forRange (fanOut env metric) jobs (acc, h) = Return (acc ++ cs, h') /\
      Spec.FanOutPost h metric jobs cs h'.
Proof.
  intros Hf. induction jobs as [|job jobs IH]; intros acc h HL HA.
  - exists [], h. split; [simpl; rewrite app_nil_r; reflexivity|].
    split; [constructor|split; [apply NoDup_nil_2|split; [|auto]]].
    intros c Hc; inversion Hc.
  - destruct (fanOut_step env metric acc h job Hf) as (l1 & l2 & Hstep & H1 & H2 & H12).
    set (h1 := <[l2 := Spec.withJob (Spec.parseJob job) (mapAt h (Attributes metric))]>
                 (<[l1 := mapAt h (Labels metric)]> h)) in *.
    assert (Hdom : dom h1 = {[l2]} ∪ ({[l1]} ∪ dom h)).
    { unfold h1. rewrite !dom_insert_L. reflexivity. }
    assert (Hkeep : forall l, l ∈ dom h -> h1 !! l = h !! l).
    { intros l Hl. unfold h1.
      rewrite lookup_insert_ne by (intros ->; contradiction).
      rewrite lookup_insert_ne by (intros ->; contradiction). reflexivity. }
    assert (Hh1 : h1 !! l1 = Some (mapAt h (Labels metric))).
    { unfold h1. rewrite lookup_insert_ne by congruence. apply lookup_insert_eq. }
    assert (Hh2 : h1 !! l2 =
                  Some (Spec.withJob (Spec.parseJob job) (mapAt h (Attributes metric)))).
    { unfold h1. apply lookup_insert_eq. }
    clearbody h1.
    destruct (IH (acc ++ (if Spec.wellFormed job then [setMaps metric l1 l2] else [])) h1)
      as (cs & h' & Hrun & HF2 & HND & Hfresh & Hpres).
    { rewrite Hdom. apply dom3_old, HL. }
    { rewrite Hdom. apply dom3_old, HA. }
    exists ((if Spec.wellFormed job then [setMaps metric l1 l2] else []) ++ cs), h'.
    split.
    { cbn [forRange]. rewrite Hstep. cbn [mbind Outcome_bind].
      rewrite Hrun, app_assoc. reflexivity. }
    assert (Hl1 : h' !! l1 = Some (mapAt h (Labels metric))).
    { rewrite Hpres by (rewrite Hdom; apply dom3_first). exact Hh1. }
    assert (Hl2 : h' !! l2 =
                  Some (Spec.withJob (Spec.parseJob job) (mapAt h (Attributes metric)))).
    { rewrite Hpres by (rewrite Hdom; apply dom3_second). exact Hh2. }
    assert (HF2' : Forall2 (fun job c =>
               exists labels attributes,
                 c = setMaps metric labels attributes /\
                 h' !! attributes =
                   Some (Spec.withJob (Spec.parseJob job) (mapAt h (Attributes metric))) /\
                 h' !! labels = Some (mapAt h (Labels metric)))
              (filter (fun job => Spec.wellFormed job = true) jobs) cs).
    { eapply Forall2_impl; [exact HF2|].
      intros j c (la & at' & -> & Ha & Hl). exists la, at'.
      rewrite (mapAt_preserved h h1 _ HA Hkeep) in Ha.
      rewrite (mapAt_preserved h h1 _ HL Hkeep) in Hl. auto. }
    assert (Hfresh' : forall c, c ∈ cs -> (Labels c ∉ dom h) /\ (Attributes c ∉ dom h)).
    { intros c Hc. destruct (Hfresh c Hc) as [Ha Hb]. rewrite Hdom in Ha, Hb.
      split; intros X; [apply Ha|apply Hb]; apply dom3_old, X. }
    assert (Hpres' : forall l, l ∈ dom h -> h' !! l = h !! l).
    { intros l Hl. rewrite Hpres by (rewrite Hdom; apply dom3_old, Hl).
      apply Hkeep, Hl. }
    unfold Spec.FanOutPost. rewrite filter_cons.
    destruct (Spec.wellFormed job) eqn:Hwf.
    + rewrite decide_True by reflexivity.
      split; [|split; [|split]].
      * constructor; [|exact HF2']. exists l1, l2. auto.
      * simpl. apply NoDup_cons. split.
        { intros Hin. apply elem_of_cons in Hin as [Heq|Hin]; [congruence|].
          apply list_elem_of_In, in_flat_map in Hin as (c & Hc & Hin).
          apply list_elem_of_In in Hc. destruct (Hfresh c Hc) as [Ha Hb].
          rewrite Hdom in Ha, Hb. simpl in Hin.
          destruct Hin as [Hin|[Hin|[]]]; [apply Ha|apply Hb];
            rewrite Hin; apply dom3_first. }
        apply NoDup_cons. split; [|exact HND].
        intros Hin. apply list_elem_of_In, in_flat_map in Hin as (c & Hc & Hin).
        apply list_elem_of_In in Hc. destruct (Hfresh c Hc) as [Ha Hb].
        rewrite Hdom in Ha, Hb. simpl in Hin.
        destruct Hin as [Hin|[Hin|[]]]; [apply Ha|apply Hb];
          rewrite Hin; apply dom3_second.
      * intros c Hc. simpl in Hc.
        apply elem_of_cons in Hc as [->|Hc]; [split; assumption|apply Hfresh', Hc].
      * exact Hpres'.
    + rewrite decide_False by discriminate.
      split; [exact HF2'|split; [exact HND|split; [exact Hfresh'|exact Hpres']]].
Qed.




(** Writing into the map of one copy leaves every other map as it is. *)
Lemma assign_elsewhere (h : Heap) (l l' : loc) (k v : string) :
  is_Some (h !! l) -> l <> l' ->
  exists h'', assign h l k v = Return h'' /\ mapAt h'' l' = mapAt h l'.
Proof.
  intros [m Hm] Hne. unfold assign. rewrite Hm. eexists. split; [reflexivity|].
  unfold mapAt. rewrite lookup_insert_ne by exact Hne. reflexivity.
Qed.

(** The loop body, with its blocks named. *)
Lemma enrich_unfold (env : Env) (sysInfo : deviceinfo.Provider)
    (gpuToJobMap : gmap string (list string)) (gpuUUIDs : gmap string string)
    (h : Heap) (modifiedMetrics : list Metric) (metric : Metric) :
  enrich env sysInfo gpuToJobMap (gpuUUIDs, h, modifiedMetrics) metric =
    (gpuUUIDs' ← populateUUID sysInfo gpuUUIDs metric;
     let uuid := default EmptyString (gpuUUIDs' !! gpuIDOf metric) in
     match lookupJobs gpuToJobMap uuid (gpuIDOf metric) with
     | Some ((_ :: _) as jobs) =>
         '(modifiedMetrics, h) ←
           forRange (fanOut env (Spec.enriched env metric uuid)) jobs (modifiedMetrics, h);
         Return (gpuUUIDs', h, modifiedMetrics)
     | _ => Return (gpuUUIDs', h, modifiedMetrics ++ [Spec.enriched env metric uuid])
     end).
Proof. reflexivity. Qed.




(** *** Job records *)

Lemma Split_nonempty (s : string) (sep : ascii) : Strings.Split s sep <> [].
Proof.
  destruct s as [|c s]; simpl; [discriminate|].
  destruct (Ascii.eqb c sep); [discriminate|].
  destruct (Strings.Split s sep); discriminate.
Qed.

Lemma Split_no_sep (s : string) (sep : ascii) :
  Strings.HasByte sep s = false -> Strings.Split s sep = [s].
Proof.
  induction s as [|c s IH]; simpl; [reflexivity|].
  intros H. apply orb_false_iff in H as [Hc Hs].
  rewrite Hc, (IH Hs). reflexivity.
Qed.

Lemma Split_at_sep (a b : string) (sep : ascii) :
  Strings.HasByte sep a = false ->
  Strings.Split (a +:+ String sep b) sep = a :: Strings.Split b sep.
Proof.
  induction a as [|c a IH]; simpl.
  - intros _. rewrite Ascii.eqb_refl. reflexivity.
  - intros H. apply orb_false_iff in H as [Hc Ha].
    rewrite Hc, (IH Ha). reflexivity.
Qed.

Lemma parseJob_pair (job user : string) :
  Strings.HasByte " " job = false -> Strings.HasByte " " user = false ->
  Spec.parseJob (job +:+ " " +:+ user) = Spec.JobUser job user.
Proof.
  intros Hj Hu. unfold Spec.parseJob.
  change (" " +:+ user) with (String " " user).
  rewrite Contains_byte, HasByte_app. cbn [Strings.HasByte].
  rewrite Ascii.eqb_refl, orb_true_r.
  rewrite (Split_at_sep job user " " Hj), (Split_no_sep user " " Hu). reflexivity.
Qed.

Lemma parseJob_bare (line : string) :
  Strings.HasByte " " line = false -> Spec.parseJob line = Spec.JobOnly line.
Proof. intros H. unfold Spec.parseJob. rewrite Contains_byte, H. reflexivity. Qed.

Lemma parseJob_many (line : string) :
  (2 < length (Strings.Split line " "))%nat -> Spec.parseJob line = Spec.Malformed.
Proof.
  intros H. unfold Spec.parseJob. rewrite Contains_byte.
  destruct (Strings.HasByte " " line) eqn:Hs.
  - destruct (Strings.Split line " ") as [|a [|b [|c r]]]; simpl in H; try lia; reflexivity.
  - rewrite (Split_no_sep line " " Hs) in H. simpl in H. lia.
Qed.

(** The claim as stated fails: the code cuts a line at the blank (U+0020)
    only, and at every blank.  Two tokens with a tab between them are read
    as one job id, with the tab in it and without a user id; two tokens with
    two blanks between them are cut into three pieces and give no copy. *)
Lemma job_line_other_whitespace :
  (exists h',
      fanOut (Inputs.envOf (Inputs.dirWith [])) Inputs.metric139 ([], Inputs.heap0)
        ("100" +:+ String "009"%char "200")
      = Return ([setMaps Inputs.metric139 2%nat 3%nat], h') /\
      mapAt h' 3%nat = <[HpcJobAttribute := "100" +:+ String "009"%char "200"]> ∅ /\
      mapAt h' 3%nat !! HpcUserAttribute = None) /\
  (exists h',
      fanOut (Inputs.envOf (Inputs.dirWith [])) Inputs.metric139 ([], Inputs.heap0)
        "100  200"
      = Return ([], h')).
Proof.
  split.
  - eexists. split; [reflexivity|]. split; reflexivity.
  - eexists. reflexivity.
Qed.

(** C7, amended.  Reading the job records of a file, for a sample whose
    maps exist and can be copied; the tokens of a line are the pieces
    between its blanks (U+0020), the separator that the code cuts at.
    (1) A line made of two tokens with one blank
    between them gives a copy that carries the first as job id and the second
    as user id.  (2) A line without a blank gives a copy that carries the
    whole line as job id and no further attribute.  (3) A line that cuts
    into more than two tokens gives no copy: the list of output samples is
    as it was, nothing is cut down to two tokens.  (4) The loop goes on
    after such a line: over a whole file there is exactly one copy per
    well-formed line, in the order of the lines, each with the attributes
    that its own line asks for. *)
Theorem job_record_parsing (env : Env) (metric : Metric) (acc : list Metric) (h : Heap) :
  copyFails env metric = false ->
  Labels metric ∈ dom h ->
  Attributes metric ∈ dom h ->
  (forall job user,
      Strings.HasByte " " job = false -> Strings.HasByte " " user = false ->
      exists labels attributes h',
        fanOut env metric (acc, h) (job +:+ " " +:+ user)
          = Return (acc ++ [setMaps metric labels attributes], h') /\
        mapAt h' attributes =
          <[HpcUserAttribute := user]>
            (<[HpcJobAttribute := job]> (mapAt h (Attributes metric)))) /\
  (forall line,
      Strings.HasByte " " line = false ->
      exists labels attributes h',
        fanOut env metric (acc, h) line
          = Return (acc ++ [setMaps metric labels attributes], h') /\
        mapAt h' attributes = <[HpcJobAttribute := line]> (mapAt h (Attributes metric))) /\
  (forall line,
      (2 < length (Strings.Split line " "))%nat ->
      exists h', fanOut env metric (acc, h) line = Return (acc, h')) /\
  (forall lines,
      exists cs h',
        forRange (fanOut env metric) lines (acc, h) = Return (acc ++ cs, h') /\
        Forall2 (fun line c =>
                   exists labels attributes,
                     c = setMaps metric labels attributes /\
                     mapAt h' attributes =
                       Spec.withJob (Spec.parseJob line) (mapAt h (Attributes metric)))
                (filter (fun line => Spec.wellFormed line = true) lines) cs).
Proof.
  intros Hcopy HL HA.
  split; [|split; [|split]].
  - intros job user Hj Hu.
    destruct (fanOut_step env metric acc h (job +:+ " " +:+ user) Hcopy)
      as (l1 & l2 & Hstep & _).
    unfold Spec.wellFormed in Hstep. rewrite (parseJob_pair job user Hj Hu) in Hstep.
    exists l1, l2. eexists. split; [exact Hstep|].
    unfold mapAt at 1. rewrite lookup_insert_eq. reflexivity.
  - intros line Hl.
    destruct (fanOut_step env metric acc h line Hcopy) as (l1 & l2 & Hstep & _).
    unfold Spec.wellFormed in Hstep. rewrite (parseJob_bare line Hl) in Hstep.
    exists l1, l2. eexists. split; [exact Hstep|].
    unfold mapAt at 1. rewrite lookup_insert_eq. reflexivity.
  - intros line Hl.
    destruct (fanOut_step env metric acc h line Hcopy) as (l1 & l2 & Hstep & _).
    unfold Spec.wellFormed in Hstep. rewrite (parseJob_many line Hl) in Hstep.
    rewrite app_nil_r in Hstep. eexists. exact Hstep.
  - intros lines.
    destruct (fanOut_loop env metric Hcopy lines acc h HL HA)
      as (cs & h' & Hrun & HF2 & _).
    exists cs, h'. split; [exact Hrun|].
    eapply Forall2_impl; [exact HF2|].
    intros line c (la & at' & -> & Ha & _). exists la, at'. split; [reflexivity|].
    unfold mapAt at 1. rewrite Ha. reflexivity.
Qed.

Lemma job_record_parsing_witness :
  exists cs h',
    forRange (fanOut (Inputs.envOf (Inputs.dirWith [])) Inputs.metric139)
      ["100 200"; "1 2 3"; "300"]%string ([], Inputs.heap0) = Return ([] ++ cs, h') /\
    Forall2 (fun line c =>
               exists labels attributes,
                 c = setMaps Inputs.metric139 labels attributes /\
                 mapAt h' attributes =
                   Spec.withJob (Spec.parseJob line)
                     (mapAt Inputs.heap0 (Attributes Inputs.metric139)))
            ["100 200"; "300"]%string cs.
Proof.
  apply (job_record_parsing (Inputs.envOf (Inputs.dirWith [])) Inputs.metric139 []
           Inputs.heap0); reflexivity.
Defined.

(** *** Samples without a usable job record *)

(** A run on a directory that can be read is the loop over the counters. *)
Lemma Process_readable (env : Env) (metrics : MetricsByCounter)
    (sysInfo : deviceinfo.Provider) (h : Heap) (gpuFiles : list string)
    (gpuToJobMap : gmap string (list string)) :
  Stat (os env) = None ->
  getGPUFiles (os env) = inr gpuFiles ->
  loadJobs (os env) gpuFiles ∅ = inr gpuToJobMap ->
  transformation.Process env metrics sysInfo h =
    ('(_, h, metrics) ←
       forRange (enrichCounter env sysInfo gpuToJobMap) metrics (∅, h, []);
     Return (None, metrics, h)).
Proof.
  intros Hs Hg Hl. unfold transformation.Process. rewrite Hs, Hg, Hl. reflexivity.
Qed.

(** Without the directory nothing is done at all. *)
Lemma Process_absent (env : Env) (metrics : MetricsByCounter)
    (sysInfo : deviceinfo.Provider) (h : Heap) (err : error) :
  Stat (os env) = Some err ->
  transformation.Process env metrics sysInfo h = Return (None, metrics, h).
Proof. intros Hs. unfold transformation.Process. rewrite Hs. reflexivity. Qed.

(** A sample whose device key has no entry, or an entry without records,
    goes to the output once, scaled and with its identity, with the maps it
    had; the store is not touched. *)
Lemma enrich_pass_through (env : Env) (sysInfo : deviceinfo.Provider)
    (gpuToJobMap : gmap string (list string)) (gpuUUIDs gpuUUIDs' : gmap string string)
    (h : Heap) (modifiedMetrics : list Metric) (metric : Metric) :
  let uuid := default EmptyString (gpuUUIDs' !! gpuIDOf metric) in
  populateUUID sysInfo gpuUUIDs metric = Return gpuUUIDs' ->
  lookupJobs gpuToJobMap uuid (gpuIDOf metric) = None \/
  lookupJobs gpuToJobMap uuid (gpuIDOf metric) = Some [] ->
  enrich env sysInfo gpuToJobMap (gpuUUIDs, h, modifiedMetrics) metric
    = Return (gpuUUIDs', h, modifiedMetrics ++ [Spec.enriched env metric uuid]).
Proof.
  intros uuid Hpop Hjobs. rewrite enrich_unfold, Hpop. cbn [mbind Outcome_bind].
  cbv zeta. fold uuid. destruct Hjobs as [-> | ->]; reflexivity.
Qed.

(** C3, at the failing input.  The mapping file of device 0 holds the one
    line [1 2 3]; the sample of device 0 is dropped: the sequence of its
    counter is empty after the pass. *)
Theorem malformed_only_drops_sample :
  exists h',
    transformation.Process (Inputs.envOf (Inputs.dirWith [("0"%string, ["1 2 3"%string])]))
      [(Inputs.counterX "help" 1, [Inputs.metric139])] Inputs.oneGPU Inputs.heap0
    = Return (None, [(Inputs.counterX "help" 1, [])], h').
Proof. eexists. vm_compute. reflexivity. Qed.

(** C4, at the failing input.  Without the mapping directory the sample
    keeps its empty alternate value and identifier; with an empty directory
    it gets both.  The two runs differ. *)
Theorem absent_and_empty_directory_differ :
  transformation.Process (Inputs.envOf Inputs.absentDir)
    [(Inputs.counterX "help" 1, [Inputs.metric139])] Inputs.oneGPU Inputs.heap0
  = Return (None, [(Inputs.counterX "help" 1, [Inputs.metric139])], Inputs.heap0) /\
  transformation.Process (Inputs.envOf (Inputs.dirWith []))
    [(Inputs.counterX "help" 1, [Inputs.metric139])] Inputs.oneGPU Inputs.heap0
  = Return (None,
            [(Inputs.counterX "help" 1,
              [setAlterUUID (setAlterValue Inputs.metric139 "139") "GPU-abc"])],
            Inputs.heap0) /\
  AlterValue Inputs.metric139 = EmptyString /\
  AlterUUID Inputs.metric139 = EmptyString /\
  transformation.Process (Inputs.envOf Inputs.absentDir)
    [(Inputs.counterX "help" 1, [Inputs.metric139])] Inputs.oneGPU Inputs.heap0
  <> transformation.Process (Inputs.envOf (Inputs.dirWith []))
       [(Inputs.counterX "help" 1, [Inputs.metric139])] Inputs.oneGPU Inputs.heap0.
Proof.
  split; [reflexivity|]. split; [reflexivity|]. split; [reflexivity|].
  split; [reflexivity|]. vm_compute. discriminate.
Qed.

(** *** The output of a pass, sample by sample *)

Lemma fanOut_acc (env : Env) (metric : Metric) (acc : list Metric) (h : Heap)
    (job : string) :
  fanOut env metric (acc, h) job
  = (st ← fanOut env metric ([], h) job; Return (acc ++ st.1, st.2)).
Proof.
  unfold fanOut. destruct (utils.DeepCopy _ h metric) as [[mm h1]|];
    [|cbn; rewrite app_nil_r; reflexivity].
  destruct (Strings.Contains job " ").
  - destruct (Strings.Split job " ") as [|a [|b [|c rest]]];
      try (cbn; rewrite app_nil_r; reflexivity).
    destruct (assign h1 _ _ a) as [h2| |]; cbn [mbind Outcome_bind]; try reflexivity.
    destruct (assign h2 _ _ b) as [h3| |]; cbn [mbind Outcome_bind]; reflexivity.
  - destruct (assign h1 _ _ job) as [h2| |]; cbn [mbind Outcome_bind]; reflexivity.
Qed.

Lemma fanOut_loop_acc (env : Env) (metric : Metric) (jobs : list string) :
  forall (acc : list Metric) (h : Heap),
    forRange (fanOut env metric) jobs (acc, h)
    = (st ← forRange (fanOut env metric) jobs ([], h); Return (acc ++ st.1, st.2)).
Proof.
  induction jobs as [|job jobs IH]; intros acc h.
  - cbn. rewrite app_nil_r. reflexivity.
  - cbn [forRange]. rewrite fanOut_acc.
    destruct (fanOut env metric ([], h) job) as [[seg h1]| |];
      cbn [mbind Outcome_bind fst snd]; try reflexivity.
    rewrite (IH (acc ++ seg) h1), (IH seg h1).
    destruct (forRange (fanOut env metric) jobs ([], h1)) as [[seg' h2]| |];
      cbn [mbind Outcome_bind fst snd]; try reflexivity.
    rewrite app_assoc. reflexivity.
Qed.

(** What the loop body appends does not depend on what was appended
    before. *)
Lemma enrich_acc (env : Env) (sysInfo : deviceinfo.Provider)
    (gpuToJobMap : gmap string (list string)) (gpuUUIDs : gmap string string)
    (h : Heap) (acc : list Metric) (metric : Metric) :
  enrich env sysInfo gpuToJobMap (gpuUUIDs, h, acc) metric
  = (st ← enrich env sysInfo gpuToJobMap (gpuUUIDs, h, []) metric;
     Return (st.1.1, st.1.2, acc ++ st.2)).
Proof.
  rewrite !enrich_unfold.
  destruct (populateUUID sysInfo gpuUUIDs metric) as [u| |];
    cbn [mbind Outcome_bind]; try reflexivity.
  cbv zeta. destruct (lookupJobs _ _ _) as [[|j js]|]; try reflexivity.
  rewrite fanOut_loop_acc.
  destruct (forRange _ (j :: js) ([], h)) as [[seg h1]| |];
    cbn [mbind Outcome_bind fst snd]; reflexivity.
Qed.

(** The sequence of a counter after the loop over its samples is made of
    the segments that the loop body appends, one per sample, in order. *)
Lemma enrich_loop_segments (env : Env) (sysInfo : deviceinfo.Provider)
    (gpuToJobMap : gmap string (list string)) (ms : list Metric) :
  forall gpuUUIDs h acc gpuUUIDs' h' out,
    forRange (enrich env sysInfo gpuToJobMap) ms (gpuUUIDs, h, acc)
      = Return (gpuUUIDs', h', out) ->
    exists segs,
      out = acc ++ concat segs /\
      Forall2 (fun m seg =>
                 exists u0 h0 u1 h1,
                   enrich env sysInfo gpuToJobMap (u0, h0, []) m = Return (u1, h1, seg))
              ms segs.
Proof.
  induction ms as [|m ms IH]; intros u h acc u' h' out Hrun.
  - inversion Hrun; subst. exists []. split; [cbn; rewrite app_nil_r; reflexivity|].
    constructor.
  - cbn [forRange] in Hrun. rewrite enrich_acc in Hrun.
    destruct (enrich env sysInfo gpuToJobMap (u, h, []) m) as [[[u1 h1] seg]| |] eqn:He;
      cbn [mbind Outcome_bind fst snd] in Hrun; try discriminate.
    destruct (IH _ _ _ _ _ _ Hrun) as (segs & -> & HF).
    exists (seg :: segs). split; [cbn; rewrite app_assoc; reflexivity|].
    constructor; [|exact HF]. exists u, h, u1, h1. exact He.
Qed.

(** A pass over a readable directory keeps the counters in their order and
    gives each the segments of its samples. *)
Lemma Process_segments (env : Env) (metrics out : MetricsByCounter)
    (sysInfo : deviceinfo.Provider) (h h' : Heap) (gpuFiles : list string)
    (gpuToJobMap : gmap string (list string)) :
  Stat (os env) = None ->
  getGPUFiles (os env) = inr gpuFiles ->
  loadJobs (os env) gpuFiles ∅ = inr gpuToJobMap ->
  transformation.Process env metrics sysInfo h = Return (None, out, h') ->
  Forall2 (fun e e' =>
             e'.1 = e.1 /\
             exists segs,
               e'.2 = concat segs /\
               Forall2 (fun m seg =>
                          exists u0 h0 u1 h1,
                            enrich env sysInfo gpuToJobMap (u0, h0, []) m
                              = Return (u1, h1, seg))
                       e.2 segs)
          metrics out.
Proof.
  intros Hs Hg Hl Hrun.
  rewrite (Process_readable env _ sysInfo h gpuFiles gpuToJobMap Hs Hg Hl) in Hrun.
  destruct (forRange (enrichCounter env sysInfo gpuToJobMap) metrics (∅, h, []))
    as [[[u2 h2] out2]| |] eqn:Hloop;
    cbn [mbind Outcome_bind] in Hrun; try discriminate.
  inversion Hrun; subst.
  refine (forRange_invariant
            (fun visited st =>
               Forall2 (fun e e' =>
                          e'.1 = e.1 /\
                          exists segs,
                            e'.2 = concat segs /\
                            Forall2 (fun m seg =>
                                       exists u0 h0 u1 h1,
                                         enrich env sysInfo gpuToJobMap (u0, h0, []) m
                                           = Return (u1, h1, seg))
                                    e.2 segs)
                       visited st.2)
            _ _ _ _ _ _ Hloop); [constructor|].
  intros visited [c ms] [[u1 h1] d1] [[u3 h3] d3] IH Hstep. simpl in *.
  unfold enrichCounter in Hstep. cbn [fst snd] in Hstep.
  destruct (forRange _ ms (u1, h1, [])) as [[[u4 h4] mm]| |] eqn:Hin;
    cbn [mbind Outcome_bind] in Hstep; try discriminate.
  inversion Hstep; subst.
  apply Forall2_app; [exact IH|]. constructor; [|constructor].
  split; [reflexivity|]. simpl.
  destruct (enrich_loop_segments _ _ _ _ _ _ _ _ _ _ Hin) as (segs & -> & HF).
  exists segs. split; [reflexivity|exact HF].
Qed.

(** *** The topology resolver *)

Lemma find_none_Forall {A : Type} (f : A -> bool) (l : list A) :
  Forall (fun x => f x = false) l -> List.find f l = None.
Proof.
  induction 1 as [|x l Hx _ IH]; simpl; [reflexivity|]. rewrite Hx. exact IH.
Qed.

Lemma forRange_exit_first {A S : Type} (body : S -> A -> Outcome S) (a : A)
    (l : list A) (s : S) (why : Fatal) :
  body s a = Exit why -> forRange body (a :: l) s = Exit why.
Proof. intros H. simpl. rewrite H. reflexivity. Qed.

(** The claim as stated fails: device 0 is within the one known device, the
    instance id [x] matches no known partition, and the resolver exits
    instead of returning the empty string. *)
Lemma FindMIGUUID_unparsable_instance :
  Strconv.ParseUint "0" 32 = (0, None) /\
  0 < deviceinfo.GPUCount Inputs.oneGPU /\
  FindMIGUUID Inputs.oneGPU "0" "x" = Exit (InstanceIdNotInteger "0" "x") /\
  FindMIGUUID Inputs.oneGPU "0" "x" <> Return EmptyString.
Proof. repeat split; try reflexivity; try discriminate. Qed.

(** C8, amended.  For a device index that parses as an unsigned 32-bit
    number below the device count (the provider holding a record for every
    counted device): an instance id that parses as an unsigned 32-bit number
    and is the NVML id of no partition of the device gives the empty string,
    without a halt; an instance id that does not parse halts the process.
    A device index that does not parse, or is not below the device count,
    halts the process; so the loop body of the enrichment pass halts on a
    partitioned sample with such an index whose key is not yet resolved,
    and with it the pass (shown for the first sample of a pass over a
    readable directory). *)
Theorem FindMIGUUID_contract (sysInfo : deviceinfo.Provider) (gpu instanceId : string) :
  (forall gpuid g,
      Strconv.ParseUint gpu 32 = (gpuid, None) ->
      gpuid < deviceinfo.GPUCount sysInfo ->
      nth_error (deviceinfo.GPUs sysInfo) (Z.to_nat gpuid) = Some g ->
      (forall migid,
          Strconv.ParseUint instanceId 32 = (migid, None) ->
          Forall (fun i => deviceinfo.NvmlInstanceId i <> migid) (deviceinfo.GPUInstances g) ->
          FindMIGUUID sysInfo gpu instanceId = Return EmptyString) /\
      (snd (Strconv.ParseUint instanceId 32) <> None ->
       FindMIGUUID sysInfo gpu instanceId = Exit (InstanceIdNotInteger gpu instanceId))) /\
  (snd (Strconv.ParseUint gpu 32) <> None ->
   FindMIGUUID sysInfo gpu instanceId = Exit (GPUIdNotInteger gpu)) /\
  (forall gpuid,
      Strconv.ParseUint gpu 32 = (gpuid, None) ->
      deviceinfo.GPUCount sysInfo <= gpuid ->
      FindMIGUUID sysInfo gpu instanceId
        = Exit (GPUIdTooBig gpu (deviceinfo.GPUCount sysInfo))) /\
  (forall env why gpuToJobMap gpuUUIDs metric modifiedMetrics h,
      FindMIGUUID sysInfo gpu instanceId = Exit why ->
      MigProfile metric <> EmptyString ->
      GPU metric = gpu -> GPUInstanceID metric = instanceId ->
      gpuUUIDs !! gpuIDOf metric = None ->
      enrich env sysInfo gpuToJobMap (gpuUUIDs, h, modifiedMetrics) metric = Exit why) /\
  (forall env why gpuFiles gpuToJobMap metric metrics rest counter h,
      FindMIGUUID sysInfo gpu instanceId = Exit why ->
      Stat (os env) = None ->
      getGPUFiles (os env) = inr gpuFiles ->
      loadJobs (os env) gpuFiles ∅ = inr gpuToJobMap ->
      MigProfile metric <> EmptyString ->
      GPU metric = gpu -> GPUInstanceID metric = instanceId ->
      transformation.Process env ((counter, metric :: metrics) :: rest) sysInfo h
        = Exit why).
Proof.
  assert (Hbody : forall env why gpuToJobMap gpuUUIDs metric modifiedMetrics h,
             FindMIGUUID sysInfo gpu instanceId = Exit why ->
             MigProfile metric <> EmptyString ->
             GPU metric = gpu -> GPUInstanceID metric = instanceId ->
             gpuUUIDs !! gpuIDOf metric = None ->
             enrich env sysInfo gpuToJobMap (gpuUUIDs, h, modifiedMetrics) metric
               = Exit why).
  { intros env why gpuToJobMap gpuUUIDs metric modifiedMetrics h Hexit Hmig <- <- Hmiss.
    rewrite enrich_unfold. unfold populateUUID. rewrite Hmiss.
    apply String.eqb_neq in Hmig. rewrite Hmig. cbn [negb].
    rewrite Hexit. reflexivity. }
  split; [|split; [|split; [|split; [exact Hbody|]]]].
  - intros gpuid g Hgpu Hlt Hg. split.
    + intros migid Hmig Hnone. unfold FindMIGUUID. rewrite Hgpu.
      replace (gpuid >=? deviceinfo.GPUCount sysInfo) with false
        by (symmetry; rewrite Z.geb_leb; apply Z.leb_gt; lia).
      rewrite Hmig, Hg, find_none_Forall; [reflexivity|].
      eapply Forall_impl; [exact Hnone|]. intros i Hi. apply Z.eqb_neq, Hi.
    + intros Herr. unfold FindMIGUUID. rewrite Hgpu.
      replace (gpuid >=? deviceinfo.GPUCount sysInfo) with false
        by (symmetry; rewrite Z.geb_leb; apply Z.leb_gt; lia).
      destruct (Strconv.ParseUint instanceId 32) as [v [e|]]; [reflexivity|].
      simpl in Herr. congruence.
  - intros Herr. unfold FindMIGUUID.
    destruct (Strconv.ParseUint gpu 32) as [v [e|]]; [reflexivity|].
    simpl in Herr. congruence.
  - intros gpuid Hgpu Hge. unfold FindMIGUUID. rewrite Hgpu.
    replace (gpuid >=? deviceinfo.GPUCount sysInfo) with true
      by (symmetry; rewrite Z.geb_leb; apply Z.leb_le; lia).
    reflexivity.
  - intros env why gpuFiles gpuToJobMap metric metrics rest counter h
           Hexit Hs Hg Hl Hmig Hgpu Hinst.
    rewrite (Process_readable env _ sysInfo h gpuFiles gpuToJobMap Hs Hg Hl).
    assert (He : enrich env sysInfo gpuToJobMap (∅, h, []) metric = Exit why).
    { apply Hbody; [exact Hexit|exact Hmig|exact Hgpu|exact Hinst|apply lookup_empty]. }
    assert (Hc : enrichCounter env sysInfo gpuToJobMap (∅, h, [])
                   (counter, metric :: metrics) = Exit why).
    { unfold enrichCounter. cbn [snd].
      rewrite (forRange_exit_first _ _ _ _ _ He). reflexivity. }
    rewrite (forRange_exit_first _ _ _ _ _ Hc). reflexivity.
Qed.

Example FindMIGUUID_known : FindMIGUUID Inputs.oneGPU "0" "3" = Return "MIG-1"%string.
Proof. reflexivity. Qed.

Example FindMIGUUID_unknown : FindMIGUUID Inputs.oneGPU "0" "4" = Return EmptyString.
Proof. reflexivity. Qed.

Example FindMIGUUID_bad_index :
  FindMIGUUID Inputs.oneGPU "1" "3" = Exit (GPUIdTooBig "1" 1) /\
  FindMIGUUID Inputs.oneGPU "-1" "3" = Exit (GPUIdNotInteger "-1").
Proof. split; reflexivity. Qed.

Example Process_halts_on_bad_index :
  transformation.Process (Inputs.envOf (Inputs.dirWith []))
    [(Inputs.counterX "help" 1, [Inputs.migSample (Inputs.counterX "help" 1) "139" "7" "3"])]
    Inputs.oneGPU Inputs.heap0
  = Exit (GPUIdTooBig "7" 1).
Proof. reflexivity. Qed.

(** *** Where the output samples come from *)


Lemma fanOut_origin (env : Env) (metric : Metric) (acc acc' : list Metric)
    (h h' : Heap) (job : string) :
  fanOut env metric (acc, h) job = Return (acc', h') ->
  forall m', m' ∈ acc' -> m' ∈ acc \/ exists l a, m' = setMaps metric l a.
Proof.
  unfold fanOut, utils.DeepCopy. intros Hrun m' Hin.
  destruct (copyFails env metric).
  { inversion Hrun; subst. auto. }
  set (mm := setMaps metric _ _) in Hrun.
  assert (Hadd : forall hx, Return (acc ++ [mm], hx) = Return (acc', h') ->
                 m' ∈ acc \/ exists l a, m' = setMaps metric l a).
  { intros hx Hx. inversion Hx; subst.
    apply elem_of_app in Hin as [Hin|Hin]; [auto|].
    apply list_elem_of_singleton in Hin as ->. right. unfold mm. eauto. }
  destruct (Strings.Contains job " ").
  - destruct (Strings.Split job " ") as [|a [|b [|c rest]]];
      try (inversion Hrun; subst; auto; fail).
    destruct (assign _ _ _ a) as [h1| |]; cbn [mbind Outcome_bind] in Hrun;
      try discriminate.
    destruct (assign h1 _ _ b) as [h2| |]; cbn [mbind Outcome_bind] in Hrun;
      try discriminate.
    eapply Hadd, Hrun.
  - destruct (assign _ _ _ job) as [h1| |]; cbn [mbind Outcome_bind] in Hrun;
      try discriminate.
    eapply Hadd, Hrun.
Qed.

Lemma fanOut_loop_origin (env : Env) (metric : Metric) (jobs : list string)
    (acc acc' : list Metric) (h h' : Heap) :
  forRange (fanOut env metric) jobs (acc, h) = Return (acc', h') ->
  forall m', m' ∈ acc' -> m' ∈ acc \/ exists l a, m' = setMaps metric l a.
Proof.
  intros Hrun.
  refine (forRange_invariant
            (fun _ st => forall m', m' ∈ st.1 ->
                                    m' ∈ acc \/ exists l a, m' = setMaps metric l a)
            _ _ _ _ _ _ Hrun); [simpl; auto|].
  intros visited job [a1 h1] [a2 h2] IH Hstep m' Hin. simpl in *.
  destruct (fanOut_origin env metric a1 a2 h1 h2 job Hstep m' Hin) as [H1|H2]; auto.
Qed.

Lemma enrich_origin (env : Env) (sysInfo : deviceinfo.Provider)
    (gpuToJobMap : gmap string (list string)) (gpuUUIDs gpuUUIDs' : gmap string string)
    (h h' : Heap) (acc acc' : list Metric) (metric : Metric) :
  enrich env sysInfo gpuToJobMap (gpuUUIDs, h, acc) metric = Return (gpuUUIDs', h', acc') ->
  forall m', m' ∈ acc' -> m' ∈ acc \/ Spec.derived env metric m'.
Proof.
  rewrite enrich_unfold. intros Hrun m' Hin.
  destruct (populateUUID sysInfo gpuUUIDs metric) as [u| |];
    cbn [mbind Outcome_bind] in Hrun; try discriminate.
  cbv zeta in Hrun.
  set (uuid := default EmptyString (u !! gpuIDOf metric)) in *.
  assert (Hpass : Return (u, h, acc ++ [Spec.enriched env metric uuid])
                  = Return (gpuUUIDs', h', acc') ->
                  m' ∈ acc \/ Spec.derived env metric m').
  { intros Hx. inversion Hx; subst.
    apply elem_of_app in Hin as [Hin|Hin]; [auto|].
    apply list_elem_of_singleton in Hin as ->. right.
    exists uuid, (Labels metric), (Attributes metric). reflexivity. }
  destruct (lookupJobs gpuToJobMap uuid (gpuIDOf metric)) as [[|j js]|]; auto.
  destruct (forRange _ (j :: js) (acc, h)) as [[a2 h2]| |] eqn:Hloop;
    cbn [mbind Outcome_bind] in Hrun; try discriminate.
  inversion Hrun; subst.
  destruct (fanOut_loop_origin _ _ _ _ _ _ _ Hloop m' Hin) as [H1|(l & a & ->)]; auto.
  right. exists uuid, l, a. reflexivity.
Qed.

Lemma enrichCounter_origin (env : Env) (sysInfo : deviceinfo.Provider)
    (gpuToJobMap : gmap string (list string)) (ms : list Metric)
    (gpuUUIDs gpuUUIDs' : gmap string string) (h h' : Heap) (out : list Metric) :
  forRange (enrich env sysInfo gpuToJobMap) ms (gpuUUIDs, h, []) = Return (gpuUUIDs', h', out) ->
  forall m', m' ∈ out -> exists m, m ∈ ms /\ Spec.derived env m m'.
Proof.
  intros Hrun.
  refine (forRange_invariant
            (fun visited st => forall m', m' ∈ st.2 ->
                                          exists m, m ∈ visited /\ Spec.derived env m m')
            _ _ _ _ _ _ Hrun).
  - simpl. intros m' Hin. inversion Hin.
  - intros visited m [[u1 h1] a1] [[u2 h2] a2] IH Hstep m' Hin. simpl in *.
    destruct (enrich_origin _ _ _ _ _ _ _ _ _ _ Hstep m' Hin) as [H1|H2].
    + destruct (IH m' H1) as (m0 & Hm0 & Hd). exists m0. split; [|exact Hd].
      apply elem_of_app. auto.
    + exists m. split; [|exact H2]. apply elem_of_app. right. left.
Qed.

(** After a pass that ran the loop, the map has the same counters in the
    same order, and every sample of a counter comes from a sample that the
    counter had before. *)
Lemma Process_origin (env : Env) (metrics out : MetricsByCounter)
    (sysInfo : deviceinfo.Provider) (h h' : Heap) :
  Stat (os env) = None ->
  transformation.Process env metrics sysInfo h = Return (None, out, h') ->
  Forall2 (fun e e' => e'.1 = e.1 /\
                       forall m', m' ∈ e'.2 -> exists m, m ∈ e.2 /\ Spec.derived env m m')
          metrics out.
Proof.
  intros Hs Hrun. unfold transformation.Process in Hrun. rewrite Hs in Hrun.
  destruct (getGPUFiles (os env)) as [e|gpuFiles]; [discriminate|].
  destruct (loadJobs (os env) gpuFiles ∅) as [e|jm]; [discriminate|].
  destruct (forRange (enrichCounter env sysInfo jm) metrics (∅, h, []))
    as [[[u2 h2] out2]| |] eqn:Hloop;
    cbn [mbind Outcome_bind] in Hrun; try discriminate.
  inversion Hrun; subst.
  refine (forRange_invariant
            (fun visited st =>
               Forall2 (fun e e' => e'.1 = e.1 /\
                          forall m', m' ∈ e'.2 -> exists m, m ∈ e.2 /\ Spec.derived env m m')
                       visited st.2)
            _ _ _ _ _ _ Hloop); [constructor|].
  intros visited [c ms] [[u1 h1] d1] [[u3 h3] d3] IH Hstep. simpl in *.
  unfold enrichCounter in Hstep. cbn [fst snd] in Hstep.
  destruct (forRange _ ms (u1, h1, [])) as [[[u4 h4] mm]| |] eqn:Hin;
    cbn [mbind Outcome_bind] in Hstep; try discriminate.
  inversion Hstep; subst.
  apply Forall2_app; [exact IH|]. constructor; [|constructor].
  split; [reflexivity|]. simpl. eapply enrichCounter_origin, Hin.
Qed.




Example scaled_integer :
  scaled (Inputs.envOf Inputs.absentDir)
    (Inputs.sample (Inputs.counterX "help" 1048576) "8543" "0" "GPU-abc")
  = "8957984768"%string.
Proof. reflexivity. Qed.

Example scaled_negative :
  scaled (Inputs.envOf Inputs.absentDir)
    (Inputs.sample (Inputs.counterX "help" 1000) "-12" "0" "GPU-abc")
  = "-12000"%string.
Proof. reflexivity. Qed.

(** *** Values that are not integers *)

Lemma Atoi_short_syntax (s : string) :
  (String.length s < 19)%nat -> snd (Strconv.Atoi s) <> None ->
  snd (Strconv.Atoi s) = Some Strconv.ErrSyntax.
Proof.
  intros Hlen. unfold Strconv.Atoi.
  destruct (0 <? Z.of_nat (String.length s)) eqn:Hpos.
  - replace (Z.of_nat (String.length s) <? 19) with true
      by (symmetry; apply Z.ltb_lt; lia).
    cbn [andb]. destruct s as [|c s]; [reflexivity|].
    match goal with
    | |- context [if ?b then (0, Some Strconv.ErrSyntax) else _] => destruct b
    end; [reflexivity|].
    destruct (Strconv.atoiDigits _ 0); simpl; congruence.
  - cbn [andb]. apply Z.ltb_ge in Hpos.
    destruct s as [|c s]; [reflexivity|]. simpl String.length in Hpos. lia.
Qed.

(** The claim as stated fails: the two values have no decimal point and are
    rejected by [Atoi], one of them is not even a number, and the alternate
    value is [-2], not [0].  [Atoi] gives the largest [int] with its range
    error, and the product with 2 wraps around. *)
Lemma unparsable_value_not_zero :
  Multiplier (Counter Inputs.tooBig) <> 1 /\
  Strings.Contains (Value Inputs.tooBig) "." = false /\
  Strconv.Atoi (Value Inputs.tooBig) = (2 ^ 63 - 1, Some Strconv.ErrRange) /\
  scaled (Inputs.envOf (Inputs.dirWith [])) Inputs.tooBig = "-2"%string /\
  transformation.Process (Inputs.envOf (Inputs.dirWith []))
    [(Inputs.counterX "help" 2, [Inputs.tooBig])] Inputs.oneGPU Inputs.heap0
  = Return (None,
            [(Inputs.counterX "help" 2,
              [setAlterUUID (setAlterValue Inputs.tooBig "-2") "GPU-abc"])],
            Inputs.heap0) /\
  Strings.Contains (Value Inputs.digitsThenLetter) "." = false /\
  Strconv.Atoi (Value Inputs.digitsThenLetter) = (2 ^ 63 - 1, Some Strconv.ErrRange) /\
  scaled (Inputs.envOf (Inputs.dirWith [])) Inputs.digitsThenLetter = "-2"%string.
Proof. repeat split; try reflexivity. discriminate. Qed.

(** C10, amended.  For a counter with a multiplier other than 1 and a value
    without a decimal point: when [Atoi] rejects the value with a syntax
    error, as it does for every rejected value of fewer than 19 bytes (the
    empty text, a word), the error is dropped and the alternate value is the
    text [0]; when [Atoi] rejects it with a range error, the error is dropped
    as well and the alternate value is the product of the multiplier with the
    largest or the smallest [int]. *)
Theorem unparsable_value_scaling (env : Env) (metric : Metric) :
  Multiplier (Counter metric) <> 1 ->
  Strings.Contains (Value metric) "." = false ->
  (snd (Strconv.Atoi (Value metric)) = Some Strconv.ErrSyntax ->
   scaled env metric = "0"%string) /\
  ((String.length (Value metric) < 19)%nat ->
   snd (Strconv.Atoi (Value metric)) <> None ->
   scaled env metric = "0"%string) /\
  (snd (Strconv.Atoi (Value metric)) = Some Strconv.ErrRange ->
   scaled env metric =
     Strconv.FormatInt (Strconv.wrapInt ((2 ^ 63 - 1) * Multiplier (Counter metric))) \/
   scaled env metric =
     Strconv.FormatInt (Strconv.wrapInt (- 2 ^ 63 * Multiplier (Counter metric)))).
Proof.
  intros Hm Hv. rewrite (scaled_int env metric Hm Hv).
  assert (Hsyn : snd (Strconv.Atoi (Value metric)) = Some Strconv.ErrSyntax ->
                 Strconv.FormatInt
                   (Strconv.wrapInt (fst (Strconv.Atoi (Value metric))
                                     * Multiplier (Counter metric))) = "0"%string).
  { intros He. rewrite (Atoi_syntax_zero _ He). reflexivity. }
  split; [exact Hsyn|split].
  - intros Hlen Herr. apply Hsyn, Atoi_short_syntax; assumption.
  - intros He. destruct (Atoi_range_clamped _ He) as [-> | ->]; auto.
Qed.

Lemma unparsable_value_scaling_witness :
  scaled (Inputs.envOf (Inputs.dirWith [])) Inputs.word = "0"%string.
Proof.
  refine (proj1 (unparsable_value_scaling (Inputs.envOf (Inputs.dirWith []))
                   Inputs.word _ _) _).
  - discriminate.
  - reflexivity.
  - reflexivity.
Defined.

(** *** Text *)

Lemma append_assoc (a b c : string) : (a +:+ b) +:+ c = a +:+ (b +:+ c).
Proof. induction a as [|x a IH]; [reflexivity|]. exact (f_equal (String x) IH). Qed.

Lemma append_nil_r (a : string) : a +:+ EmptyString = a.
Proof. induction a as [|x a IH]; [reflexivity|]. exact (f_equal (String x) IH). Qed.

Lemma concatMap_app {A : Type} (f : A -> string) (l k : list A) :
  rendermetrics.concatMap f (l ++ k)
  = rendermetrics.concatMap f l +:+ rendermetrics.concatMap f k.
Proof.
  induction l as [|a l IH]; [reflexivity|].
  cbn [app rendermetrics.concatMap fold_right].
  fold (rendermetrics.concatMap f (l ++ k)). fold (rendermetrics.concatMap f l).
  rewrite IH, append_assoc. reflexivity.
Qed.

Lemma renderMap_empty : rendermetrics.renderMap ∅ = EmptyString.
Proof. reflexivity. Qed.

(** *** The round trip of the renderer *)

(** The claim as stated fails.  The enriched sample is rendered as the text
    of the claim followed by a line feed and the headers of the two
    compatibility gauges, so the output is not that text; and on the sample
    as collected, whose alternate identifier is still empty, the UUID label
    is empty although the UUID of the sample is [GPU-abc]. *)
Lemma round_trip_is_not_exact :
  GPUUUID Inputs.metric139 = "GPU-abc"%string /\
  fst (rendermetrics.RenderGroup Inputs.heap0 rendermetrics.FE_GPU
         [(Inputs.counterX "help" 1, [Inputs.metric139Enriched])])
  = Spec.roundTripText "help" +:+ rendermetrics.nl +:+
    rendermetrics.strJobId0 +:+ rendermetrics.strUserId0 /\
  fst (rendermetrics.RenderGroup Inputs.heap0 rendermetrics.FE_GPU
         [(Inputs.counterX "help" 1, [Inputs.metric139Enriched])])
  <> Spec.roundTripText "help" /\
  fst (rendermetrics.RenderGroup Inputs.heap0 rendermetrics.FE_GPU
         [(Inputs.counterX "help" 1, [Inputs.metric139])])
  <> Spec.roundTripText "help" /\
  Strings.Contains
    (fst (rendermetrics.RenderGroup Inputs.heap0 rendermetrics.FE_GPU
            [(Inputs.counterX "help" 1, [Inputs.metric139])]))
    (",UUID=" +:+ rendermetrics.dq +:+ rendermetrics.dq +:+ ",pci_bus_id=") = true.
Proof.
  split; [reflexivity|]. split; [vm_compute; reflexivity|].
  split; [vm_compute; discriminate|]. split; [vm_compute; discriminate|].
  vm_compute. reflexivity.
Qed.

(** C6, amended.  A sample of a standalone device with device key [0],
    label name [UUID], alternate identifier [GPU-abc] (which the enrichment
    stage sets from the device UUID), value [139], no partition, no host
    name, no labels and no attributes, for a gauge named [X] without
    alternate name, is rendered in the device group as the text of the
    claim followed by a line feed and by the four header lines of the two
    compatibility gauges.  The UUID label carries the alternate identifier
    of the sample. *)
Theorem round_trip_rendering (h : Heap) (counter : counters.Counter) (metric : Metric) :
  FieldName counter = "X"%string ->
  PromType counter = "gauge"%string ->
  AlterFieldName counter = EmptyString ->
  GPU metric = "0"%string ->
  UUID metric = "UUID"%string ->
  AlterUUID metric = "GPU-abc"%string ->
  Value metric = "139"%string ->
  GPUPCIBusID metric = EmptyString ->
  GPUDevice metric = EmptyString ->
  GPUModelName metric = EmptyString ->
  MigProfile metric = EmptyString ->
  Hostname metric = EmptyString ->
  mapAt h (Labels metric) = ∅ ->
  mapAt h (Attributes metric) = ∅ ->
  rendermetrics.RenderGroup h rendermetrics.FE_GPU [(counter, [metric])]
  = (Spec.roundTripText (Help counter) +:+ rendermetrics.nl +:+
     rendermetrics.strJobId0 +:+ rendermetrics.strUserId0, None).
Proof.
  intros Hname Htype Halt Hgpu Hlabel Huuid Hvalue Hpci Hdev Hmodel Hmig Hhost Hl Ha.
  assert (Hslurm : rendermetrics.RenderSlurm h [(counter, [metric])]
                   = rendermetrics.strJobId0 +:+ rendermetrics.strUserId0).
  { unfold rendermetrics.RenderSlurm, rendermetrics.slurmLoop.
    cbn [foldl snd]. unfold rendermetrics.slurmStep, rendermetrics.deviceProps, index.
    rewrite Hgpu, Huuid, Hdev, Hmodel, Hmig, Ha, lookup_empty.
    match goal with
    | |- context [Strings.Contains ?a ?b] =>
        replace (Strings.Contains a b) with false by (vm_compute; reflexivity)
    end.
    reflexivity. }
  unfold rendermetrics.RenderGroup. rewrite Hslurm. f_equal.
  unfold rendermetrics.gpuMetricsFormat, rendermetrics.gpuBlock,
    rendermetrics.concatMap, rendermetrics.gpuLine, rendermetrics.header,
    rendermetrics.renderMig, rendermetrics.renderHostname, Spec.roundTripText.
  cbn [fold_right].
  rewrite Hname, Htype, Halt, Hgpu, Hlabel, Huuid, Hvalue, Hpci, Hdev, Hmodel, Hmig,
    Hhost, Hl, Ha, renderMap_empty.
  cbn [String.eqb negb]. unfold rendermetrics.label.
  rewrite !append_assoc. reflexivity.
Qed.

Lemma round_trip_rendering_witness :
  rendermetrics.RenderGroup Inputs.heap0 rendermetrics.FE_GPU
    [(Inputs.counterX "help" 1, [Inputs.metric139Enriched])]
  = (Spec.roundTripText "help" +:+ rendermetrics.nl +:+
     rendermetrics.strJobId0 +:+ rendermetrics.strUserId0, None).
Proof.
  apply (round_trip_rendering Inputs.heap0 (Inputs.counterX "help" 1)
           Inputs.metric139Enriched); reflexivity.
Defined.

(** A pass over an empty mapping directory gives the sample of the round
    trip its alternate identifier. *)
Example round_trip_after_enrichment :
  transformation.Process (Inputs.envOf (Inputs.dirWith []))
    [(Inputs.counterX "help" 1, [Inputs.metric139])] Inputs.oneGPU Inputs.heap0
  = Return (None, [(Inputs.counterX "help" 1, [Inputs.metric139Enriched])], Inputs.heap0).
Proof. reflexivity. Qed.

(** *** Occurrences of a device identity in the job gauge *)

Lemma prefix_app (s z : string) : String.prefix s (s +:+ z) = true.
Proof.
  induction s as [|c s IH]; [apply prefix_nil|].
  change (String.prefix (String c s) (String c (s +:+ z)) = true).
  rewrite prefix_cons, Ascii.eqb_refl. exact IH.
Qed.

Lemma prefix_same (l p z : string) :
  String.prefix (l +:+ p) (l +:+ z) = String.prefix p z.
Proof.
  induction l as [|c l IH]; [reflexivity|].
  change (String.prefix (String c (l +:+ p)) (String c (l +:+ z)) = String.prefix p z).
  rewrite prefix_cons, Ascii.eqb_refl. exact IH.
Qed.

Lemma Contains_prefix (s t : string) :
  String.prefix s t = true -> Strings.Contains t s = true.
Proof. intros H. destruct t; cbn [Strings.Contains]; rewrite H; reflexivity. Qed.

Lemma Contains_app_r (x y s : string) :
  Strings.Contains y s = true -> Strings.Contains (x +:+ y) s = true.
Proof.
  intros H. induction x as [|c x IH]; [exact H|].
  change (Strings.Contains (String c (x +:+ y)) s = true).
  cbn [Strings.Contains]. rewrite IH. apply orb_true_r.
Qed.

(** A text without opening brace cannot hold the start of an occurrence of
    a text that begins with one. *)
Lemma Contains_skip (x y p : string) :
  Strings.HasByte "{" x = false ->
  Strings.Contains (x +:+ y) (String "{" p) = Strings.Contains y (String "{" p).
Proof.
  induction x as [|c x IH]; [reflexivity|]. intros H.
  cbn [Strings.HasByte] in H. apply orb_false_iff in H as [Hc Hx].
  change (Strings.Contains (String c (x +:+ y)) (String "{" p)
          = Strings.Contains y (String "{" p)).
  cbn [Strings.Contains]. rewrite prefix_cons, (Ascii.eqb_sym "{" c), Hc.
  cbn [andb orb]. exact (IH Hx).
Qed.

Lemma Contains_at_brace (z p : string) :
  Strings.Contains (String "{" z) (String "{" p)
  = String.prefix p z || Strings.Contains z (String "{" p).
Proof. cbn [Strings.Contains]. rewrite prefix_cons, Ascii.eqb_refl. reflexivity. Qed.

(** Two fields without double quote, each closed by a double quote: when
    one text is a prefix of the other, the fields are equal. *)
Lemma prefix_field (a b p z : string) :
  Strings.HasByte "034" a = false ->
  Strings.HasByte "034" b = false ->
  String.prefix (b +:+ rendermetrics.dq +:+ p) (a +:+ rendermetrics.dq +:+ z) = true ->
  a = b /\ String.prefix p z = true.
Proof.
  revert a. induction b as [|c b IH]; intros [|d a] Ha Hb H.
  - split; [reflexivity|]. exact H.
  - change (String.prefix (String "034" p) (String d (a +:+ rendermetrics.dq +:+ z)) = true)
      in H.
    rewrite prefix_cons in H. apply andb_true_iff in H as [Hd _].
    cbn [Strings.HasByte] in Ha. apply orb_false_iff in Ha as [Hd' _].
    rewrite Ascii.eqb_sym in Hd. congruence.
  - change (String.prefix (String c (b +:+ rendermetrics.dq +:+ p)) (String "034" z) = true)
      in H.
    rewrite prefix_cons in H. apply andb_true_iff in H as [Hc _].
    cbn [Strings.HasByte] in Hb. apply orb_false_iff in Hb as [Hc' _]. congruence.
  - change (String.prefix (String c (b +:+ rendermetrics.dq +:+ p))
                          (String d (a +:+ rendermetrics.dq +:+ z)) = true) in H.
    rewrite prefix_cons in H. apply andb_true_iff in H as [Hcd H].
    apply Ascii.eqb_eq in Hcd as ->.
    cbn [Strings.HasByte] in Ha, Hb.
    apply orb_false_iff in Ha as [_ Ha]. apply orb_false_iff in Hb as [_ Hb].
    destruct (IH a Ha Hb H) as [-> Hp]. auto.
Qed.

Lemma prefix_field_end (a b z : string) :
  Strings.HasByte "034" a = false ->
  Strings.HasByte "034" b = false ->
  String.prefix (b +:+ rendermetrics.dq) (a +:+ rendermetrics.dq +:+ z) = true ->
  a = b.
Proof.
  intros Ha Hb H.
  change (b +:+ rendermetrics.dq) with (b +:+ rendermetrics.dq +:+ EmptyString) in H.
  apply (prefix_field a b EmptyString z Ha Hb H).
Qed.

Lemma deviceProps_body (m : Metric) :
  rendermetrics.deviceProps m = String "{" (Spec.deviceBody m).
Proof. reflexivity. Qed.

Lemma DeviceId_props (a b : Metric) :
  Spec.DeviceId a = Spec.DeviceId b ->
  rendermetrics.deviceProps a = rendermetrics.deviceProps b.
Proof.
  unfold Spec.DeviceId, rendermetrics.deviceProps. intros H.
  inversion H. congruence.
Qed.

(** The device body of [b] at the start of a text that starts with the
    device body of [a]: the two samples are of one device. *)
Lemma deviceBody_prefix (h : Heap) (a b : Metric) (rest : string) :
  Spec.plainSample h a -> Spec.plainSample h b ->
  String.prefix (Spec.deviceBody b) (Spec.deviceBody a +:+ rest) = true ->
  Spec.DeviceId a = Spec.DeviceId b.
Proof.
  intros ([_ A1] & [_ A2] & [_ A3] & [_ A4] & [_ A5] & [_ A6] & _)
         ([_ B1] & [_ B2] & [_ B3] & [_ B4] & [_ B5] & [_ B6] & _) H.
  unfold Spec.deviceBody, rendermetrics.label in H. rewrite !append_assoc in H.
  rewrite !prefix_same in H. apply prefix_field in H as [E1 H]; [|assumption..].
  rewrite !prefix_same in H. apply prefix_field in H as [E2 H]; [|assumption..].
  rewrite !prefix_same in H. apply prefix_field in H as [E3 H]; [|assumption..].
  rewrite !prefix_same in H. apply prefix_field in H as [E4 H]; [|assumption..].
  rewrite !prefix_same in H. apply prefix_field in H as [E5 H]; [|assumption..].
  rewrite !prefix_same in H. apply prefix_field_end in H as E6; [|assumption..].
  unfold Spec.DeviceId. congruence.
Qed.

Lemma deviceBody_no_brace (h : Heap) (m : Metric) :
  Spec.plainSample h m -> Strings.HasByte "{" (Spec.deviceBody m) = false.
Proof.
  intros ([A1 _] & [A2 _] & [A3 _] & [A4 _] & [A5 _] & [A6 _] & _).
  unfold Spec.deviceBody, rendermetrics.label.
  rewrite !HasByte_app, A1, A2, A3, A4, A5, A6. reflexivity.
Qed.

Lemma lineTail_no_brace (h : Heap) (m : Metric) :
  Spec.plainSample h m -> Strings.HasByte "{" (Spec.lineTail h m) = false.
Proof.
  intros (_ & _ & _ & _ & _ & _ & [J _] & [U _]).
  unfold Spec.lineTail, rendermetrics.label.
  destruct (String.eqb (Spec.userOf h m) EmptyString);
    rewrite !HasByte_app, ?J, ?U; reflexivity.
Qed.

Lemma jobLine_shape (h : Heap) (m : Metric) (rest : string) :
  Spec.jobLine h m +:+ rest
  = "nvidia_gpu_jobId" +:+ String "{" (Spec.deviceBody m +:+ Spec.lineTail h m +:+ rest).
Proof.
  unfold Spec.jobLine. rewrite deviceProps_body, !append_assoc.
  change (String "{" (Spec.deviceBody m) +:+ Spec.lineTail h m +:+ rest)
    with (String "{" (Spec.deviceBody m +:+ Spec.lineTail h m +:+ rest)).
  reflexivity.
Qed.

(** An occurrence of a text that begins with an opening brace in the lines
    of the job gauge starts at the device identity of one of the lines. *)
Lemma gauge_occurrence (h : Heap) (taken : list Metric) (p : string) :
  (forall e, e ∈ taken -> Spec.plainSample h e) ->
  Strings.Contains (rendermetrics.concatMap (Spec.jobLine h) taken) (String "{" p) = true ->
  exists e rest, e ∈ taken /\ String.prefix p (Spec.deviceBody e +:+ rest) = true.
Proof.
  induction taken as [|e taken IH]; intros Hplain H.
  - discriminate.
  - cbn [rendermetrics.concatMap fold_right] in H.
    fold (rendermetrics.concatMap (Spec.jobLine h) taken) in H.
    rewrite jobLine_shape, Contains_skip, Contains_at_brace in H by reflexivity.
    apply orb_true_iff in H as [H|H].
    + exists e. eexists. split; [left|exact H].
    + assert (He : Spec.plainSample h e) by (apply Hplain; left).
      rewrite Contains_skip in H by (apply (deviceBody_no_brace h), He).
      rewrite Contains_skip in H by (apply lineTail_no_brace, He).
      destruct (IH (fun x Hx => Hplain x (list_elem_of_further _ _ _ Hx)) H)
        as (e' & rest & He' & Hp).
      exists e', rest. split; [right; exact He'|exact Hp].
Qed.

Lemma gauge_holds_props (h : Heap) (taken : list Metric) (e : Metric) :
  e ∈ taken ->
  Strings.Contains (rendermetrics.concatMap (Spec.jobLine h) taken)
                   (rendermetrics.deviceProps e) = true.
Proof.
  induction taken as [|x taken IH]; intros Hin; [inversion Hin|].
  cbn [rendermetrics.concatMap fold_right].
  fold (rendermetrics.concatMap (Spec.jobLine h) taken).
  apply elem_of_cons in Hin as [->|Hin].
  - unfold Spec.jobLine. rewrite !append_assoc.
    apply Contains_app_r, Contains_prefix, prefix_app.
  - apply Contains_app_r, IH, Hin.
Qed.

(** On plain samples the substring test of [RenderSlurm] is the membership
    test on device identities. *)
Lemma Contains_gauge (h : Heap) (taken : list Metric) (m : Metric) :
  (forall e, e ∈ taken -> Spec.plainSample h e) ->
  Spec.plainSample h m ->
  Strings.Contains (rendermetrics.strJobId0 +:+ rendermetrics.concatMap (Spec.jobLine h) taken)
                   (rendermetrics.deviceProps m)
  = bool_decide (Spec.DeviceId m ∈ map Spec.DeviceId taken).
Proof.
  intros Hplain Hm. rewrite deviceProps_body, Contains_skip by reflexivity.
  destruct (bool_decide_reflect (Spec.DeviceId m ∈ map Spec.DeviceId taken)) as [Hin|Hout].
  - apply list_elem_of_fmap in Hin as (e & Heq & He).
    rewrite <- deviceProps_body, (DeviceId_props m e Heq).
    apply gauge_holds_props, He.
  - apply not_true_is_false. intros H.
    destruct (gauge_occurrence h taken _ Hplain H) as (e & rest & He & Hp).
    apply Hout. apply list_elem_of_fmap. exists e. split; [|exact He].
    symmetry. eapply deviceBody_prefix; [apply Hplain, He|exact Hm|exact Hp].
Qed.

(** *** The compatibility gauges *)

Lemma bool_decide_elem (taken : list Metric) (m : Metric) :
  bool_decide (Spec.DeviceId m ∈ map Spec.DeviceId taken)
  = if decide (Spec.DeviceId m ∈ map Spec.DeviceId taken) then true else false.
Proof. destruct (decide _); [apply bool_decide_eq_true_2|apply bool_decide_eq_false_2]; auto. Qed.

(** One step of [RenderSlurm] on plain samples is one step of the
    de-duplication by device identity. *)
Lemma slurmStep_gauges (h : Heap) (taken : list Metric) (m : Metric) :
  (forall e, e ∈ taken -> Spec.plainSample h e) ->
  Spec.plainSample h m ->
  rendermetrics.slurmStep h (Spec.gauges h taken) m
  = Spec.gauges h (Spec.emitStep h taken m).
Proof.
  intros Hplain Hm. unfold rendermetrics.slurmStep, Spec.gauges.
  rewrite (Contains_gauge h taken m Hplain Hm), bool_decide_elem.
  unfold Spec.emitStep.
  change (index h (Attributes m) HpcJobAttribute) with (Spec.jobOf h m).
  change (index h (Attributes m) HpcUserAttribute) with (Spec.userOf h m).
  destruct (decide (Spec.DeviceId m ∈ map Spec.DeviceId taken)); [reflexivity|].
  cbn [negb]. destruct (String.eqb (Spec.jobOf h m) EmptyString) eqn:Hj; [reflexivity|].
  cbn [negb]. rewrite concatMap_app, filter_app, concatMap_app.
  cbn [rendermetrics.concatMap fold_right]. rewrite filter_cons, filter_nil.
  unfold Spec.jobLine, Spec.lineTail, Spec.userLine.
  destruct (String.eqb (Spec.userOf h m) EmptyString) eqn:Hu; cbn [negb].
  - rewrite decide_False
      by (unfold Spec.hasUser; apply String.eqb_eq in Hu; rewrite Hu; auto).
    cbn [rendermetrics.concatMap fold_right].
    f_equal; rewrite ?append_assoc, ?append_nil_r; reflexivity.
  - rewrite decide_True by (unfold Spec.hasUser; apply String.eqb_neq, Hu).
    cbn [rendermetrics.concatMap fold_right].
    unfold Spec.userLine.
    f_equal; rewrite ?append_assoc, ?append_nil_r; reflexivity.
Qed.

Lemma emitStep_elem (h : Heap) (taken : list Metric) (m e : Metric) :
  e ∈ Spec.emitStep h taken m ->
  e ∈ taken \/ (e = m /\ Spec.jobOf h m <> EmptyString).
Proof.
  unfold Spec.emitStep. destruct (decide _); [auto|].
  destruct (String.eqb (Spec.jobOf h m) EmptyString) eqn:Hj; [auto|].
  intros Hin. apply elem_of_app in Hin as [Hin|Hin]; [auto|].
  apply list_elem_of_singleton in Hin as ->. right.
  split; [reflexivity|apply String.eqb_neq, Hj].
Qed.

Lemma slurm_fold_gauges (h : Heap) (ms : list Metric) :
  forall taken,
    (forall e, e ∈ taken -> Spec.plainSample h e) ->
    (forall m, m ∈ ms -> Spec.plainSample h m) ->
    foldl (rendermetrics.slurmStep h) (Spec.gauges h taken) ms
    = Spec.gauges h (foldl (Spec.emitStep h) taken ms).
Proof.
  induction ms as [|m ms IH]; intros taken Ht Hms; [reflexivity|].
  cbn [foldl]. rewrite slurmStep_gauges; [|exact Ht|apply Hms; left].
  apply IH.
  - intros e He. apply emitStep_elem in He as [He|[-> _]]; [apply Ht, He|apply Hms; left].
  - intros x Hx. apply Hms. right. exact Hx.
Qed.

Lemma foldl_flat {A B S : Type} (f : S -> B -> S) (l : list (A * list B)) (s : S) :
  foldl (fun acc entry => foldl f acc entry.2) s l = foldl f s (flat_map snd l).
Proof.
  revert s. induction l as [|[a bs] l IH]; intros s; [reflexivity|].
  cbn [foldl flat_map snd]. rewrite foldl_app. apply IH.
Qed.

Lemma elem_of_flat (metrics : MetricsByCounter) (m : Metric) :
  m ∈ flat_map snd metrics <-> exists c ms, (c, ms) ∈ metrics /\ m ∈ ms.
Proof.
  rewrite list_elem_of_In, in_flat_map. split.
  - intros ([c ms] & He & Hm). exists c, ms.
    split; apply list_elem_of_In; assumption.
  - intros (c & ms & He & Hm). exists (c, ms).
    split; apply list_elem_of_In; assumption.
Qed.

(** Properties of the de-duplication by device identity. *)
Lemma emit_fold_spec (h : Heap) (ms : list Metric) :
  forall taken,
    NoDup (map Spec.DeviceId taken) ->
    let taken' := foldl (Spec.emitStep h) taken ms in
    NoDup (map Spec.DeviceId taken') /\
    (forall e, e ∈ taken -> e ∈ taken') /\
    (forall m, m ∈ ms -> Spec.jobOf h m <> EmptyString ->
               Spec.DeviceId m ∈ map Spec.DeviceId taken') /\
    (forall e, e ∈ taken' -> e ∈ taken \/ (e ∈ ms /\ Spec.jobOf h e <> EmptyString)).
Proof.
  induction ms as [|m ms IH]; intros taken Hnd; cbn [foldl].
  - split; [exact Hnd|]. split; [auto|]. split; [|auto].
    intros m Hm. inversion Hm.
  - assert (Hnd1 : NoDup (map Spec.DeviceId (Spec.emitStep h taken m))).
    { unfold Spec.emitStep. destruct (decide _) as [Hin|Hout]; [exact Hnd|].
      destruct (String.eqb (Spec.jobOf h m) EmptyString); [exact Hnd|].
      rewrite map_app. apply NoDup_app. split; [exact Hnd|].
      split; [|apply NoDup_singleton].
      intros x Hx Hx'. apply list_elem_of_singleton in Hx'. subst x. contradiction. }
    assert (Hkeep : forall e, e ∈ taken -> e ∈ Spec.emitStep h taken m).
    { intros e He. unfold Spec.emitStep. destruct (decide _); [exact He|].
      destruct (String.eqb _ _); [exact He|]. apply elem_of_app. auto. }
    assert (Hcover : Spec.jobOf h m <> EmptyString ->
                     Spec.DeviceId m ∈ map Spec.DeviceId (Spec.emitStep h taken m)).
    { intros Hj. unfold Spec.emitStep. destruct (decide _) as [Hin|Hout]; [exact Hin|].
      apply String.eqb_neq in Hj. rewrite Hj, map_app.
      apply elem_of_app. right. left. }
    destruct (IH (Spec.emitStep h taken m) Hnd1) as (H1 & H2 & H3 & H4).
    split; [exact H1|]. split; [auto|]. split.
    + intros x Hx Hj. apply elem_of_cons in Hx as [->|Hx]; [|apply H3; assumption].
      specialize (Hcover Hj). apply list_elem_of_fmap in Hcover as (e & Heq & He).
      apply list_elem_of_fmap. exists e. split; [exact Heq|apply H2, He].
    + intros e He. destruct (H4 e He) as [Ht|[Hm Hj]].
      * apply emitStep_elem in Ht as [Ht|[-> Hj]]; [auto|].
        right. split; [left|exact Hj].
      * right. split; [right; exact Hm|exact Hj].
Qed.

(** The claim as stated fails, in two ways.  Two samples of one device with
    different jobs are two distinct triples, and only the first gets a line:
    the device identity is looked for before the job id is added to it.
    And two samples of different devices, where the identity text of the
    second is a part of the identity text of the first: the second gets no
    line although its device has none yet. *)
Lemma RenderSlurm_suppresses_triples :
  (Spec.DeviceId (Inputs.jobSample "0" EmptyString 1)
     = Spec.DeviceId (Inputs.jobSample "0" EmptyString 2) /\
   Spec.jobOf Inputs.heapJobs (Inputs.jobSample "0" EmptyString 1) = "100"%string /\
   Spec.jobOf Inputs.heapJobs (Inputs.jobSample "0" EmptyString 2) = "300"%string /\
   rendermetrics.RenderSlurm Inputs.heapJobs Inputs.sameDevice
     = (rendermetrics.strJobId0 +:+
        Spec.jobLine Inputs.heapJobs (Inputs.jobSample "0" EmptyString 1)) +:+
       (rendermetrics.strUserId0 +:+
        Spec.userLine Inputs.heapJobs (Inputs.jobSample "0" EmptyString 1)) /\
   Strings.Contains (rendermetrics.RenderSlurm Inputs.heapJobs Inputs.sameDevice)
                    (rendermetrics.label "jobid" "300") = false) /\
  (Spec.DeviceId (Inputs.jobSample "0" Inputs.quoted 2)
     <> Spec.DeviceId (Inputs.jobSample "0" "1" 3) /\
   Spec.jobOf Inputs.heapJobs (Inputs.jobSample "0" Inputs.quoted 2) = "300"%string /\
   Spec.jobOf Inputs.heapJobs (Inputs.jobSample "0" "1" 3) = "7"%string /\
   Strings.Contains (rendermetrics.deviceProps (Inputs.jobSample "0" Inputs.quoted 2))
                    (rendermetrics.deviceProps (Inputs.jobSample "0" "1" 3)) = true /\
   rendermetrics.RenderSlurm Inputs.heapJobs Inputs.nestedDevices
     = (rendermetrics.strJobId0 +:+
        Spec.jobLine Inputs.heapJobs (Inputs.jobSample "0" Inputs.quoted 2)) +:+
       rendermetrics.strUserId0 /\
   Strings.Contains (rendermetrics.RenderSlurm Inputs.heapJobs Inputs.nestedDevices)
                    (rendermetrics.label "jobid" "7") = false).
Proof.
  split.
  - repeat split; vm_compute; reflexivity.
  - split; [vm_compute; discriminate|]. repeat split; vm_compute; reflexivity.
Qed.

(** C1, amended.  [RenderSlurm] de-duplicates by device identity, not by
    (device, job, user) triple.  On samples whose device identity, job id
    and user id hold neither an opening brace nor a double quote, what it
    writes is the header of the job gauge and one line per taken sample,
    then the header of the user gauge and one line per taken sample that has
    a user id, where the taken samples are chosen with a set of device
    identities, in the order of the iteration: no two taken samples are of
    one device, every device that carries a job id in some sample has its
    line, and every line is that of a sample that carries a job id.  A
    later triple of a device that has its line already is not written. *)
Theorem RenderSlurm_by_device (h : Heap) (metrics : MetricsByCounter) :
  (forall c ms m, (c, ms) ∈ metrics -> m ∈ ms -> Spec.plainSample h m) ->
  rendermetrics.RenderSlurm h metrics
    = (rendermetrics.strJobId0 +:+
       rendermetrics.concatMap (Spec.jobLine h) (Spec.emitted h metrics)) +:+
      (rendermetrics.strUserId0 +:+
       rendermetrics.concatMap (Spec.userLine h)
         (filter (Spec.hasUser h) (Spec.emitted h metrics))) /\
  NoDup (map Spec.DeviceId (Spec.emitted h metrics)) /\
  (forall c ms m,
      (c, ms) ∈ metrics -> m ∈ ms -> Spec.jobOf h m <> EmptyString ->
      Spec.DeviceId m ∈ map Spec.DeviceId (Spec.emitted h metrics)) /\
  (forall e,
      e ∈ Spec.emitted h metrics ->
      Spec.jobOf h e <> EmptyString /\ exists c ms, (c, ms) ∈ metrics /\ e ∈ ms).
Proof.
  intros Hplain.
  assert (Hflat : forall m, m ∈ flat_map snd metrics -> Spec.plainSample h m).
  { intros m Hm. apply elem_of_flat in Hm as (c & ms & Hc & Hm). eauto. }
  destruct (emit_fold_spec h (flat_map snd metrics) [] (NoDup_nil_2))
    as (Hnd & _ & Hcover & Hsound).
  unfold Spec.emitted. rewrite foldl_flat.
  split; [|split; [exact Hnd|split]].
  - unfold rendermetrics.RenderSlurm, rendermetrics.slurmLoop.
    rewrite (foldl_flat (rendermetrics.slurmStep h)).
    change (rendermetrics.strJobId0, rendermetrics.strUserId0)
      with (rendermetrics.strJobId0 +:+ EmptyString, rendermetrics.strUserId0 +:+ EmptyString).
    change (rendermetrics.strJobId0 +:+ EmptyString, rendermetrics.strUserId0 +:+ EmptyString)
      with (Spec.gauges h []).
    rewrite slurm_fold_gauges; [reflexivity| |exact Hflat].
    intros e He. inversion He.
  - intros c ms m Hc Hm Hj. apply Hcover; [|exact Hj].
    apply elem_of_flat. eauto.
  - intros e He. destruct (Hsound e He) as [Hin|[Hin Hj]]; [inversion Hin|].
    split; [exact Hj|]. apply elem_of_flat, Hin.
Qed.

Lemma RenderSlurm_by_device_witness :
  rendermetrics.RenderSlurm Inputs.heapJobs Inputs.sameDevice
    = (rendermetrics.strJobId0 +:+
       rendermetrics.concatMap (Spec.jobLine Inputs.heapJobs)
         (Spec.emitted Inputs.heapJobs Inputs.sameDevice)) +:+
      (rendermetrics.strUserId0 +:+
       rendermetrics.concatMap (Spec.userLine Inputs.heapJobs)
         (filter (Spec.hasUser Inputs.heapJobs)
            (Spec.emitted Inputs.heapJobs Inputs.sameDevice))) /\
  Spec.emitted Inputs.heapJobs Inputs.sameDevice = [Inputs.jobSample "0" EmptyString 1].
Proof.
  split; [|reflexivity].
  apply (RenderSlurm_by_device Inputs.heapJobs Inputs.sameDevice).
  intros c ms m Hc Hm.
  apply list_elem_of_singleton in Hc. inversion Hc; subst.
  apply elem_of_cons in Hm as [->|Hm];
    [|apply list_elem_of_singleton in Hm as ->];
    repeat split; reflexivity.
Defined.
(* ===================================================================== *)
(** ** Further properties of the enrichment stage                         *)
(* ===================================================================== *)

(** *** The mapping directory *)

Lemma mappingFiles_filter (files : list (string * FileInfo)) :
  mappingFiles files = map fst (List.filter Notions.regular files).
Proof.
  induction files as [|[name info] files IH]; [reflexivity|].
  destruct info; cbn; rewrite IH; reflexivity.
Qed.

Lemma mappingFiles_elem (files : list (string * FileInfo)) (name : string) :
  name ∈ mappingFiles files <-> (name, NotDir) ∈ files.
Proof.
  induction files as [|[n info] files IH].
  - split; intros H; inversion H.
  - destruct info; cbn [mappingFiles]; rewrite ?elem_of_cons, IH.
    + split; [auto|]. intros [H|H]; [discriminate|exact H].
    + split; [auto|]. intros [H|H]; [discriminate|exact H].
    + split; intros [H|H]; auto; left; congruence.
Qed.

(** X1.  [getGPUFiles] passes on the error of [os.ReadDir]; otherwise it
    gives the names of exactly those entries whose file info can be had and
    that are no directories, in the order of the listing. *)
Theorem getGPUFiles_keeps_regular_entries (o : OS) :
  match ReadDir o with
  | inl err => getGPUFiles o = inl err
  | inr files =>
      getGPUFiles o = inr (map fst (List.filter Notions.regular files)) /\
      (forall name, name ∈ map fst (List.filter Notions.regular files)
                    <-> (name, NotDir) ∈ files)
  end.
Proof.
  unfold getGPUFiles. destruct (ReadDir o) as [err|files]; [reflexivity|].
  rewrite mappingFiles_filter. split; [reflexivity|].
  intros name. rewrite <- mappingFiles_filter. apply mappingFiles_elem.
Qed.

Lemma loadJobs_ext (o o' : OS) (gpuFiles : list string) :
  (forall name, name ∈ gpuFiles -> Open o' name = Open o name) ->
  forall m, loadJobs o' gpuFiles m = loadJobs o gpuFiles m.
Proof.
  induction gpuFiles as [|f fs IH]; intros Hsame m; [reflexivity|].
  cbn [loadJobs]. unfold readFile.
  rewrite (Hsame f) by (apply elem_of_cons; auto).
  destruct (Open o f) as [e|lines [e|]]; try reflexivity.
  apply IH. intros name Hin. apply Hsame, elem_of_cons. auto.
Qed.

(** X2.  A pass opens only the files that [getGPUFiles] lists: what opening
    any other name of the directory (a sub-directory, an entry without file
    info, a name that is not listed) would give has no influence on the
    result. *)
Theorem Process_opens_only_listed_files (env : Env) (open : string -> FileRead)
    (files : list (string * FileInfo)) (metrics : MetricsByCounter)
    (sysInfo : deviceinfo.Provider) (h : Heap) :
  ReadDir (os env) = inr files ->
  (forall name, (name, NotDir) ∈ files -> open name = Open (os env) name) ->
  transformation.Process (Notions.withOpen env open) metrics sysInfo h
  = transformation.Process env metrics sysInfo h.
Proof.
  intros Hdir Hsame. unfold transformation.Process, getGPUFiles.
  change (Stat (os (Notions.withOpen env open))) with (Stat (os env)).
  change (ReadDir (os (Notions.withOpen env open))) with (ReadDir (os env)).
  destruct (Stat (os env)); [reflexivity|]. rewrite Hdir.
  rewrite (loadJobs_ext (os env) (os (Notions.withOpen env open))).
  - destruct (loadJobs (os env) (mappingFiles files) ∅); reflexivity.
  - intros name Hin. apply Hsame, mappingFiles_elem, Hin.
Qed.

Lemma Process_opens_only_listed_files_witness :
  transformation.Process
    (Notions.withOpen
       {| os := {| Stat := None;
                   ReadDir := inr [("0"%string, NotDir); ("lost+found"%string, IsDir)];
                   Open := fun _ => Scanned ["100 200"%string] None |};
          ParseFloat := fun _ => (PrimFloat.zero, None);
          Sprintf_f := fun _ => "0.000000"%string;
          copyFails := fun _ => false |}
       (fun name => if String.eqb name "0" then Scanned ["100 200"%string] None
                    else OpenError "is a directory"))
    [(Inputs.counterX "help" 1, [Inputs.metric139])] Inputs.oneGPU Inputs.heap0
  = transformation.Process
      {| os := {| Stat := None;
                  ReadDir := inr [("0"%string, NotDir); ("lost+found"%string, IsDir)];
                  Open := fun _ => Scanned ["100 200"%string] None |};
         ParseFloat := fun _ => (PrimFloat.zero, None);
         Sprintf_f := fun _ => "0.000000"%string;
         copyFails := fun _ => false |}
      [(Inputs.counterX "help" 1, [Inputs.metric139])] Inputs.oneGPU Inputs.heap0.
Proof.
  apply (Process_opens_only_listed_files _ _
           [("0"%string, NotDir); ("lost+found"%string, IsDir)]); [reflexivity|].
  intros name Hin. cbn.
  apply elem_of_cons in Hin as [Hin|Hin].
  - inversion Hin. reflexivity.
  - apply elem_of_cons in Hin as [Hin|Hin]; [discriminate|inversion Hin].
Defined.

(** *** Loading the job records *)

Lemma loadJobs_lookup (o : OS) (gpuFiles : list string) :
  forall (m m' : gmap string (list string)),
    loadJobs o gpuFiles m = inr m' ->
    (forall name, name ∉ gpuFiles -> m' !! name = m !! name) /\
    (forall name, name ∈ gpuFiles -> is_Some (m' !! name)) /\
    (NoDup gpuFiles ->
     forall name, name ∈ gpuFiles ->
       exists jobs, readFile o name = inr jobs /\
                    m' !! name = Some (default [] (m !! name) ++ jobs)).
Proof.
  induction gpuFiles as [|f fs IH]; intros m m' Hload.
  - injection Hload as <-. split; [reflexivity|].
    split; [intros name H; inversion H|intros _ name H; inversion H].
  - cbn [loadJobs] in Hload.
    destruct (readFile o f) as [err|jobs] eqn:Hread; [discriminate|].
    destruct (IH _ _ Hload) as (Hout & Hin & Hval).
    assert (Hf : f ∉ fs -> m' !! f = Some (default [] (m !! f) ++ jobs)).
    { intros Hnot. rewrite (Hout f Hnot). apply lookup_insert_eq. }
    split; [|split].
    + intros name Hnot. apply not_elem_of_cons in Hnot as [Hne Hnot].
      rewrite (Hout name Hnot). apply lookup_insert_ne. congruence.
    + intros name Hname. apply elem_of_cons in Hname as [->|Hname]; [|auto].
      destruct (decide (f ∈ fs)) as [Hfs|Hfs]; [auto|].
      rewrite (Hf Hfs). eexists. reflexivity.
    + intros Hnd name Hname. apply NoDup_cons in Hnd as [Hfs Hnd].
      apply elem_of_cons in Hname as [->|Hname].
      * exists jobs. split; [exact Hread|exact (Hf Hfs)].
      * destruct (Hval Hnd name Hname) as (jobs' & Hread' & Hlook).
        exists jobs'. split; [exact Hread'|].
        rewrite Hlook, lookup_insert_ne; [reflexivity|].
        intros ->. contradiction.
Qed.

(** X3.  When every mapping file can be read, the job map has exactly one
    key per mapping file, also for an empty file (its key holds the empty
    list); with distinct file names, as a directory has them, the key of a
    file holds the lines of that file, in order. *)
Theorem loadJobs_one_key_per_file (o : OS) (gpuFiles : list string)
    (gpuToJobMap : gmap string (list string)) :
  loadJobs o gpuFiles ∅ = inr gpuToJobMap ->
  (forall name, is_Some (gpuToJobMap !! name) <-> name ∈ gpuFiles) /\
  (NoDup gpuFiles ->
   forall name, name ∈ gpuFiles ->
     exists jobs, readFile o name = inr jobs /\ gpuToJobMap !! name = Some jobs).
Proof.
  intros Hload. destruct (loadJobs_lookup o gpuFiles _ _ Hload) as (Hout & Hin & Hval).
  split.
  - intros name. split; [|apply Hin].
    intros [jobs Hjobs]. destruct (decide (name ∈ gpuFiles)) as [|Hnot]; [assumption|].
    rewrite (Hout name Hnot), lookup_empty in Hjobs. discriminate.
  - intros Hnd name Hname. destruct (Hval Hnd name Hname) as (jobs & Hread & Hlook).
    exists jobs. split; [exact Hread|]. rewrite Hlook, lookup_empty. reflexivity.
Qed.

Lemma loadJobs_one_key_per_file_witness :
  (forall name,
      is_Some ((<["1"%string := []]> (<["0"%string := Inputs.twoJobs]> ∅)
                : gmap string (list string)) !! name)
      <-> name ∈ ["0"; "1"]%string) /\
  (NoDup ["0"; "1"]%string ->
   forall name, name ∈ ["0"; "1"]%string ->
     exists jobs,
       readFile (Inputs.dirWith [("0"%string, Inputs.twoJobs); ("1"%string, [])]) name
         = inr jobs /\
       (<["1"%string := []]> (<["0"%string := Inputs.twoJobs]> ∅)
        : gmap string (list string)) !! name = Some jobs).
Proof.
  apply (loadJobs_one_key_per_file
           (Inputs.dirWith [("0"%string, Inputs.twoJobs); ("1"%string, [])])).
  reflexivity.
Defined.

Lemma loadJobs_failure (o : OS) (gpuFiles : list string) :
  forall (m : gmap string (list string)) err,
    loadJobs o gpuFiles m = inl err ->
    exists name, name ∈ gpuFiles /\ readFile o name = inl err.
Proof.
  induction gpuFiles as [|f fs IH]; intros m err Hload; [discriminate|].
  cbn [loadJobs] in Hload. destruct (readFile o f) as [e|jobs] eqn:Hread.
  - injection Hload as ->. exists f. split; [apply elem_of_cons; auto|exact Hread].
  - destruct (IH _ _ Hload) as (name & Hin & Hname).
    exists name. split; [apply elem_of_cons; auto|exact Hname].
Qed.

Lemma Process_error_unchanged (env : Env) (metrics out : MetricsByCounter)
    (sysInfo : deviceinfo.Provider) (h h' : Heap) (err : error) :
  transformation.Process env metrics sysInfo h = Return (Some err, out, h') ->
  out = metrics /\ h' = h.
Proof.
  unfold transformation.Process. intros Hrun.
  destruct (Stat (os env)); [discriminate|].
  destruct (getGPUFiles (os env)) as [e|gpuFiles].
  - injection Hrun as _ -> ->. auto.
  - destruct (loadJobs (os env) gpuFiles ∅) as [e|gpuToJobMap].
    + injection Hrun as _ -> ->. auto.
    + destruct (forRange (enrichCounter env sysInfo gpuToJobMap) metrics (∅, h, []))
        as [[[u h1] ms]| |]; discriminate.
Qed.

(** X4.  A pass returns an error only for a failure of the file system:
    [os.ReadDir] failed, or a listed file could not be opened or scanned;
    the error is that failure, and metrics and maps are as they were.  A
    malformed job line, a failed copy or an unknown partition never makes
    the pass return an error. *)
Theorem Process_error_is_io_error (env : Env) (metrics out : MetricsByCounter)
    (sysInfo : deviceinfo.Provider) (h h' : Heap) (err : error) :
  transformation.Process env metrics sysInfo h = Return (Some err, out, h') ->
  Stat (os env) = None /\ out = metrics /\ h' = h /\
  (ReadDir (os env) = inl err \/
   exists files name,
     ReadDir (os env) = inr files /\ (name, NotDir) ∈ files /\
     readFile (os env) name = inl err).
Proof.
  unfold transformation.Process, getGPUFiles. intros Hrun.
  destruct (Stat (os env)); [discriminate|].
  destruct (ReadDir (os env)) as [e|files] eqn:Hdir.
  - injection Hrun as -> -> ->. auto.
  - destruct (loadJobs (os env) (mappingFiles files) ∅) as [e|gpuToJobMap] eqn:Hload.
    + injection Hrun as -> -> ->.
      destruct (loadJobs_failure _ _ _ _ Hload) as (name & Hin & Hread).
      split; [reflexivity|]. split; [reflexivity|]. split; [reflexivity|].
      right. exists files, name. split; [reflexivity|].
      split; [apply mappingFiles_elem, Hin|exact Hread].
    + destruct (forRange (enrichCounter env sysInfo gpuToJobMap) metrics (∅, h, []))
        as [[[u h1] ms]| |]; discriminate.
Qed.

Lemma Process_error_is_io_error_witness :
  Stat (os (Inputs.envOf Inputs.unreadableDir)) = None /\
  [(Inputs.counterX "help" 2, [Inputs.tooBig])] = [(Inputs.counterX "help" 2, [Inputs.tooBig])] /\
  Inputs.heap0 = Inputs.heap0 /\
  (ReadDir (os (Inputs.envOf Inputs.unreadableDir)) = inl "permission denied"%string \/
   exists files name,
     ReadDir (os (Inputs.envOf Inputs.unreadableDir)) = inr files /\
     (name, NotDir) ∈ files /\
     readFile (os (Inputs.envOf Inputs.unreadableDir)) name = inl "permission denied"%string).
Proof.
  apply (Process_error_is_io_error (Inputs.envOf Inputs.unreadableDir)
           [(Inputs.counterX "help" 2, [Inputs.tooBig])] _ Inputs.oneGPU).
  reflexivity.
Defined.

(** *** The keys of the job lookup *)

Lemma gpuIDOf_standalone (metric : Metric) :
  MigProfile metric = EmptyString -> gpuIDOf metric = GPU metric.
Proof. intros H. unfold gpuIDOf. rewrite H. reflexivity. Qed.

Lemma gpuIDOf_partition (metric : Metric) :
  MigProfile metric <> EmptyString ->
  gpuIDOf metric = GPU metric +:+ "." +:+ GPUInstanceID metric.
Proof.
  intros H. unfold gpuIDOf.
  destruct (String.eqb_spec (MigProfile metric) EmptyString); [contradiction|reflexivity].
Qed.

Lemma populateUUID_standalone (sysInfo : deviceinfo.Provider)
    (gpuUUIDs : gmap string string) (metric : Metric) :
  MigProfile metric = EmptyString ->
  gpuUUIDs !! GPU metric = None ->
  populateUUID sysInfo gpuUUIDs metric
  = Return (<[GPU metric := GPUUUID metric]> gpuUUIDs).
Proof.
  intros Hmig Hmiss. unfold populateUUID.
  rewrite (gpuIDOf_standalone metric Hmig), Hmiss, Hmig. reflexivity.
Qed.

Lemma populateUUID_partition (sysInfo : deviceinfo.Provider)
    (gpuUUIDs : gmap string string) (metric : Metric) (uuid : string) :
  MigProfile metric <> EmptyString ->
  gpuUUIDs !! (GPU metric +:+ "." +:+ GPUInstanceID metric) = None ->
  FindMIGUUID sysInfo (GPU metric) (GPUInstanceID metric) = Return uuid ->
  populateUUID sysInfo gpuUUIDs metric
  = Return (<[GPU metric +:+ "." +:+ GPUInstanceID metric := uuid]> gpuUUIDs).
Proof.
  intros Hmig Hmiss Hfind. unfold populateUUID.
  rewrite (gpuIDOf_partition metric Hmig), Hmiss, Hfind.
  destruct (String.eqb_spec (MigProfile metric) EmptyString); [contradiction|reflexivity].
Qed.

(** X5.  The job records of a device are looked up under its UUID first: a
    mapping file named after the UUID of a standalone device that holds no
    line hides the file named after the index of the device, and the sample
    passes through without job attributes, whatever records the file of the
    index holds. *)
Theorem uuid_file_hides_index_file (env : Env) (sysInfo : deviceinfo.Provider)
    (gpuToJobMap : gmap string (list string)) (gpuUUIDs : gmap string string)
    (h : Heap) (modifiedMetrics : list Metric) (metric : Metric) (jobs : list string) :
  MigProfile metric = EmptyString ->
  gpuUUIDs !! GPU metric = None ->
  gpuToJobMap !! GPUUUID metric = Some [] ->
  gpuToJobMap !! GPU metric = Some jobs ->
  enrich env sysInfo gpuToJobMap (gpuUUIDs, h, modifiedMetrics) metric
  = Return (<[GPU metric := GPUUUID metric]> gpuUUIDs, h,
            modifiedMetrics ++ [Spec.enriched env metric (GPUUUID metric)]).
Proof.
  intros Hmig Hmiss Huuid _.
  pose proof (populateUUID_standalone sysInfo gpuUUIDs metric Hmig Hmiss) as Hpop.
  rewrite (enrich_pass_through env sysInfo gpuToJobMap gpuUUIDs _ h modifiedMetrics
             metric Hpop);
    rewrite (gpuIDOf_standalone metric Hmig), lookup_insert_eq; cbn [default from_option id].
  - reflexivity.
  - right. unfold lookupJobs. rewrite Huuid. reflexivity.
Qed.

Lemma uuid_file_hides_index_file_witness :
  enrich (Inputs.envOf (Inputs.dirWith [("GPU-abc"%string, []); ("0"%string, Inputs.twoJobs)]))
    Inputs.oneGPU
    (<["0"%string := Inputs.twoJobs]> (<["GPU-abc"%string := []]> ∅))
    (∅, Inputs.heap0, []) Inputs.metric139
  = Return (<["0"%string := "GPU-abc"%string]> ∅, Inputs.heap0,
            [] ++ [Spec.enriched
                     (Inputs.envOf
                        (Inputs.dirWith [("GPU-abc"%string, []); ("0"%string, Inputs.twoJobs)]))
                     Inputs.metric139 "GPU-abc"]).
Proof.
  apply (uuid_file_hides_index_file _ _ _ _ _ _ Inputs.metric139 Inputs.twoJobs);
    reflexivity.
Defined.

(** X6.  The job records of a partition (MIG instance) are looked up under
    the UUID that the topology gives for the partition and then under
    [gpu.instance]; the UUID and the index of the device that holds the
    partition are no keys for it.  Without a file under either key, the
    sample passes through with the UUID of the partition as its alternate
    identifier, whatever records the files of the device itself hold. *)
Theorem partition_lookup_keys (env : Env) (sysInfo : deviceinfo.Provider)
    (gpuToJobMap : gmap string (list string)) (gpuUUIDs : gmap string string)
    (h : Heap) (modifiedMetrics : list Metric) (metric : Metric) (uuid : string) :
  MigProfile metric <> EmptyString ->
  gpuUUIDs !! (GPU metric +:+ "." +:+ GPUInstanceID metric) = None ->
  FindMIGUUID sysInfo (GPU metric) (GPUInstanceID metric) = Return uuid ->
  gpuToJobMap !! uuid = None ->
  gpuToJobMap !! (GPU metric +:+ "." +:+ GPUInstanceID metric) = None ->
  enrich env sysInfo gpuToJobMap (gpuUUIDs, h, modifiedMetrics) metric
  = Return (<[GPU metric +:+ "." +:+ GPUInstanceID metric := uuid]> gpuUUIDs, h,
            modifiedMetrics ++ [Spec.enriched env metric uuid]).
Proof.
  intros Hmig Hmiss Hfind Huuid Hkey.
  pose proof (populateUUID_partition sysInfo gpuUUIDs metric uuid Hmig Hmiss Hfind) as Hpop.
  rewrite (enrich_pass_through env sysInfo gpuToJobMap gpuUUIDs _ h modifiedMetrics
             metric Hpop);
    rewrite (gpuIDOf_partition metric Hmig), lookup_insert_eq; cbn [default from_option id].
  - reflexivity.
  - left. unfold lookupJobs. rewrite Huuid. exact Hkey.
Qed.

Lemma partition_lookup_keys_witness :
  enrich (Inputs.envOf (Inputs.dirWith [("0"%string, Inputs.twoJobs); ("GPU-abc"%string, Inputs.twoJobs)]))
    Inputs.oneGPU
    (<["GPU-abc"%string := Inputs.twoJobs]> (<["0"%string := Inputs.twoJobs]> ∅))
    (∅, Inputs.heap0, [])
    (Inputs.migSample (Inputs.counterX "help" 1) "139" "0" "3")
  = Return (<["0.3"%string := "MIG-1"%string]> ∅, Inputs.heap0,
            [] ++ [Spec.enriched
                     (Inputs.envOf
                        (Inputs.dirWith [("0"%string, Inputs.twoJobs);
                                         ("GPU-abc"%string, Inputs.twoJobs)]))
                     (Inputs.migSample (Inputs.counterX "help" 1) "139" "0" "3") "MIG-1"]).
Proof.
  apply (partition_lookup_keys _ _ _ _ _ _
           (Inputs.migSample (Inputs.counterX "help" 1) "139" "0" "3") "MIG-1");
    try reflexivity.
  discriminate.
Defined.

(** *** The topology resolver *)

Lemma find_first {A : Type} (f : A -> bool) (l : list A) (x : A) :
  List.find f l = Some x <->
  exists before after,
    l = before ++ x :: after /\ Forall (fun y => f y = false) before /\ f x = true.
Proof.
  induction l as [|a l IH]; cbn [List.find].
  - split; [discriminate|]. intros (before & after & Hl & _). destruct before; discriminate.
  - destruct (f a) eqn:Hfa.
    + split.
      * intros [= <-]. exists [], l. auto.
      * intros (before & after & Hl & Hbefore & Hx).
        destruct before as [|b before]; cbn in Hl; injection Hl as -> Hl; [reflexivity|].
        apply Forall_cons in Hbefore as [Hb _]. congruence.
    + rewrite IH. split.
      * intros (before & after & -> & Hbefore & Hx).
        exists (a :: before), after. split; [reflexivity|]. split; [|exact Hx].
        apply Forall_cons. auto.
      * intros (before & after & Hl & Hbefore & Hx).
        destruct before as [|b before]; cbn in Hl; injection Hl as -> Hl; [congruence|].
        apply Forall_cons in Hbefore as [_ Hbefore]. exists before, after. auto.
Qed.

Lemma find_none {A : Type} (f : A -> bool) (l : list A) :
  List.find f l = None <-> Forall (fun y => f y = false) l.
Proof.
  induction l as [|a l IH]; cbn [List.find].
  - split; auto.
  - destruct (f a) eqn:Hfa.
    + split; [discriminate|]. intros H. apply Forall_cons in H as [H _]. congruence.
    + rewrite IH. split; [intros H; apply Forall_cons; auto|].
      intros H. apply Forall_cons in H as [_ H]. exact H.
Qed.

Lemma parseUintLoop_nonneg (maxVal : Z) (s : string) :
  0 <= maxVal ->
  forall n v e, 0 <= n -> Strconv.parseUintLoop maxVal s n = (v, e) -> 0 <= v.
Proof.
  intros Hmax. induction s as [|c s IH]; intros n v e Hn Hrun; cbn [Strconv.parseUintLoop] in Hrun.
  - injection Hrun as <- _. exact Hn.
  - destruct (Strconv.isDigit c); [|injection Hrun as <- _; lia].
    destruct (n >=? Strconv.maxUint64 / 10 + 1); [injection Hrun as <- _; exact Hmax|].
    cbv zeta in Hrun.
    destruct ((n * 10 + (Strconv.byteVal c - 48)) mod 2 ^ 64 <? n * 10)
      ; [injection Hrun as <- _; exact Hmax|].
    destruct ((n * 10 + (Strconv.byteVal c - 48)) mod 2 ^ 64 >? maxVal)
      ; [injection Hrun as <- _; exact Hmax|].
    cbn [orb] in Hrun. refine (IH _ _ _ _ Hrun). apply Z.mod_pos_bound. reflexivity.
Qed.

Lemma ParseUint_nonneg (s : string) (v : Z) (e : option Strconv.NumError) :
  Strconv.ParseUint s 32 = (v, e) -> 0 <= v.
Proof.
  unfold Strconv.ParseUint. destruct s as [|c s]; [intros [= <- _]; lia|].
  apply parseUintLoop_nonneg; [cbn; lia|lia].
Qed.

(** X7.  [FindMIGUUID] returns exactly in these cases: the device index and
    the instance id are decimal numbers of 32 bits, the index is below the
    device count, and the result is the UUID of the first partition of that
    device whose NVML instance id is the given one, or the empty string when
    the device has no such partition.  A partition of another device is
    never taken. *)
Theorem FindMIGUUID_returns (sysInfo : deviceinfo.Provider) (gpu instanceId uuid : string) :
  FindMIGUUID sysInfo gpu instanceId = Return uuid <->
  exists gpuid migid g,
    Strconv.ParseUint gpu 32 = (gpuid, None) /\
    gpuid < deviceinfo.GPUCount sysInfo /\
    Strconv.ParseUint instanceId 32 = (migid, None) /\
    nth_error (deviceinfo.GPUs sysInfo) (Z.to_nat gpuid) = Some g /\
    ((exists before i after,
         deviceinfo.GPUInstances g = before ++ i :: after /\
         Forall (fun j => deviceinfo.NvmlInstanceId j <> migid) before /\
         deviceinfo.NvmlInstanceId i = migid /\
         uuid = deviceinfo.UUID i) \/
     (Forall (fun j => deviceinfo.NvmlInstanceId j <> migid) (deviceinfo.GPUInstances g) /\
      uuid = EmptyString)).
Proof.
  unfold FindMIGUUID. split.
  - destruct (Strconv.ParseUint gpu 32) as [gpuid [e|]]; [discriminate|].
    destruct (gpuid >=? deviceinfo.GPUCount sysInfo) eqn:Hcount; [discriminate|].
    destruct (Strconv.ParseUint instanceId 32) as [migid [e|]]; [discriminate|].
    destruct (nth_error (deviceinfo.GPUs sysInfo) (Z.to_nat gpuid)) as [g|] eqn:Hnth;
      [|discriminate].
    intros Hfind. exists gpuid, migid, g.
    split; [reflexivity|]. split; [rewrite Z.geb_leb in Hcount; apply Z.leb_gt, Hcount|].
    split; [reflexivity|]. split; [exact Hnth|].
    destruct (List.find _ _) as [i|] eqn:Hi; injection Hfind as <-.
    + left. apply find_first in Hi as (before & after & Hl & Hbefore & Hx).
      exists before, i, after. split; [exact Hl|]. split.
      * eapply Forall_impl; [exact Hbefore|]. intros j Hj. apply Z.eqb_neq, Hj.
      * split; [apply Z.eqb_eq, Hx|reflexivity].
    + right. split; [|reflexivity]. apply find_none in Hi.
      eapply Forall_impl; [exact Hi|]. intros j Hj. apply Z.eqb_neq, Hj.
  - intros (gpuid & migid & g & -> & Hcount & -> & -> & Hcases).
    assert ((gpuid >=? deviceinfo.GPUCount sysInfo) = false) as ->
      by (rewrite Z.geb_leb; apply Z.leb_gt, Hcount).
    destruct Hcases as [(before & i & after & Hl & Hbefore & Hi & ->)|[Hnone ->]].
    + assert (List.find (fun j => deviceinfo.NvmlInstanceId j =? migid)
                (deviceinfo.GPUInstances g) = Some i) as ->; [|reflexivity].
      apply find_first. exists before, after. split; [exact Hl|]. split.
      * eapply Forall_impl; [exact Hbefore|]. intros j Hj. apply Z.eqb_neq, Hj.
      * apply Z.eqb_eq, Hi.
    + assert (List.find (fun j => deviceinfo.NvmlInstanceId j =? migid)
                (deviceinfo.GPUInstances g) = None) as ->; [|reflexivity].
      apply find_none. eapply Forall_impl; [exact Hnone|]. intros j Hj. apply Z.eqb_neq, Hj.
Qed.

(** X8.  [FindMIGUUID] indexes the device list only below the device count:
    with a topology whose device count does not exceed the number of devices
    it lists, the call never panics (it returns, or it exits in
    [logrus.Fatalf]). *)
Theorem FindMIGUUID_index_in_range (sysInfo : deviceinfo.Provider) (gpu instanceId : string) :
  deviceinfo.GPUCount sysInfo <= Z.of_nat (length (deviceinfo.GPUs sysInfo)) ->
  FindMIGUUID sysInfo gpu instanceId <> Panic.
Proof.
  intros Hcount. unfold FindMIGUUID.
  destruct (Strconv.ParseUint gpu 32) as [gpuid [e|]] eqn:Hgpu; [discriminate|].
  destruct (gpuid >=? deviceinfo.GPUCount sysInfo) eqn:Hlt; [discriminate|].
  destruct (Strconv.ParseUint instanceId 32) as [migid [e|]]; [discriminate|].
  destruct (nth_error (deviceinfo.GPUs sysInfo) (Z.to_nat gpuid)) as [g|] eqn:Hnth.
  - destruct (List.find _ _); discriminate.
  - apply nth_error_None in Hnth. apply ParseUint_nonneg in Hgpu.
    rewrite Z.geb_leb in Hlt. apply Z.leb_gt in Hlt. lia.
Qed.

Lemma FindMIGUUID_index_in_range_witness :
  FindMIGUUID Inputs.oneGPU "0" "3" <> Panic.
Proof. apply FindMIGUUID_index_in_range. cbn. lia. Defined.

Lemma ParseUint_FormatInt (z : Z) :
  0 <= z < 2 ^ 32 -> Strconv.ParseUint (Strconv.FormatInt z) 32 = (z, None).
Proof.
  intros Hz. destruct z as [|p|p]; [reflexivity| |lia].
  unfold Strconv.FormatInt. cbn [Z.to_int NilZero.string_of_int].
  pose proof (DecimalPos.Unsigned.to_uint_nonnil p) as Hnil.
  assert (Hval : Spec.decimalValue (Pos.to_uint p) 0 = Zpos p).
  { rewrite decimalValue_zero, DecimalPos.Unsigned.of_to. reflexivity. }
  assert (Hstr : NilZero.string_of_uint (Pos.to_uint p)
                 = NilEmpty.string_of_uint (Pos.to_uint p)).
  { unfold NilZero.string_of_uint. destruct (Pos.to_uint p); [congruence|reflexivity..]. }
  rewrite Hstr.
  destruct (string_of_uint_head _ Hnil) as (c & s & Hs & _ & _).
  unfold Strconv.ParseUint. rewrite Hs; rewrite <- Hs.
  change (if 32 =? 0 then Strconv.IntSize else 32) with 32.
  change (2 ^ 32) with 4294967296 in *.
  rewrite (parseUintLoop_decimal (4294967296 - 1) _ ltac:(lia) 0 ltac:(lia))
    by (rewrite Hval; lia).
  rewrite Hval. reflexivity.
Qed.

(** X9.  [FindMIGUUID] returns for every device index below the device count
    and every instance id, when they are written as decimal numbers (as
    [%d] writes them) and the topology lists as many devices as it counts:
    the precondition of the call is then met, and it neither exits nor
    panics. *)
Theorem FindMIGUUID_accepts_decimal_ids (sysInfo : deviceinfo.Provider)
    (index instance : Z) :
  0 <= index < deviceinfo.GPUCount sysInfo ->
  deviceinfo.GPUCount sysInfo <= Z.of_nat (length (deviceinfo.GPUs sysInfo)) ->
  deviceinfo.GPUCount sysInfo <= 2 ^ 32 ->
  0 <= instance < 2 ^ 32 ->
  exists uuid,
    FindMIGUUID sysInfo (Strconv.FormatInt index) (Strconv.FormatInt instance)
    = Return uuid.
Proof.
  intros Hindex Hlen Hcount Hinstance. unfold FindMIGUUID.
  rewrite (ParseUint_FormatInt index) by lia.
  replace (index >=? deviceinfo.GPUCount sysInfo) with false
    by (symmetry; rewrite Z.geb_leb; apply Z.leb_gt; lia).
  rewrite (ParseUint_FormatInt instance Hinstance).
  destruct (nth_error (deviceinfo.GPUs sysInfo) (Z.to_nat index)) as [g|] eqn:Hnth.
  - destruct (List.find _ _); eauto.
  - apply nth_error_None in Hnth. lia.
Qed.

Lemma FindMIGUUID_accepts_decimal_ids_witness :
  exists uuid,
    FindMIGUUID Inputs.oneGPU (Strconv.FormatInt 0) (Strconv.FormatInt 3) = Return uuid.
Proof.
  apply FindMIGUUID_accepts_decimal_ids; cbn; lia.
Defined.

(** *** Invariants of a pass *)

Lemma populateUUID_grows (sysInfo : deviceinfo.Provider)
    (gpuUUIDs gpuUUIDs' : gmap string string) (metric : Metric) :
  populateUUID sysInfo gpuUUIDs metric = Return gpuUUIDs' ->
  gpuUUIDs ⊆ gpuUUIDs' /\ is_Some (gpuUUIDs' !! gpuIDOf metric).
Proof.
  unfold populateUUID. destruct (gpuUUIDs !! gpuIDOf metric) as [u|] eqn:Hc.
  - intros [= <-]. split; [reflexivity|]. rewrite Hc. eauto.
  - assert (Hins : forall u,
               gpuUUIDs ⊆ <[gpuIDOf metric := u]> gpuUUIDs /\
               is_Some (<[gpuIDOf metric := u]> gpuUUIDs !! gpuIDOf metric)).
    { intros u. split; [apply insert_subseteq, Hc|]. rewrite lookup_insert_eq. eauto. }
    destruct (negb (String.eqb (MigProfile metric) EmptyString)).
    + destruct (FindMIGUUID sysInfo (GPU metric) (GPUInstanceID metric)) as [u| |];
        cbn [mbind Outcome_bind]; try discriminate.
      intros [= <-]. apply Hins.
    + intros [= <-]. apply Hins.
Qed.

(** What a returning run of the loop body does: the identifier is resolved,
    and the sample is passed on as it is or fanned out over job records. *)
Lemma enrich_returns (env : Env) (sysInfo : deviceinfo.Provider)
    (gpuToJobMap : gmap string (list string)) (gpuUUIDs gpuUUIDs' : gmap string string)
    (h h' : Heap) (acc acc' : list Metric) (metric : Metric) :
  enrich env sysInfo gpuToJobMap (gpuUUIDs, h, acc) metric = Return (gpuUUIDs', h', acc') ->
  exists uuid,
    populateUUID sysInfo gpuUUIDs metric = Return gpuUUIDs' /\
    gpuUUIDs' !! gpuIDOf metric = Some uuid /\
    ((h' = h /\ acc' = acc ++ [Spec.enriched env metric uuid] /\
      (lookupJobs gpuToJobMap uuid (gpuIDOf metric) = None \/
       lookupJobs gpuToJobMap uuid (gpuIDOf metric) = Some [])) \/
     (exists jobs,
         lookupJobs gpuToJobMap uuid (gpuIDOf metric) = Some jobs /\ jobs <> [] /\
         forRange (fanOut env (Spec.enriched env metric uuid)) jobs (acc, h)
           = Return (acc', h'))).
Proof.
  rewrite enrich_unfold. intros Hrun.
  destruct (populateUUID sysInfo gpuUUIDs metric) as [u| |] eqn:Hpop;
    cbn [mbind Outcome_bind] in Hrun; try discriminate.
  destruct (populateUUID_grows _ _ _ _ Hpop) as [_ [uuid Huuid]].
  cbv zeta in Hrun. rewrite Huuid in Hrun. cbn [default from_option id] in Hrun.
  exists uuid.
  destruct (lookupJobs gpuToJobMap uuid (gpuIDOf metric)) as [[|j js]|] eqn:Hjobs.
  - injection Hrun as <- <- <-. split; [reflexivity|]. split; [exact Huuid|]. left. auto.
  - destruct (forRange _ (j :: js) (acc, h)) as [[a2 h2]| |] eqn:Hloop;
      cbn [mbind Outcome_bind] in Hrun; try discriminate.
    injection Hrun as <- <- <-. split; [reflexivity|]. split; [exact Huuid|].
    right. exists (j :: js). split; [reflexivity|]. split; [discriminate|exact Hloop].
  - injection Hrun as <- <- <-. split; [reflexivity|]. split; [exact Huuid|]. left. auto.
Qed.

Lemma enrich_resolved (env : Env) (sysInfo : deviceinfo.Provider)
    (gpuToJobMap : gmap string (list string)) (gpuUUIDs gpuUUIDs' : gmap string string)
    (h h' : Heap) (acc acc' : list Metric) (metric : Metric) :
  enrich env sysInfo gpuToJobMap (gpuUUIDs, h, acc) metric = Return (gpuUUIDs', h', acc') ->
  gpuUUIDs ⊆ gpuUUIDs' /\
  forall m, m ∈ acc' -> m ∈ acc \/ Notions.resolved gpuUUIDs' m.
Proof.
  intros Hrun. destruct (enrich_returns _ _ _ _ _ _ _ _ _ _ Hrun) as (uuid & Hpop & Huuid & Hcases).
  split; [apply (populateUUID_grows _ _ _ _ Hpop)|].
  intros m Hm. destruct Hcases as [(_ & -> & _)|(jobs & _ & _ & Hloop)].
  - apply elem_of_app in Hm as [Hm|Hm]; [auto|].
    apply list_elem_of_singleton in Hm as ->. right. exact Huuid.
  - destruct (fanOut_loop_origin _ _ _ _ _ _ _ Hloop m Hm) as [Hold|(l & a & ->)]; [auto|].
    right. exact Huuid.
Qed.

Lemma resolved_weaken (c c' : gmap string string) (m : Metric) :
  c ⊆ c' -> Notions.resolved c m -> Notions.resolved c' m.
Proof. intros Hsub Hm. exact (lookup_weaken _ _ _ _ Hm Hsub). Qed.

Lemma enrich_loop_resolved (env : Env) (sysInfo : deviceinfo.Provider)
    (gpuToJobMap : gmap string (list string)) (ms : list Metric)
    (gpuUUIDs gpuUUIDs' : gmap string string) (h h' : Heap) (out : list Metric) :
  forRange (enrich env sysInfo gpuToJobMap) ms (gpuUUIDs, h, []) = Return (gpuUUIDs', h', out) ->
  gpuUUIDs ⊆ gpuUUIDs' /\ forall m, m ∈ out -> Notions.resolved gpuUUIDs' m.
Proof.
  intros Hrun.
  refine (forRange_invariant
            (fun _ st => gpuUUIDs ⊆ st.1.1 /\
                         forall m, m ∈ st.2 -> Notions.resolved st.1.1 m)
            _ _ _ _ _ _ Hrun).
  - cbn. split; [reflexivity|]. intros m Hm. inversion Hm.
  - intros visited metric [[c1 h1] a1] [[c2 h2] a2] [Hsub IH] Hstep. cbn in *.
    destruct (enrich_resolved _ _ _ _ _ _ _ _ _ _ Hstep) as [Hgrow Hnew].
    split; [etransitivity; eassumption|].
    intros m Hm. destruct (Hnew m Hm) as [Hold|Hres]; [|exact Hres].
    eapply resolved_weaken; [exact Hgrow|auto].
Qed.

Lemma enrichCounter_returns (env : Env) (sysInfo : deviceinfo.Provider)
    (gpuToJobMap : gmap string (list string)) (gpuUUIDs gpuUUIDs' : gmap string string)
    (h h' : Heap) (done done' : MetricsByCounter) (entry : counters.Counter * list Metric) :
  enrichCounter env sysInfo gpuToJobMap (gpuUUIDs, h, done) entry
    = Return (gpuUUIDs', h', done') ->
  exists modifiedMetrics,
    forRange (enrich env sysInfo gpuToJobMap) entry.2 (gpuUUIDs, h, [])
      = Return (gpuUUIDs', h', modifiedMetrics) /\
    done' = done ++ [(entry.1, modifiedMetrics)].
Proof.
  unfold enrichCounter. intros Hrun.
  destruct (forRange _ entry.2 (gpuUUIDs, h, [])) as [[[c2 h2] mm]| |];
    cbn [mbind Outcome_bind] in Hrun; try discriminate.
  injection Hrun as <- <- <-. eauto.
Qed.

(** What a pass does when the directory exists and its files can be read. *)
Lemma Process_returns (env : Env) (metrics out : MetricsByCounter)
    (sysInfo : deviceinfo.Provider) (h h' : Heap) :
  Stat (os env) = None ->
  transformation.Process env metrics sysInfo h = Return (None, out, h') ->
  exists files gpuToJobMap gpuUUIDs,
    ReadDir (os env) = inr files /\
    loadJobs (os env) (mappingFiles files) ∅ = inr gpuToJobMap /\
    forRange (enrichCounter env sysInfo gpuToJobMap) metrics (∅, h, [])
      = Return (gpuUUIDs, h', out).
Proof.
  intros Hs Hrun. unfold transformation.Process, getGPUFiles in Hrun. rewrite Hs in Hrun.
  destruct (ReadDir (os env)) as [e|files]; [discriminate|].
  destruct (loadJobs (os env) (mappingFiles files) ∅) as [e|jm] eqn:Hload; [discriminate|].
  destruct (forRange (enrichCounter env sysInfo jm) metrics (∅, h, []))
    as [[[u2 h2] out2]| |] eqn:Hloop;
    cbn [mbind Outcome_bind] in Hrun; try discriminate.
  injection Hrun as <- <-. exists files, jm, u2.
  split; [reflexivity|]. split; [exact Hload|exact Hloop].
Qed.

Lemma counters_loop_resolved (env : Env) (sysInfo : deviceinfo.Provider)
    (gpuToJobMap : gmap string (list string)) (metrics out : MetricsByCounter)
    (gpuUUIDs cache : gmap string string) (h h' : Heap) :
  forRange (enrichCounter env sysInfo gpuToJobMap) metrics (gpuUUIDs, h, [])
    = Return (cache, h', out) ->
  forall c ms m, (c, ms) ∈ out -> m ∈ ms -> Notions.resolved cache m.
Proof.
  intros Hloop.
  refine (forRange_invariant
            (fun _ st => forall c ms m, (c, ms) ∈ st.2 -> m ∈ ms ->
                                        Notions.resolved st.1.1 m)
            _ _ _ _ _ _ Hloop).
  - cbn. intros c ms m Hin. inversion Hin.
  - intros visited entry [[c1 h1] d1] [[c2 h2] d2] IH Hstep. cbn in *.
    destruct (enrichCounter_returns _ _ _ _ _ _ _ _ _ _ Hstep) as (mm & Hinner & ->).
    destruct (enrich_loop_resolved _ _ _ _ _ _ _ _ _ Hinner) as [Hgrow Hnew].
    intros c ms m Hentry Hm. apply elem_of_app in Hentry as [Hentry|Hentry].
    + eapply resolved_weaken; [exact Hgrow|]. eapply IH; eassumption.
    + apply list_elem_of_singleton in Hentry. injection Hentry as -> ->. auto.
Qed.

(** X10.  Within a pass the alternate identifier of a key is fixed by the
    first sample of that key: all samples that a pass puts out for one key
    ([gpu], or [gpu.instance] for a partition) carry the same alternate
    identifier, also when the samples themselves report different device
    UUIDs. *)
Theorem Process_one_identifier_per_key (env : Env) (metrics out : MetricsByCounter)
    (sysInfo : deviceinfo.Provider) (h h' : Heap) :
  Stat (os env) = None ->
  transformation.Process env metrics sysInfo h = Return (None, out, h') ->
  forall c1 ms1 m1 c2 ms2 m2,
    (c1, ms1) ∈ out -> m1 ∈ ms1 -> (c2, ms2) ∈ out -> m2 ∈ ms2 ->
    gpuIDOf m1 = gpuIDOf m2 -> AlterUUID m1 = AlterUUID m2.
Proof.
  intros Hs Hrun.
  destruct (Process_returns _ _ _ _ _ _ Hs Hrun) as (files & jm & cache & _ & _ & Hloop).
  pose proof (counters_loop_resolved _ _ _ _ _ _ _ _ _ Hloop) as Hall.
  intros c1 ms1 m1 c2 ms2 m2 H1 Hm1 H2 Hm2 Hkey.
  pose proof (Hall _ _ _ H1 Hm1) as R1. pose proof (Hall _ _ _ H2 Hm2) as R2.
  unfold Notions.resolved in R1, R2. rewrite Hkey in R1. congruence.
Qed.

Lemma Process_one_identifier_per_key_witness :
  AlterUUID (Spec.enriched (Inputs.envOf (Inputs.dirWith [])) Inputs.metric139 "GPU-abc")
  = AlterUUID (Spec.enriched (Inputs.envOf (Inputs.dirWith []))
                 (Inputs.sample (Inputs.counterX "help" 1) "7" "0" "GPU-xyz") "GPU-abc").
Proof.
  apply (Process_one_identifier_per_key (Inputs.envOf (Inputs.dirWith []))
           [(Inputs.counterX "help" 1,
             [Inputs.metric139; Inputs.sample (Inputs.counterX "help" 1) "7" "0" "GPU-xyz"])]
           [(Inputs.counterX "help" 1,
             [Spec.enriched (Inputs.envOf (Inputs.dirWith [])) Inputs.metric139 "GPU-abc";
              Spec.enriched (Inputs.envOf (Inputs.dirWith []))
                (Inputs.sample (Inputs.counterX "help" 1) "7" "0" "GPU-xyz") "GPU-abc"])]
           Inputs.oneGPU Inputs.heap0 Inputs.heap0 eq_refl eq_refl
           (Inputs.counterX "help" 1)
           [Spec.enriched (Inputs.envOf (Inputs.dirWith [])) Inputs.metric139 "GPU-abc";
            Spec.enriched (Inputs.envOf (Inputs.dirWith []))
              (Inputs.sample (Inputs.counterX "help" 1) "7" "0" "GPU-xyz") "GPU-abc"]
           _
           (Inputs.counterX "help" 1)
           [Spec.enriched (Inputs.envOf (Inputs.dirWith [])) Inputs.metric139 "GPU-abc";
            Spec.enriched (Inputs.envOf (Inputs.dirWith []))
              (Inputs.sample (Inputs.counterX "help" 1) "7" "0" "GPU-xyz") "GPU-abc"]
           _).
  - apply list_elem_of_singleton. reflexivity.
  - apply elem_of_cons. left. reflexivity.
  - apply list_elem_of_singleton. reflexivity.
  - apply elem_of_cons. right. apply list_elem_of_singleton. reflexivity.
  - reflexivity.
Defined.

Lemma Forall2_elem_r {A B : Type} (R : A -> B -> Prop) (l : list A) (k : list B) (y : B) :
  Forall2 R l k -> y ∈ k -> exists x, x ∈ l /\ R x y.
Proof.
  induction 1 as [|a b l k Hab _ IH]; intros Hy; [inversion Hy|].
  apply elem_of_cons in Hy as [->|Hy].
  - exists a. split; [left|exact Hab].
  - destruct (IH Hy) as (x & Hx & HR). exists x. split; [right; exact Hx|exact HR].
Qed.

Lemma populateUUID_source (sysInfo : deviceinfo.Provider)
    (gpuUUIDs gpuUUIDs' : gmap string string) (metric : Metric) :
  MigProfile metric = EmptyString ->
  populateUUID sysInfo gpuUUIDs metric = Return gpuUUIDs' ->
  forall k u, gpuUUIDs' !! k = Some u ->
              gpuUUIDs !! k = Some u \/ (k = GPU metric /\ u = GPUUUID metric).
Proof.
  intros Hmig. unfold populateUUID. rewrite (gpuIDOf_standalone metric Hmig), Hmig.
  destruct (gpuUUIDs !! GPU metric) as [u0|]; cbn [String.eqb negb].
  - intros [= <-]. auto.
  - intros [= <-] k u Hk. destruct (decide (GPU metric = k)) as [<-|Hne].
    + rewrite lookup_insert_eq in Hk. injection Hk as <-. auto.
    + rewrite lookup_insert_ne in Hk by exact Hne. auto.
Qed.

Lemma enrich_loop_source (env : Env) (sysInfo : deviceinfo.Provider)
    (gpuToJobMap : gmap string (list string)) (ms : list Metric)
    (gpuUUIDs gpuUUIDs' : gmap string string) (h h' : Heap) (out : list Metric) :
  forRange (enrich env sysInfo gpuToJobMap) ms (gpuUUIDs, h, []) = Return (gpuUUIDs', h', out) ->
  Forall (fun m => MigProfile m = EmptyString) ms ->
  forall k u, gpuUUIDs' !! k = Some u ->
              gpuUUIDs !! k = Some u \/
              exists m, m ∈ ms /\ k = GPU m /\ u = GPUUUID m.
Proof.
  intros Hrun.
  refine (forRange_invariant
            (fun visited st =>
               Forall (fun m => MigProfile m = EmptyString) visited ->
               forall k u, st.1.1 !! k = Some u ->
                           gpuUUIDs !! k = Some u \/
                           exists m, m ∈ visited /\ k = GPU m /\ u = GPUUUID m)
            _ _ _ _ _ _ Hrun).
  - cbn. auto.
  - intros visited metric [[c1 h1] a1] [[c2 h2] a2] IH Hstep Hall k u Hk. cbn in *.
    apply Forall_app in Hall as [Hvisited Hmetric].
    apply Forall_cons in Hmetric as [Hmig _].
    destruct (enrich_returns _ _ _ _ _ _ _ _ _ _ Hstep) as (uuid & Hpop & _).
    destruct (populateUUID_source _ _ _ _ Hmig Hpop k u Hk) as [Hold|[-> ->]].
    + destruct (IH Hvisited k u Hold) as [H0|(m & Hm & Hkm)]; [auto|].
      right. exists m. split; [apply elem_of_app; auto|exact Hkm].
    + right. exists metric. split; [apply elem_of_app; right; left|auto].
Qed.

Lemma counters_loop_source (env : Env) (sysInfo : deviceinfo.Provider)
    (gpuToJobMap : gmap string (list string)) (metrics out : MetricsByCounter)
    (cache : gmap string string) (h h' : Heap) :
  forRange (enrichCounter env sysInfo gpuToJobMap) metrics (∅, h, [])
    = Return (cache, h', out) ->
  (forall c ms m, (c, ms) ∈ metrics -> m ∈ ms -> MigProfile m = EmptyString) ->
  forall k u, cache !! k = Some u ->
              exists c ms m, (c, ms) ∈ metrics /\ m ∈ ms /\ k = GPU m /\ u = GPUUUID m.
Proof.
  intros Hloop.
  refine (forRange_invariant
            (fun visited st =>
               (forall c ms m, (c, ms) ∈ visited -> m ∈ ms -> MigProfile m = EmptyString) ->
               forall k u, st.1.1 !! k = Some u ->
                           exists c ms m, (c, ms) ∈ visited /\ m ∈ ms /\
                                          k = GPU m /\ u = GPUUUID m)
            _ _ _ _ _ _ Hloop).
  - cbn. intros _ k u Hk. rewrite lookup_empty in Hk. discriminate.
  - intros visited entry [[c1 h1] d1] [[c2 h2] d2] IH Hstep Hall k u Hk. cbn in *.
    destruct (enrichCounter_returns _ _ _ _ _ _ _ _ _ _ Hstep) as (mm & Hinner & _).
    destruct entry as [c ms]. cbn [snd] in Hinner.
    assert (Hms : Forall (fun m => MigProfile m = EmptyString) ms).
    { apply Forall_forall. intros m Hm. apply (Hall c ms m); [|exact Hm].
      apply elem_of_app. right. left. }
    destruct (enrich_loop_source _ _ _ _ _ _ _ _ _ Hinner Hms k u Hk)
      as [Hold|(m & Hm & Hkm)].
    + destruct (IH (fun c0 ms0 m0 Hc Hm => Hall c0 ms0 m0 (proj2 (elem_of_app _ _ _) (or_introl Hc)) Hm)
                   k u Hold) as (c0 & ms0 & m0 & Hc0 & Hm0 & Hkm).
      exists c0, ms0, m0. split; [apply elem_of_app; auto|auto].
    + exists c, ms, m. split; [apply elem_of_app; right; left|auto].
Qed.

(** X11.  For samples of standalone devices that agree on the UUID of each
    device index (as the samples of one collection do), a pass sets the
    alternate identifier of every sample that it puts out to the UUID of the
    device of that sample, whatever the order of the counters and of the
    samples. *)
Theorem Process_standalone_identifier (env : Env) (metrics out : MetricsByCounter)
    (sysInfo : deviceinfo.Provider) (h h' : Heap) :
  Stat (os env) = None ->
  (forall c ms m, (c, ms) ∈ metrics -> m ∈ ms -> MigProfile m = EmptyString) ->
  (forall c1 ms1 m1 c2 ms2 m2,
      (c1, ms1) ∈ metrics -> m1 ∈ ms1 -> (c2, ms2) ∈ metrics -> m2 ∈ ms2 ->
      GPU m1 = GPU m2 -> GPUUUID m1 = GPUUUID m2) ->
  transformation.Process env metrics sysInfo h = Return (None, out, h') ->
  forall c ms m, (c, ms) ∈ out -> m ∈ ms -> AlterUUID m = GPUUUID m.
Proof.
  intros Hs Hmig Hagree Hrun c ms' m' Hentry Hm'.
  destruct (Process_returns _ _ _ _ _ _ Hs Hrun) as (files & jm & cache & _ & _ & Hloop).
  pose proof (counters_loop_resolved _ _ _ _ _ _ _ _ _ Hloop c ms' m' Hentry Hm') as Hres.
  destruct (Forall2_elem_r _ _ _ _ (Process_origin _ _ _ _ _ _ Hs Hrun) Hentry)
    as ([c0 ms] & Hin & Hkey & Hfrom).
  cbn [fst snd] in Hkey, Hfrom. subst c0.
  destruct (Hfrom m' Hm') as (m & Hm & uuid & labels & attributes & ->).
  unfold Notions.resolved in Hres.
  change (gpuIDOf (setMaps (setAlterUUID (setAlterValue m (scaled env m)) uuid)
                     labels attributes)) with (gpuIDOf m) in Hres.
  rewrite (gpuIDOf_standalone m (Hmig _ _ _ Hin Hm)) in Hres.
  destruct (counters_loop_source _ _ _ _ _ _ _ _ Hloop Hmig _ _ Hres)
    as (c1 & ms1 & m1 & Hc1 & Hm1 & Hgpu & Huuid).
  rewrite Huuid. symmetry. exact (Hagree _ _ _ _ _ _ Hin Hm Hc1 Hm1 Hgpu).
Qed.

Lemma Process_standalone_identifier_witness :
  AlterUUID Inputs.metric139Enriched = GPUUUID Inputs.metric139Enriched.
Proof.
  refine (Process_standalone_identifier (Inputs.envOf (Inputs.dirWith []))
            [(Inputs.counterX "help" 1, [Inputs.metric139])]
            [(Inputs.counterX "help" 1, [Inputs.metric139Enriched])]
            Inputs.oneGPU Inputs.heap0 Inputs.heap0 eq_refl _ _ _
            (Inputs.counterX "help" 1) [Inputs.metric139Enriched] Inputs.metric139Enriched
            _ _).
  - intros c ms m Hc Hm. apply list_elem_of_singleton in Hc. injection Hc as -> ->.
    apply list_elem_of_singleton in Hm as ->. reflexivity.
  - intros c1 ms1 m1 c2 ms2 m2 Hc1 Hm1 Hc2 Hm2 _.
    apply list_elem_of_singleton in Hc1. injection Hc1 as -> ->.
    apply list_elem_of_singleton in Hc2. injection Hc2 as -> ->.
    apply list_elem_of_singleton in Hm1 as ->. apply list_elem_of_singleton in Hm2 as ->.
    reflexivity.
  - reflexivity.
  - apply list_elem_of_singleton. reflexivity.
  - apply list_elem_of_singleton. reflexivity.
Defined.

Lemma sameReading_refl (m : Metric) : Notions.sameReading m m.
Proof. repeat split. Qed.

Lemma derived_sameReading (env : Env) (m m' : Metric) :
  Spec.derived env m m' -> Notions.sameReading m m'.
Proof. intros (uuid & labels & attributes & ->). repeat split. Qed.

(** X12.  A pass changes of the metrics only what it is meant to change: it
    never adds, removes or reorders a counter (also for a counter all of
    whose samples are dropped, and also when the pass ends with an error),
    and every sample that it leaves under a counter is a sample that it
    found under that counter, with the same counter, value and device
    fields; only the alternate value, the alternate identifier and the maps
    of a sample can differ. *)
Theorem Process_keeps_readings (env : Env) (metrics out : MetricsByCounter)
    (sysInfo : deviceinfo.Provider) (h h' : Heap) (e : option error) :
  transformation.Process env metrics sysInfo h = Return (e, out, h') ->
  Forall2 (fun entry entry' =>
             entry'.1 = entry.1 /\
             forall m', m' ∈ entry'.2 -> exists m, m ∈ entry.2 /\ Notions.sameReading m m')
          metrics out.
Proof.
  intros Hrun.
  assert (Hsame : Forall2 (fun entry entry' : counters.Counter * list Metric =>
                             entry'.1 = entry.1 /\
                             forall m', m' ∈ entry'.2 ->
                                        exists m, m ∈ entry.2 /\ Notions.sameReading m m')
                          metrics metrics).
  { apply Forall2_same_length_lookup_2; [reflexivity|].
    intros i entry entry' H1 H2. rewrite H1 in H2. injection H2 as <-.
    split; [reflexivity|]. intros m' Hm'. exists m'. split; [exact Hm'|apply sameReading_refl]. }
  destruct e as [err|].
  - destruct (Process_error_unchanged env metrics out sysInfo h h' err Hrun) as [-> _].
    exact Hsame.
  - destruct (Stat (os env)) as [err|] eqn:Hs.
    + rewrite (Process_absent _ _ _ _ _ Hs) in Hrun. injection Hrun as <- _. exact Hsame.
    + eapply Forall2_impl; [exact (Process_origin _ _ _ _ _ _ Hs Hrun)|].
      intros entry entry' [Hkey Hfrom]. split; [exact Hkey|].
      intros m' Hm'. destruct (Hfrom m' Hm') as (m & Hm & Hd).
      exists m. split; [exact Hm|]. eapply derived_sameReading, Hd.
Qed.

Lemma Process_keeps_readings_witness :
  Forall2 (fun entry entry' =>
             entry'.1 = entry.1 /\
             forall m', m' ∈ entry'.2 -> exists m, m ∈ entry.2 /\ Notions.sameReading m m')
          [(Inputs.counterX "help" 1, [Inputs.metric139])]
          [(Inputs.counterX "help" 1, @nil Metric)].
Proof.
  apply (Process_keeps_readings
           (Inputs.envOf (Inputs.dirWith [("0"%string, ["1 2 3"%string])]))
           [(Inputs.counterX "help" 1, [Inputs.metric139])]
           [(Inputs.counterX "help" 1, [])] Inputs.oneGPU Inputs.heap0
           (<[3%nat := ∅]> (<[2%nat := ∅]> Inputs.heap0)) None).
  vm_compute. reflexivity.
Defined.

Lemma lookupJobs_empty (uuid gpuID : string) : lookupJobs ∅ uuid gpuID = None.
Proof. unfold lookupJobs. rewrite !lookup_empty. reflexivity. Qed.

Lemma enrich_loop_no_jobs (env : Env) (sysInfo : deviceinfo.Provider) (ms : list Metric) :
  forall gpuUUIDs gpuUUIDs' h h' acc out,
    forRange (enrich env sysInfo ∅) ms (gpuUUIDs, h, acc) = Return (gpuUUIDs', h', out) ->
    h' = h /\
    exists new,
      out = acc ++ new /\
      Forall2 (fun m m' => exists uuid, m' = Spec.enriched env m uuid) ms new.
Proof.
  induction ms as [|m ms IH]; intros c c' h h' acc out Hrun.
  - injection Hrun as <- <- <-. split; [reflexivity|]. exists [].
    split; [symmetry; apply app_nil_r|constructor].
  - cbn [forRange] in Hrun.
    destruct (enrich env sysInfo ∅ (c, h, acc) m) as [[[c1 h1] a1]| |] eqn:Hstep;
      cbn [mbind Outcome_bind] in Hrun; try discriminate.
    destruct (enrich_returns _ _ _ _ _ _ _ _ _ _ Hstep) as (uuid & _ & _ & Hcases).
    destruct Hcases as [(-> & -> & _)|(jobs & Hjobs & _)].
    + destruct (IH _ _ _ _ _ _ Hrun) as (-> & new & -> & Hnew).
      split; [reflexivity|]. exists (Spec.enriched env m uuid :: new).
      split; [rewrite <- app_assoc; reflexivity|]. constructor; eauto.
    + rewrite lookupJobs_empty in Hjobs. discriminate.
Qed.

(** X13.  A pass over a mapping directory without a file (no entry, or only
    sub-directories and entries without file info) keeps every sample in
    its place: each sample list has its length and order, each sample
    differs from the one before the pass in its alternate value and
    alternate identifier only, and no map is made or changed. *)
Theorem Process_without_mapping_files (env : Env) (metrics out : MetricsByCounter)
    (sysInfo : deviceinfo.Provider) (h h' : Heap) (e : option error)
    (files : list (string * FileInfo)) :
  Stat (os env) = None ->
  ReadDir (os env) = inr files ->
  (forall name, (name, NotDir) ∉ files) ->
  transformation.Process env metrics sysInfo h = Return (e, out, h') ->
  e = None /\ h' = h /\
  Forall2 (fun entry entry' =>
             entry'.1 = entry.1 /\
             Forall2 (fun m m' => exists uuid, m' = Spec.enriched env m uuid)
                     entry.2 entry'.2)
          metrics out.
Proof.
  intros Hs Hdir Hnone Hrun.
  assert (Hfiles : mappingFiles files = []).
  { destruct (mappingFiles files) as [|name rest] eqn:Hm; [reflexivity|].
    exfalso. apply (Hnone name), mappingFiles_elem. rewrite Hm. left. }
  unfold transformation.Process, getGPUFiles in Hrun.
  rewrite Hs, Hdir, Hfiles in Hrun. cbn [loadJobs] in Hrun.
  destruct (forRange (enrichCounter env sysInfo ∅) metrics (∅, h, []))
    as [[[c2 h2] out2]| |] eqn:Hloop;
    cbn [mbind Outcome_bind] in Hrun; try discriminate.
  injection Hrun as <- <- <-. split; [reflexivity|].
  refine (forRange_invariant
            (fun visited st =>
               st.1.2 = h /\
               Forall2 (fun entry entry' =>
                          entry'.1 = entry.1 /\
                          Forall2 (fun m m' => exists uuid, m' = Spec.enriched env m uuid)
                                  entry.2 entry'.2)
                       visited st.2)
            _ _ _ _ _ _ Hloop).
  - cbn. split; [reflexivity|constructor].
  - intros visited entry [[c1 h1] d1] [[c3 h3] d3] [Hh IH] Hstep. cbn in *. subst h1.
    destruct (enrichCounter_returns _ _ _ _ _ _ _ _ _ _ Hstep) as (mm & Hinner & ->).
    destruct (enrich_loop_no_jobs _ _ _ _ _ _ _ _ _ Hinner) as (-> & new & -> & Hnew).
    split; [reflexivity|]. apply Forall2_app; [exact IH|].
    constructor; [|constructor]. split; [reflexivity|exact Hnew].
Qed.

Lemma Process_without_mapping_files_witness :
  (None : option error) = None /\ Inputs.heap0 = Inputs.heap0 /\
  Forall2 (fun entry entry' =>
             entry'.1 = entry.1 /\
             Forall2 (fun m m' =>
                        exists uuid,
                          m' = Spec.enriched (Inputs.envOf (Inputs.dirWith [])) m uuid)
                     entry.2 entry'.2)
          [(Inputs.counterX "help" 1, [Inputs.metric139])]
          [(Inputs.counterX "help" 1, [Inputs.metric139Enriched])].
Proof.
  apply (Process_without_mapping_files (Inputs.envOf (Inputs.dirWith []))
           _ _ Inputs.oneGPU Inputs.heap0 Inputs.heap0 None []);
    try reflexivity.
  intros name Hin. inversion Hin.
Defined.

(** *** The maps of the samples *)

Lemma keeps_refl (h : Heap) : Notions.keeps h h.
Proof. intros l _. reflexivity. Qed.

Lemma keeps_trans (h1 h2 h3 : Heap) :
  Notions.keeps h1 h2 -> Notions.keeps h2 h3 -> Notions.keeps h1 h3.
Proof.
  intros H12 H23 l Hl. rewrite <- (H12 l Hl). apply H23.
  apply elem_of_dom. rewrite (H12 l Hl). apply elem_of_dom, Hl.
Qed.

Lemma fanOut_keeps (env : Env) (metric : Metric) (acc acc' : list Metric)
    (h h' : Heap) (job : string) :
  fanOut env metric (acc, h) job = Return (acc', h') -> Notions.keeps h h'.
Proof.
  destruct (copyFails env metric) eqn:Hcopy.
  - unfold fanOut, utils.DeepCopy. rewrite Hcopy. intros [= _ <-]. apply keeps_refl.
  - destruct (fanOut_step env metric acc h job Hcopy)
      as (labels & attributes & -> & Hl & Ha & _).
    intros [= _ <-] l Hin.
    rewrite !lookup_insert_ne; [reflexivity| |]; intros ->; contradiction.
Qed.

Lemma fanOut_loop_keeps (env : Env) (metric : Metric) (jobs : list string)
    (acc acc' : list Metric) (h h' : Heap) :
  forRange (fanOut env metric) jobs (acc, h) = Return (acc', h') -> Notions.keeps h h'.
Proof.
  intros Hrun.
  refine (forRange_invariant (fun _ st => Notions.keeps h st.2) _ _ _ _ _ _ Hrun).
  - apply keeps_refl.
  - intros visited job [a1 h1] [a2 h2] IH Hstep. cbn in *.
    eapply keeps_trans; [exact IH|]. eapply fanOut_keeps, Hstep.
Qed.

Lemma enrich_keeps (env : Env) (sysInfo : deviceinfo.Provider)
    (gpuToJobMap : gmap string (list string)) (gpuUUIDs gpuUUIDs' : gmap string string)
    (h h' : Heap) (acc acc' : list Metric) (metric : Metric) :
  enrich env sysInfo gpuToJobMap (gpuUUIDs, h, acc) metric = Return (gpuUUIDs', h', acc') ->
  Notions.keeps h h'.
Proof.
  intros Hrun. destruct (enrich_returns _ _ _ _ _ _ _ _ _ _ Hrun) as (uuid & _ & _ & Hcases).
  destruct Hcases as [(-> & _)|(jobs & _ & _ & Hloop)]; [apply keeps_refl|].
  eapply fanOut_loop_keeps, Hloop.
Qed.

(** X14.  A pass writes job attributes to the copies that it makes, never
    to the samples that it was given: every label map and attribute map
    that existed before the pass exists after it with the same contents
    (the copies have maps of their own, as the specification of
    [utils.DeepCopy] asks for). *)
Theorem Process_keeps_input_maps (env : Env) (metrics out : MetricsByCounter)
    (sysInfo : deviceinfo.Provider) (h h' : Heap) (e : option error) :
  transformation.Process env metrics sysInfo h = Return (e, out, h') ->
  forall l, l ∈ dom h -> h' !! l = h !! l.
Proof.
  intros Hrun. change (Notions.keeps h h'). destruct e as [err|].
  - destruct (Process_error_unchanged _ _ _ _ _ _ _ Hrun) as [_ ->]. apply keeps_refl.
  - destruct (Stat (os env)) as [err|] eqn:Hs.
    + rewrite (Process_absent _ _ _ _ _ Hs) in Hrun. injection Hrun as _ <-. apply keeps_refl.
    + destruct (Process_returns _ _ _ _ _ _ Hs Hrun) as (files & jm & cache & _ & _ & Hloop).
      refine (forRange_invariant (fun _ st => Notions.keeps h st.1.2) _ _ _ _ _ _ Hloop).
      * apply keeps_refl.
      * intros visited entry [[c1 h1] d1] [[c2 h2] d2] IH Hstep. cbn in *.
        destruct (enrichCounter_returns _ _ _ _ _ _ _ _ _ _ Hstep) as (mm & Hinner & _).
        eapply keeps_trans; [exact IH|].
        refine (forRange_invariant (fun _ st => Notions.keeps h1 st.1.2) _ _ _ _ _ _ Hinner).
        -- apply keeps_refl.
        -- intros visited' m [[c3 h3] a3] [[c4 h4] a4] IH' Hstep'. cbn in *.
           eapply keeps_trans; [exact IH'|]. eapply enrich_keeps, Hstep'.
Qed.

Lemma Process_keeps_input_maps_witness :
  (<[5%nat := <[HpcJobAttribute := "300"%string]> ∅]>
     (<[4%nat := ∅]>
        (<[3%nat := <[HpcUserAttribute := "200"%string]>
                      (<[HpcJobAttribute := "100"%string]> ∅)]>
           (<[2%nat := ∅]> Inputs.heap0)))) !! Attributes Inputs.metric139
  = Inputs.heap0 !! Attributes Inputs.metric139.
Proof.
  apply (Process_keeps_input_maps
           (Inputs.envOf (Inputs.dirWith [("0"%string, Inputs.twoJobs)]))
           [(Inputs.counterX "help" 1, [Inputs.metric139])]
           [(Inputs.counterX "help" 1,
             [setMaps Inputs.metric139Enriched 2 3; setMaps Inputs.metric139Enriched 4 5])]
           Inputs.oneGPU Inputs.heap0 _ None).
  - vm_compute. reflexivity.
  - apply elem_of_dom. eexists. reflexivity.
Defined.

(** *** Fatal exits *)

Lemma forRange_exit {A S : Type} (body : S -> A -> Outcome S) (l : list A) (why : Fatal) :
  forall s, forRange body l s = Exit why ->
            exists a s1, a ∈ l /\ body s1 a = Exit why.
Proof.
  induction l as [|a l IH]; intros s Hrun; [discriminate|].
  cbn [forRange] in Hrun. destruct (body s a) as [s1| |] eqn:Hstep;
    cbn [mbind Outcome_bind] in Hrun; try discriminate.
  - destruct (IH _ Hrun) as (b & s2 & Hb & Hexit).
    exists b, s2. split; [apply elem_of_cons; auto|exact Hexit].
  - injection Hrun as ->. exists a, s. split; [apply elem_of_cons; auto|exact Hstep].
Qed.

Lemma assign_no_exit (h : Heap) (l : loc) (k v : string) (why : Fatal) :
  assign h l k v <> Exit why.
Proof. unfold assign. destruct (h !! l); discriminate. Qed.

Lemma fanOut_no_exit (env : Env) (metric : Metric) (st : list Metric * Heap)
    (job : string) (why : Fatal) :
  fanOut env metric st job <> Exit why.
Proof.
  destruct st as [acc h]. unfold fanOut.
  destruct (utils.DeepCopy (copyFails env) h metric) as [[mm h1]|]; [|discriminate].
  destruct (Strings.Contains job " ").
  - destruct (Strings.Split job " ") as [|a [|b [|c rest]]]; try discriminate.
    destruct (assign h1 (Attributes mm) HpcJobAttribute a) as [h2| |] eqn:H1;
      cbn [mbind Outcome_bind]; try discriminate.
    + destruct (assign h2 (Attributes mm) HpcUserAttribute b) as [h3| |] eqn:H2;
        cbn [mbind Outcome_bind]; try discriminate.
      exfalso. eapply assign_no_exit, H2.
    + exfalso. eapply assign_no_exit, H1.
  - destruct (assign h1 (Attributes mm) HpcJobAttribute job) as [h2| |] eqn:H1;
      cbn [mbind Outcome_bind]; try discriminate.
    exfalso. eapply assign_no_exit, H1.
Qed.

Lemma populateUUID_exit (sysInfo : deviceinfo.Provider) (gpuUUIDs : gmap string string)
    (metric : Metric) (why : Fatal) :
  populateUUID sysInfo gpuUUIDs metric = Exit why ->
  MigProfile metric <> EmptyString /\
  gpuUUIDs !! gpuIDOf metric = None /\
  FindMIGUUID sysInfo (GPU metric) (GPUInstanceID metric) = Exit why.
Proof.
  unfold populateUUID. destruct (gpuUUIDs !! gpuIDOf metric); [discriminate|].
  destruct (String.eqb_spec (MigProfile metric) EmptyString) as [Heq|Hne];
    cbn [negb]; [discriminate|].
  destruct (FindMIGUUID sysInfo (GPU metric) (GPUInstanceID metric)) as [u|w|];
    cbn [mbind Outcome_bind]; try discriminate.
  intros [= ->]. auto.
Qed.

Lemma enrich_exit (env : Env) (sysInfo : deviceinfo.Provider)
    (gpuToJobMap : gmap string (list string))
    (st : gmap string string * Heap * list Metric) (metric : Metric) (why : Fatal) :
  enrich env sysInfo gpuToJobMap st metric = Exit why ->
  MigProfile metric <> EmptyString /\
  FindMIGUUID sysInfo (GPU metric) (GPUInstanceID metric) = Exit why.
Proof.
  destruct st as [[c h] acc]. rewrite enrich_unfold.
  destruct (populateUUID sysInfo c metric) as [c1|w|] eqn:Hpop;
    cbn [mbind Outcome_bind]; try discriminate.
  - cbv zeta.
    destruct (lookupJobs gpuToJobMap _ (gpuIDOf metric)) as [[|j js]|]; try discriminate.
    destruct (forRange _ (j :: js) (acc, h)) as [[a2 h2]|w|] eqn:Hloop;
      cbn [mbind Outcome_bind]; try discriminate.
    intros [= ->]. destruct (forRange_exit _ _ _ _ Hloop) as (job & s1 & _ & Hexit).
    exfalso. eapply fanOut_no_exit, Hexit.
  - intros [= ->]. destruct (populateUUID_exit _ _ _ _ Hpop) as (Hmig & _ & Hfind). auto.
Qed.

(** X15.  A pass ends the process only through [FindMIGUUID]: when it exits,
    the metrics hold a sample of a partition (a sample with a MIG profile)
    for whose device index and instance id [FindMIGUUID] exits, with the
    same reason.  A pass over samples of standalone devices never exits,
    whatever the mapping files hold. *)
Theorem Process_exits_for_partitions_only (env : Env) (metrics : MetricsByCounter)
    (sysInfo : deviceinfo.Provider) (h : Heap) (why : Fatal) :
  transformation.Process env metrics sysInfo h = Exit why ->
  exists counter ms m,
    (counter, ms) ∈ metrics /\ m ∈ ms /\
    MigProfile m <> EmptyString /\
    FindMIGUUID sysInfo (GPU m) (GPUInstanceID m) = Exit why.
Proof.
  unfold transformation.Process. intros Hrun.
  destruct (Stat (os env)); [discriminate|].
  destruct (getGPUFiles (os env)) as [e|gpuFiles]; [discriminate|].
  destruct (loadJobs (os env) gpuFiles ∅) as [e|jm]; [discriminate|].
  destruct (forRange (enrichCounter env sysInfo jm) metrics (∅, h, []))
    as [[[c2 h2] out2]|w|] eqn:Hloop;
    cbn [mbind Outcome_bind] in Hrun; try discriminate.
  injection Hrun as ->.
  destruct (forRange_exit _ _ _ _ Hloop) as ([counter ms] & [[c1 h1] d1] & Hentry & Hexit).
  unfold enrichCounter in Hexit. cbn [fst snd] in Hexit.
  destruct (forRange (enrich env sysInfo jm) ms (c1, h1, [])) as [[[c3 h3] mm]|w|] eqn:Hinner;
    cbn [mbind Outcome_bind] in Hexit; try discriminate.
  injection Hexit as ->.
  destruct (forRange_exit _ _ _ _ Hinner) as (m & s1 & Hm & Hstep).
  destruct (enrich_exit _ _ _ _ _ _ Hstep) as [Hmig Hfind].
  exists counter, ms, m. auto.
Qed.

Lemma Process_exits_for_partitions_only_witness :
  exists counter ms m,
    (counter, ms) ∈ [(Inputs.counterX "help" 1,
                      [Inputs.migSample (Inputs.counterX "help" 1) "139" "7" "3"])] /\
    m ∈ ms /\
    MigProfile m <> EmptyString /\
    FindMIGUUID Inputs.oneGPU (GPU m) (GPUInstanceID m) = Exit (GPUIdTooBig "7" 1).
Proof.
  apply (Process_exits_for_partitions_only (Inputs.envOf (Inputs.dirWith []))
           _ Inputs.oneGPU Inputs.heap0).
  reflexivity.
Defined.

(** *** The lines of a mapping file *)

Lemma Split_length (s : string) :
  length (Strings.Split s " ") = S (Notions.blanks s).
Proof.
  induction s as [|c s IH]; [reflexivity|].
  cbn [Strings.Split Notions.blanks]. destruct (Ascii.eqb c " ").
  - cbn [length]. rewrite IH. reflexivity.
  - destruct (Strings.Split s " ") as [|t ts]; [discriminate|]. exact IH.
Qed.

Lemma HasByte_blanks (s : string) :
  Strings.HasByte " " s = negb (Nat.eqb (Notions.blanks s) 0).
Proof.
  induction s as [|c s IH]; [reflexivity|].
  cbn [Strings.HasByte Notions.blanks]. destruct (Ascii.eqb c " "); [reflexivity|exact IH].
Qed.

Lemma wellFormed_blanks (line : string) :
  Spec.wellFormed line = (Notions.blanks line <=? 1)%nat.
Proof.
  unfold Spec.wellFormed, Spec.parseJob.
  rewrite Contains_byte, HasByte_blanks.
  pose proof (Split_length line) as Hlen.
  destruct (Notions.blanks line) as [|[|n]]; cbn [Nat.eqb negb Nat.leb]; [reflexivity| |].
  - destruct (Strings.Split line " ") as [|a [|b [|c rest]]]; try discriminate. reflexivity.
  - destruct (Strings.Split line " ") as [|a [|b [|c rest]]]; try discriminate. reflexivity.
Qed.



(** *** Samples that are dropped, samples that are kept *)

Lemma fanOut_copy_fails (env : Env) (metric : Metric) (jobs : list string)
    (st : list Metric * Heap) :
  copyFails env metric = true ->
  forRange (fanOut env metric) jobs st = Return st.
Proof.
  intros Hcopy. induction jobs as [|job jobs IH]; [reflexivity|].
  cbn [forRange]. destruct st as [acc h].
  assert (Hstep : fanOut env metric (acc, h) job = Return (acc, h))
    by (unfold fanOut, utils.DeepCopy; rewrite Hcopy; reflexivity).
  rewrite Hstep. cbn [mbind Outcome_bind]. exact IH.
Qed.

(** X17.  A sample whose key has job records and whose copy cannot be made
    is dropped: the loop over its records skips every record and appends
    nothing, and the sample itself is not passed on either.  The maps are
    as they were. *)
Theorem failed_copy_drops_sample (env : Env) (sysInfo : deviceinfo.Provider)
    (gpuToJobMap : gmap string (list string)) (gpuUUIDs gpuUUIDs' : gmap string string)
    (h : Heap) (modifiedMetrics : list Metric) (metric : Metric) (jobs : list string) :
  let uuid := default EmptyString (gpuUUIDs' !! gpuIDOf metric) in
  populateUUID sysInfo gpuUUIDs metric = Return gpuUUIDs' ->
  lookupJobs gpuToJobMap uuid (gpuIDOf metric) = Some jobs ->
  jobs <> [] ->
  copyFails env (Spec.enriched env metric uuid) = true ->
  enrich env sysInfo gpuToJobMap (gpuUUIDs, h, modifiedMetrics) metric
  = Return (gpuUUIDs', h, modifiedMetrics).
Proof.
  intros uuid Hpop Hjobs Hne Hcopy. rewrite enrich_unfold, Hpop.
  cbn [mbind Outcome_bind]. cbv zeta. fold uuid. rewrite Hjobs.
  destruct jobs as [|j js]; [contradiction|].
  rewrite (fanOut_copy_fails env _ (j :: js) _ Hcopy). reflexivity.
Qed.

Lemma failed_copy_drops_sample_witness :
  enrich {| os := Inputs.dirWith [("0"%string, Inputs.twoJobs)];
            ParseFloat := fun _ => (PrimFloat.zero, None);
            Sprintf_f := fun _ => "0.000000"%string;
            copyFails := fun _ => true |}
    Inputs.oneGPU (<["0"%string := Inputs.twoJobs]> ∅) (∅, Inputs.heap0, []) Inputs.metric139
  = Return (<["0"%string := "GPU-abc"%string]> ∅, Inputs.heap0, []).
Proof.
  apply (failed_copy_drops_sample _ _ _ _ _ _ _ Inputs.metric139 Inputs.twoJobs);
    try reflexivity.
  discriminate.
Defined.

Lemma fanOut_loop_length (env : Env) (metric : Metric) (jobs : list string) :
  copyFails env metric = false ->
  Forall (fun line => Spec.wellFormed line = true) jobs ->
  forall acc h acc' h',
    forRange (fanOut env metric) jobs (acc, h) = Return (acc', h') ->
    length acc' = (length acc + length jobs)%nat.
Proof.
  intros Hcopy. induction 1 as [|job jobs Hjob _ IH]; intros acc h acc' h' Hrun.
  - injection Hrun as <- _. cbn. lia.
  - cbn [forRange] in Hrun.
    destruct (fanOut_step env metric acc h job Hcopy) as (l & a & Hstep & _).
    rewrite Hstep, Hjob in Hrun. cbn [mbind Outcome_bind] in Hrun.
    rewrite (IH _ _ _ _ Hrun), length_app. cbn. lia.
Qed.

Lemma loadJobs_Forall (P : string -> Prop) (o : OS) (gpuFiles : list string) :
  (forall name lines e, Open o name = Scanned lines e -> Forall P lines) ->
  forall m m',
    (forall key jobs, m !! key = Some jobs -> Forall P jobs) ->
    loadJobs o gpuFiles m = inr m' ->
    forall key jobs, m' !! key = Some jobs -> Forall P jobs.
Proof.
  intros Hfiles. induction gpuFiles as [|f fs IH]; intros m m' Hm Hload.
  - injection Hload as <-. exact Hm.
  - cbn [loadJobs] in Hload. unfold readFile in Hload.
    destruct (Open o f) as [e|lines [e|]] eqn:Hopen; try discriminate.
    refine (IH _ _ _ Hload). intros key jobs Hkey.
    destruct (decide (f = key)) as [->|Hne].
    + rewrite lookup_insert_eq in Hkey. injection Hkey as <-.
      apply Forall_app. split; [|exact (Hfiles _ _ _ Hopen)].
      destruct (m !! key) as [old|] eqn:Hold; [exact (Hm _ _ Hold)|constructor].
    + rewrite lookup_insert_ne in Hkey by exact Hne. exact (Hm _ _ Hkey).
Qed.

(** X18.  When every copy can be made and every line of every mapping file
    holds at most one blank, a pass drops no sample: every sample of the
    input gives at least one sample of the output, in its place among the
    samples of its counter, and each of these comes from it (it has its
    fields, with the alternate value and identifier set). *)
Theorem Process_keeps_every_sample (env : Env) (metrics out : MetricsByCounter)
    (sysInfo : deviceinfo.Provider) (h h' : Heap) :
  Stat (os env) = None ->
  (forall m, copyFails env m = false) ->
  (forall name lines e,
      Open (os env) name = Scanned lines e ->
      Forall (fun line => (Notions.blanks line <= 1)%nat) lines) ->
  transformation.Process env metrics sysInfo h = Return (None, out, h') ->
  Forall2 (fun entry entry' =>
             entry'.1 = entry.1 /\
             exists segs,
               entry'.2 = concat segs /\
               Forall2 (fun m seg => seg <> [] /\ Forall (Spec.derived env m) seg)
                       entry.2 segs)
          metrics out.
Proof.
  intros Hs Hcopy Hlines Hrun.
  destruct (Process_returns _ _ _ _ _ _ Hs Hrun) as (files & jm & cache & Hdir & Hload & _).
  assert (Hjm : forall key jobs, jm !! key = Some jobs ->
                                 Forall (fun line => Spec.wellFormed line = true) jobs).
  { refine (loadJobs_Forall _ (os env) (mappingFiles files) _ ∅ jm _ Hload).
    - intros name lines e Hopen. eapply Forall_impl; [exact (Hlines _ _ _ Hopen)|].
      intros line Hline. rewrite wellFormed_blanks. apply Nat.leb_le, Hline.
    - intros key jobs Hkey. rewrite lookup_empty in Hkey. discriminate. }
  assert (Hfiles : getGPUFiles (os env) = inr (mappingFiles files))
    by (unfold getGPUFiles; rewrite Hdir; reflexivity).
  pose proof (Process_segments env metrics out sysInfo h h' _ jm Hs Hfiles Hload Hrun) as Hseg.
  eapply Forall2_impl; [exact Hseg|].
  intros entry entry' (Hkey & segs & Hcat & Hsegs). split; [exact Hkey|].
  exists segs. split; [exact Hcat|].
  eapply Forall2_impl; [exact Hsegs|].
  intros m seg (u0 & h0 & u1 & h1 & Hstep). split.
  - destruct (enrich_returns _ _ _ _ _ _ _ _ _ _ Hstep) as (uuid & _ & _ & Hcases).
    destruct Hcases as [(_ & -> & _)|(jobs & Hjobs & Hne & Hloop)]; [discriminate|].
    assert (Hwf : Forall (fun line => Spec.wellFormed line = true) jobs).
    { unfold lookupJobs in Hjobs.
      destruct (jm !! uuid) as [js|] eqn:Hu; [injection Hjobs as <-|]; eapply Hjm; eassumption. }
    pose proof (fanOut_loop_length env _ jobs (Hcopy _) Hwf _ _ _ _ Hloop) as Hlen.
    destruct jobs as [|j js]; [contradiction|]. destruct seg; [discriminate|discriminate].
  - apply Forall_forall. intros m' Hm'.
    destruct (enrich_origin _ _ _ _ _ _ _ _ _ _ Hstep m' Hm') as [Hnil|Hd]; [inversion Hnil|exact Hd].
Qed.

Lemma Process_keeps_every_sample_witness :
  Forall2 (fun entry entry' =>
             entry'.1 = entry.1 /\
             exists segs,
               entry'.2 = concat segs /\
               Forall2 (fun m seg =>
                          seg <> [] /\
                          Forall (Spec.derived
                                    (Inputs.envOf (Inputs.dirWith [("0"%string, Inputs.twoJobs)])) m)
                                 seg)
                       entry.2 segs)
          [(Inputs.counterX "help" 1, [Inputs.metric139])]
          [(Inputs.counterX "help" 1,
            [setMaps Inputs.metric139Enriched 2 3; setMaps Inputs.metric139Enriched 4 5])].
Proof.
  apply (Process_keeps_every_sample
           (Inputs.envOf (Inputs.dirWith [("0"%string, Inputs.twoJobs)]))
           _ _ Inputs.oneGPU Inputs.heap0
           (<[5%nat := <[HpcJobAttribute := "300"%string]> ∅]>
              (<[4%nat := ∅]>
                 (<[3%nat := <[HpcUserAttribute := "200"%string]>
                               (<[HpcJobAttribute := "100"%string]> ∅)]>
                    (<[2%nat := ∅]> Inputs.heap0))))).
  - reflexivity.
  - reflexivity.
  - intros name lines e. cbn [os Inputs.envOf Open Inputs.dirWith Inputs.fileLines].
    destruct (String.eqb "0" name); [|discriminate].
    intros [= <- _]. repeat constructor.
  - vm_compute. reflexivity.
Defined.

(* ===================================================================== *)
(** ** Further properties of the legacy mapper                            *)
(* ===================================================================== *)

(** What a returning run of the loop body of the legacy mapper does: the
    element is scaled and identified in its place, and its own attribute map
    gets the job id and the user id when both are known. *)
Lemma annotate_returns (env : Env) (dir : dcgmexporter.StateDir)
    (sysInfo : deviceinfo.Provider) (c c' : dcgmexporter.Caches) (h h' : Heap)
    (visited out : list Metric) (val : Metric) :
  dcgmexporter.annotate env dir sysInfo (c, h, visited) val = Return (c', h', out) ->
  exists uuid,
    out = visited ++ [Spec.enriched env val uuid] /\
    (h' = h \/
     exists m jobId userId,
       h !! Attributes val = Some m /\
       jobId <> EmptyString /\ userId <> EmptyString /\
       h' = <[Attributes val := <["userid"%string := userId]>
                                  (<["jobid"%string := jobId]> m)]> h).
Proof.
  unfold dcgmexporter.annotate. intros Hrun.
  destruct (populateUUID sysInfo (dcgmexporter.gpuUUIDs c) val) as [u| |];
    cbn [mbind Outcome_bind] in Hrun; try discriminate.
  cbv zeta in Hrun.
  exists (default EmptyString (u !! gpuIDOf val)).
  change (setAlterUUID (setAlterValue val (scaled env val))
            (default EmptyString (u !! gpuIDOf val)))
    with (Spec.enriched env val (default EmptyString (u !! gpuIDOf val))) in Hrun.
  set (elem := Spec.enriched env val _) in *.
  change (Attributes elem) with (Attributes val) in Hrun.
  assert (Hwrite : forall jobId userId cx,
             (if negb (String.eqb jobId EmptyString) && negb (String.eqb userId EmptyString)
              then h1 ← assign h (Attributes val) "jobid" jobId;
                   h2 ← assign h1 (Attributes val) "userid" userId;
                   Return (cx, h2, visited ++ [elem])
              else Return (cx, h, visited ++ [elem])) = Return (c', h', out) ->
             out = visited ++ [elem] /\
             (h' = h \/
              exists m jobId userId,
                h !! Attributes val = Some m /\
                jobId <> EmptyString /\ userId <> EmptyString /\
                h' = <[Attributes val := <["userid"%string := userId]>
                                           (<["jobid"%string := jobId]> m)]> h)).
  { intros jobId userId cx Hx.
    destruct (String.eqb_spec jobId EmptyString) as [Hj|Hj]; cbn [negb andb] in Hx.
    { injection Hx as _ <- <-. auto. }
    destruct (String.eqb_spec userId EmptyString) as [Hu|Hu]; cbn [negb] in Hx.
    { injection Hx as _ <- <-. auto. }
    destruct (h !! Attributes val) as [m|] eqn:Hm.
    2: { assert (Ha : assign h (Attributes val) "jobid" jobId = Panic)
           by (unfold assign; rewrite Hm; reflexivity).
         rewrite Ha in Hx. discriminate. }
    assert (Ha : assign h (Attributes val) "jobid" jobId
                 = Return (<[Attributes val := <["jobid"%string := jobId]> m]> h))
      by (unfold assign; rewrite Hm; reflexivity).
    rewrite Ha in Hx. cbn [mbind Outcome_bind] in Hx.
    rewrite assign_insert in Hx. cbn [mbind Outcome_bind] in Hx.
    injection Hx as _ <- <-. split; [reflexivity|]. right.
    exists m, jobId, userId. auto. }
  destruct (dcgmexporter.jobIds c !! gpuIDOf val) as [j|].
  - eapply Hwrite, Hrun.
  - destruct (dcgmexporter.CollectJobInfo dir _) as [j u0]. eapply Hwrite, Hrun.
Qed.

Lemma legacy_loops (P : Heap -> Heap -> Prop) (env : Env) (dir : dcgmexporter.StateDir)
    (sysInfo : deviceinfo.Provider) :
  (forall h, P h h) ->
  (forall h1 h2 h3, P h1 h2 -> P h2 h3 -> P h1 h3) ->
  (forall c c' h h' visited out val,
      dcgmexporter.annotate env dir sysInfo (c, h, visited) val = Return (c', h', out) ->
      P h h') ->
  forall metrics out h h',
    dcgmexporter.Process env dir metrics sysInfo h = Return (out, h') -> P h h'.
Proof.
  intros Hrefl Htrans Hstep metrics out h h' Hrun.
  unfold dcgmexporter.Process in Hrun.
  destruct (forRange _ metrics _) as [[[c2 h2] out2]| |] eqn:Hloop;
    cbn [mbind Outcome_bind] in Hrun; try discriminate.
  injection Hrun as <- <-.
  refine (forRange_invariant (fun _ st => P h st.1.2) _ _ _ _ _ _ Hloop); [apply Hrefl|].
  intros visited [k ms] [[c1 h1] d1] [[c3 h3] d3] IH Hs. cbn in *.
  unfold dcgmexporter.annotateCounter in Hs. cbn [fst snd] in Hs.
  destruct (forRange _ ms (c1, h1, [])) as [[[c4 h4] mm]| |] eqn:Hin;
    cbn [mbind Outcome_bind] in Hs; try discriminate.
  injection Hs as <- <- <-.
  eapply Htrans; [exact IH|].
  refine (forRange_invariant (fun _ st => P h1 st.1.2) _ _ _ _ _ _ Hin); [apply Hrefl|].
  intros seen val [[c5 h5] v5] [[c6 h6] v6] IH' Hs'. cbn in *.
  eapply Htrans; [exact IH'|]. eapply Hstep, Hs'.
Qed.

(** X19.  The legacy mapper works in place and never fans out: after a pass
    every counter has its samples in their places, each with its alternate
    value and alternate identifier set and with the label map and the
    attribute map that it had (no copy is made). *)
Theorem legacy_Process_in_place (env : Env) (dir : dcgmexporter.StateDir)
    (metrics out : MetricsByCounter) (sysInfo : deviceinfo.Provider) (h h' : Heap) :
  dcgmexporter.Process env dir metrics sysInfo h = Return (out, h') ->
  Forall2 (fun entry entry' =>
             entry'.1 = entry.1 /\
             Forall2 (fun m m' =>
                        (exists uuid, m' = Spec.enriched env m uuid) /\
                        Labels m' = Labels m /\ Attributes m' = Attributes m)
                     entry.2 entry'.2)
          metrics out.
Proof.
  intros Hrun. unfold dcgmexporter.Process in Hrun.
  destruct (forRange _ metrics _) as [[[c2 h2] out2]| |] eqn:Hloop;
    cbn [mbind Outcome_bind] in Hrun; try discriminate.
  injection Hrun as <- <-.
  refine (forRange_invariant
            (fun visited st =>
               Forall2 (fun entry entry' =>
                          entry'.1 = entry.1 /\
                          Forall2 (fun m m' =>
                                     (exists uuid, m' = Spec.enriched env m uuid) /\
                                     Labels m' = Labels m /\ Attributes m' = Attributes m)
                                  entry.2 entry'.2)
                       visited st.2)
            _ _ _ _ _ _ Hloop); [constructor|].
  intros visited [k ms] [[c1 h1] d1] [[c3 h3] d3] IH Hs. cbn in *.
  unfold dcgmexporter.annotateCounter in Hs. cbn [fst snd] in Hs.
  destruct (forRange _ ms (c1, h1, [])) as [[[c4 h4] mm]| |] eqn:Hin;
    cbn [mbind Outcome_bind] in Hs; try discriminate.
  injection Hs as <- <- <-.
  apply Forall2_app; [exact IH|]. constructor; [|constructor].
  split; [reflexivity|]. cbn.
  refine (forRange_invariant
            (fun seen st =>
               Forall2 (fun m m' =>
                          (exists uuid, m' = Spec.enriched env m uuid) /\
                          Labels m' = Labels m /\ Attributes m' = Attributes m)
                       seen st.2)
            _ _ _ _ _ _ Hin); [constructor|].
  intros seen val [[c5 h5] v5] [[c6 h6] v6] IH' Hs'. cbn in *.
  destruct (annotate_returns _ _ _ _ _ _ _ _ _ _ Hs') as (uuid & -> & _).
  apply Forall2_app; [exact IH'|]. constructor; [|constructor].
  split; [eauto|]. split; reflexivity.
Qed.

Lemma legacy_Process_in_place_witness :
  Forall2 (fun entry entry' =>
             entry'.1 = entry.1 /\
             Forall2 (fun m m' =>
                        (exists uuid,
                            m' = Spec.enriched (Inputs.envOf Inputs.absentDir) m uuid) /\
                        Labels m' = Labels m /\ Attributes m' = Attributes m)
                     entry.2 entry'.2)
          [(Inputs.counterX "help" 1, [Inputs.metric139])]
          [(Inputs.counterX "help" 1, [Inputs.metric139Enriched])].
Proof.
  apply (legacy_Process_in_place (Inputs.envOf Inputs.absentDir)
           {| dcgmexporter.StatOk := fun _ => true;
              dcgmexporter.ReadFile := fun _ => Some "100 200"%string;
              dcgmexporter.Sscanf_s_s := fun _ => Some ("100"%string, "200"%string) |}
           _ _ Inputs.oneGPU Inputs.heap0
           (<[1%nat := <["userid"%string := "200"%string]>
                         (<["jobid"%string := "100"%string]> ∅)]> Inputs.heap0)).
  vm_compute. reflexivity.
Defined.

Lemma sameButJob_refl (h : Heap) : Notions.sameButJob h h.
Proof. split; reflexivity. Qed.

Lemma sameButJob_trans (h1 h2 h3 : Heap) :
  Notions.sameButJob h1 h2 -> Notions.sameButJob h2 h3 -> Notions.sameButJob h1 h3.
Proof.
  intros [D12 K12] [D23 K23]. split; [congruence|].
  intros l k Hj Hu. rewrite (K23 l k Hj Hu). apply K12; assumption.
Qed.

Lemma annotate_sameButJob (env : Env) (dir : dcgmexporter.StateDir)
    (sysInfo : deviceinfo.Provider) (c c' : dcgmexporter.Caches) (h h' : Heap)
    (visited out : list Metric) (val : Metric) :
  dcgmexporter.annotate env dir sysInfo (c, h, visited) val = Return (c', h', out) ->
  Notions.sameButJob h h'.
Proof.
  intros Hs.
  destruct (annotate_returns _ _ _ _ _ _ _ _ _ _ Hs)
    as (uuid & _ & [->|(m & j & u & Hm & _ & _ & ->)]); [apply sameButJob_refl|].
  split.
  - rewrite dom_insert_L. apply (elem_of_dom_2 (D := gset nat)) in Hm.
    apply set_eq. intros x. rewrite elem_of_union, elem_of_singleton.
    split; [intros [->|Hx]; assumption|auto].
  - intros l k Hj Hu. unfold mapAt.
    destruct (decide (l = Attributes val)) as [->|Hne].
    + rewrite lookup_insert_eq, Hm. cbn [default from_option id].
      rewrite !lookup_insert_ne; [reflexivity| |]; intros <-; [apply Hj|apply Hu]; reflexivity.
    + rewrite lookup_insert_ne; [reflexivity|congruence].
Qed.

(** X20.  The legacy mapper creates no map and touches two attributes only:
    after a pass the store holds the maps that it held, and every map has
    the entries that it had, apart from the job attribute and the user
    attribute. *)
Theorem legacy_Process_touches_job_attributes_only (env : Env)
    (dir : dcgmexporter.StateDir) (metrics out : MetricsByCounter)
    (sysInfo : deviceinfo.Provider) (h h' : Heap) :
  dcgmexporter.Process env dir metrics sysInfo h = Return (out, h') ->
  dom h' = dom h /\
  forall l k, k <> "jobid"%string -> k <> "userid"%string ->
              mapAt h' l !! k = mapAt h l !! k.
Proof.
  revert metrics out h h'.
  apply (legacy_loops Notions.sameButJob env dir sysInfo).
  - apply sameButJob_refl.
  - apply sameButJob_trans.
  - apply annotate_sameButJob.
Qed.

Lemma legacy_Process_touches_job_attributes_only_witness :
  dom (<[1%nat := <["userid"%string := "200"%string]> (<["jobid"%string := "100"%string]> ∅)]>
         Inputs.heap0) = dom Inputs.heap0 /\
  forall l k, k <> "jobid"%string -> k <> "userid"%string ->
              mapAt (<[1%nat := <["userid"%string := "200"%string]>
                                  (<["jobid"%string := "100"%string]> ∅)]> Inputs.heap0) l !! k
              = mapAt Inputs.heap0 l !! k.
Proof.
  apply (legacy_Process_touches_job_attributes_only (Inputs.envOf Inputs.absentDir)
           {| dcgmexporter.StatOk := fun _ => true;
              dcgmexporter.ReadFile := fun _ => Some "100 200"%string;
              dcgmexporter.Sscanf_s_s := fun _ => Some ("100"%string, "200"%string) |}
           [(Inputs.counterX "help" 1, [Inputs.metric139])]
           [(Inputs.counterX "help" 1, [Inputs.metric139Enriched])] Inputs.oneGPU).
  vm_compute. reflexivity.
Defined.

(** X21.  The legacy mapper writes the job id and the user id into the
    attribute map of the sample itself: for a sample of a standalone device
    whose key it sees for the first time, whose state file gives a job id
    and a user id, and whose attribute map is nil, the assignment panics. *)
Theorem legacy_annotate_nil_attributes (env : Env) (dir : dcgmexporter.StateDir)
    (sysInfo : deviceinfo.Provider) (c : dcgmexporter.Caches) (h : Heap)
    (visited : list Metric) (val : Metric) (jobId userId : string) :
  MigProfile val = EmptyString ->
  dcgmexporter.gpuUUIDs c !! GPU val = None ->
  dcgmexporter.jobIds c !! GPU val = None ->
  dcgmexporter.CollectJobInfo dir (GPUUUID val) = (jobId, userId) ->
  jobId <> EmptyString ->
  userId <> EmptyString ->
  h !! Attributes val = None ->
  dcgmexporter.annotate env dir sysInfo (c, h, visited) val = Panic.
Proof.
  intros Hmig Hcache Hjob Hinfo Hj Hu Hnil. unfold dcgmexporter.annotate.
  rewrite (populateUUID_standalone sysInfo _ val Hmig Hcache).
  cbn [mbind Outcome_bind]. cbv zeta.
  rewrite (gpuIDOf_standalone val Hmig), Hjob, lookup_insert_eq.
  cbn [default from_option id]. rewrite Hinfo.
  destruct (String.eqb_spec jobId EmptyString) as [|_]; [contradiction|].
  destruct (String.eqb_spec userId EmptyString) as [|_]; [contradiction|].
  cbn [negb andb].
  change (Attributes (setAlterUUID (setAlterValue val (scaled env val)) (GPUUUID val)))
    with (Attributes val).
  assert (Ha : assign h (Attributes val) "jobid" jobId = Panic)
    by (unfold assign; rewrite Hnil; reflexivity).
  rewrite Ha. reflexivity.
Qed.

Lemma legacy_annotate_nil_attributes_witness :
  dcgmexporter.annotate (Inputs.envOf Inputs.absentDir)
    {| dcgmexporter.StatOk := fun _ => true;
       dcgmexporter.ReadFile := fun _ => Some "100 200"%string;
       dcgmexporter.Sscanf_s_s := fun _ => Some ("100"%string, "200"%string) |}
    Inputs.oneGPU
    ({| dcgmexporter.jobIds := ∅; dcgmexporter.userIds := ∅; dcgmexporter.gpuUUIDs := ∅ |},
     ∅, []) Inputs.metric139
  = Panic.
Proof.
  apply (legacy_annotate_nil_attributes _ _ _ _ _ _ Inputs.metric139 "100" "200");
    try reflexivity; discriminate.
Defined.

(* ===================================================================== *)
(** ** Further properties of the renderer                                 *)
(* ===================================================================== *)

(** *** The compatibility gauges, on any samples *)


(** A sample of a device that has its line already is never taken. *)
Lemma Contains_taken (h : Heap) (taken : list Metric) (m : Metric) :
  Spec.DeviceId m ∈ map Spec.DeviceId taken ->
  Strings.Contains (rendermetrics.strJobId0 +:+ rendermetrics.concatMap (Spec.jobLine h) taken)
                   (rendermetrics.deviceProps m) = true.
Proof.
  intros Hin. apply list_elem_of_fmap in Hin as (e & Hid & He).
  rewrite (DeviceId_props m e Hid). apply Contains_app_r, gauge_holds_props, He.
Qed.

(** One step of [RenderSlurm] on the buffers of the samples taken so far. *)
Lemma slurmStep_cases (h : Heap) (taken : list Metric) (m : Metric) :
  rendermetrics.slurmStep h (Spec.gauges h taken) m
  = if Strings.Contains
         (rendermetrics.strJobId0 +:+ rendermetrics.concatMap (Spec.jobLine h) taken)
         (rendermetrics.deviceProps m)
    then Spec.gauges h taken
    else if String.eqb (Spec.jobOf h m) EmptyString then Spec.gauges h taken
         else Spec.gauges h (taken ++ [m]).
Proof.
  unfold rendermetrics.slurmStep, Spec.gauges.
  destruct (Strings.Contains _ (rendermetrics.deviceProps m)); cbn [negb]; [reflexivity|].
  change (index h (Attributes m) HpcJobAttribute) with (Spec.jobOf h m).
  change (index h (Attributes m) HpcUserAttribute) with (Spec.userOf h m).
  destruct (String.eqb (Spec.jobOf h m) EmptyString); cbn [negb]; [reflexivity|].
  rewrite concatMap_app, filter_app, concatMap_app.
  cbn [rendermetrics.concatMap fold_right]. rewrite filter_cons, filter_nil.
  unfold Spec.jobLine, Spec.lineTail, Spec.userLine.
  destruct (String.eqb (Spec.userOf h m) EmptyString) eqn:Hu; cbn [negb].
  - rewrite decide_False
      by (unfold Spec.hasUser; apply String.eqb_eq in Hu; rewrite Hu; auto).
    cbn [rendermetrics.concatMap fold_right].
    f_equal; rewrite ?append_assoc, ?append_nil_r; reflexivity.
  - rewrite decide_True by (unfold Spec.hasUser; apply String.eqb_neq, Hu).
    cbn [rendermetrics.concatMap fold_right].
    unfold Spec.userLine.
    f_equal; rewrite ?append_assoc, ?append_nil_r; reflexivity.
Qed.

(** The sample is taken or not, and it is taken only with a job id and when
    no sample of its device was taken before. *)
Lemma slurmStep_taken (h : Heap) (taken : list Metric) (m : Metric) :
  rendermetrics.slurmStep h (Spec.gauges h taken) m = Spec.gauges h taken \/
  (rendermetrics.slurmStep h (Spec.gauges h taken) m = Spec.gauges h (taken ++ [m]) /\
   Spec.jobOf h m <> EmptyString /\
   Spec.DeviceId m ∉ map Spec.DeviceId taken).
Proof.
  rewrite slurmStep_cases.
  destruct (Strings.Contains _ (rendermetrics.deviceProps m)) eqn:Hc; [auto|].
  destruct (String.eqb (Spec.jobOf h m) EmptyString) eqn:Hj; [auto|].
  right. split; [reflexivity|]. split; [apply String.eqb_neq, Hj|].
  intros Hin. rewrite (Contains_taken h taken m Hin) in Hc. discriminate.
Qed.

Lemma slurm_fold_taken (h : Heap) (ms : list Metric) :
  forall taken,
    NoDup (map Spec.DeviceId taken) ->
    exists new,
      foldl (rendermetrics.slurmStep h) (Spec.gauges h taken) ms
        = Spec.gauges h (taken ++ new) /\
      new `sublist_of` ms /\
      Forall (fun e => Spec.jobOf h e <> EmptyString) new /\
      NoDup (map Spec.DeviceId (taken ++ new)).
Proof.
  induction ms as [|m ms IH]; intros taken Hnd; cbn [foldl].
  - exists []. rewrite app_nil_r. split; [reflexivity|].
    split; [constructor|]. split; [constructor|exact Hnd].
  - destruct (slurmStep_taken h taken m) as [->|(-> & Hj & Hnew)].
    + destruct (IH taken Hnd) as (new & Hrun & Hsub & Hjobs & Hnd').
      exists new. split; [exact Hrun|]. split; [apply sublist_cons, Hsub|auto].
    + assert (Hnd1 : NoDup (map Spec.DeviceId (taken ++ [m]))).
      { rewrite map_app. apply NoDup_app. split; [exact Hnd|].
        split; [|apply NoDup_singleton].
        intros x Hx Hm. cbn in Hm. apply list_elem_of_singleton in Hm as ->. contradiction. }
      destruct (IH (taken ++ [m]) Hnd1) as (new & Hrun & Hsub & Hjobs & Hnd').
      exists (m :: new). rewrite <- app_assoc in Hrun, Hnd'. cbn [app] in Hrun, Hnd'.
      split; [exact Hrun|]. split; [apply sublist_skip, Hsub|].
      split; [constructor; assumption|exact Hnd'].
Qed.

Lemma RenderSlurm_taken (h : Heap) (metrics : MetricsByCounter) :
  exists taken,
    rendermetrics.slurmLoop h metrics = Spec.gauges h taken /\
    taken `sublist_of` flat_map snd metrics /\
    Forall (fun e => Spec.jobOf h e <> EmptyString) taken /\
    NoDup (map Spec.DeviceId taken).
Proof.
  unfold rendermetrics.slurmLoop. rewrite (foldl_flat (rendermetrics.slurmStep h)).
  change (rendermetrics.strJobId0, rendermetrics.strUserId0)
    with (rendermetrics.strJobId0 +:+ EmptyString, rendermetrics.strUserId0 +:+ EmptyString).
  change (rendermetrics.strJobId0 +:+ EmptyString, rendermetrics.strUserId0 +:+ EmptyString)
    with (Spec.gauges h []).
  destruct (slurm_fold_taken h (flat_map snd metrics) [] NoDup_nil_2)
    as (new & Hrun & Hsub & Hjobs & Hnd).
  exists new. auto.
Qed.

(** X22.  Whatever the samples hold, [RenderSlurm] writes the header of the
    job gauge, lines of that gauge, the header of the user gauge and lines
    of that gauge, where the lines are those of a selection of the samples:
    the selected samples are in the order of the iteration, each of them
    carries a job id, no two of them are of one device, and the user gauge
    has a line exactly for those of them that carry a user id.  No line is
    ever written for a sample without a job id, and no user line without
    the job line of the same sample. *)
Theorem RenderSlurm_selects_samples (h : Heap) (metrics : MetricsByCounter) :
  exists taken,
    rendermetrics.RenderSlurm h metrics
      = (rendermetrics.strJobId0 +:+ rendermetrics.concatMap (Spec.jobLine h) taken) +:+
        (rendermetrics.strUserId0 +:+
         rendermetrics.concatMap (Spec.userLine h) (filter (Spec.hasUser h) taken)) /\
    taken `sublist_of` flat_map snd metrics /\
    Forall (fun e => Spec.jobOf h e <> EmptyString) taken /\
    NoDup (map Spec.DeviceId taken).
Proof.
  destruct (RenderSlurm_taken h metrics) as (taken & Hrun & Hrest).
  exists taken. split; [|exact Hrest].
  unfold rendermetrics.RenderSlurm. rewrite Hrun. reflexivity.
Qed.

(** X23.  When no sample carries a job id, [RenderSlurm] writes the four
    header lines and nothing else; a user id without a job id gives no
    line. *)
Theorem RenderSlurm_without_jobs (h : Heap) (metrics : MetricsByCounter) :
  (forall c ms m, (c, ms) ∈ metrics -> m ∈ ms ->
                  index h (Attributes m) HpcJobAttribute = EmptyString) ->
  rendermetrics.RenderSlurm h metrics
  = rendermetrics.strJobId0 +:+ rendermetrics.strUserId0.
Proof.
  intros Hnone. destruct (RenderSlurm_taken h metrics) as (taken & Hrun & Hsub & Hjobs & _).
  unfold rendermetrics.RenderSlurm. rewrite Hrun.
  destruct taken as [|e taken]; [reflexivity|]. exfalso.
  apply Forall_cons in Hjobs as [He _]. apply He.
  assert (Hin : e ∈ flat_map snd metrics).
  { eapply elem_of_sublist; [|exact Hsub]. left. }
  apply elem_of_flat in Hin as (c & ms & Hc & Hm). exact (Hnone c ms e Hc Hm).
Qed.

Lemma RenderSlurm_without_jobs_witness :
  rendermetrics.RenderSlurm
    (<[1%nat := <["userid"%string := "200"%string]> ∅]> Inputs.heap0)
    [(Inputs.counterX "help" 1, [Inputs.metric139Enriched])]
  = rendermetrics.strJobId0 +:+ rendermetrics.strUserId0.
Proof.
  apply RenderSlurm_without_jobs. intros c ms m Hc Hm.
  apply list_elem_of_singleton in Hc. injection Hc as -> ->.
  apply list_elem_of_singleton in Hm as ->. reflexivity.
Defined.

(** *** The formats of the other groups *)

Lemma concatMap_Forall2 {A B : Type} (f : A -> string) (g : B -> string)
    (l : list A) (k : list B) :
  Forall2 (fun a b => f a = g b) l k ->
  rendermetrics.concatMap f l = rendermetrics.concatMap g k.
Proof.
  induction 1 as [|a b l k Hab _ IH]; [reflexivity|].
  cbn [rendermetrics.concatMap fold_right]. fold (rendermetrics.concatMap f l).
  fold (rendermetrics.concatMap g k). rewrite Hab, IH. reflexivity.
Qed.

Lemma plainBlock_same (classLabels : Metric -> string) (h h' : Heap)
    (entry entry' : counters.Counter * list Metric) :
  (forall m m', Notions.samePrinted h h' m m' -> classLabels m' = classLabels m) ->
  Notions.sameHeader entry.1 entry'.1 ->
  Forall2 (Notions.samePrinted h h') entry.2 entry'.2 ->
  rendermetrics.plainBlock classLabels h entry
  = rendermetrics.plainBlock classLabels h' entry'.
Proof.
  destruct entry as [c ms], entry' as [c' ms']. cbn [fst snd].
  intros Hclass (Hn & Hh & Ht) Hms. unfold rendermetrics.plainBlock.
  rewrite Hn, Hh, Ht. f_equal. f_equal.
  apply concatMap_Forall2. eapply Forall2_impl; [exact Hms|].
  intros m m' Hm. pose proof (Hclass m m' Hm) as Hc.
  destruct Hm as (Hg & Hd & Hhost & Hv & Hl).
  unfold rendermetrics.plainLine, rendermetrics.renderHostname.
  rewrite Hn, Hc, Hhost, Hv, Hl. reflexivity.
Qed.

(** X24.  The formats of the switch, link, CPU and CPU core groups print of
    a counter its name, help text and type, and of a sample its key, its
    device, its host name, its labels and its value, and nothing else: two
    metrics maps that agree in these give the same text.  So attributes (the
    job id and the user id among them), UUIDs, partition fields, alternate
    names, values and identifiers never reach the output of these groups. *)
Theorem RenderGroup_plain_groups (h h' : Heap) (group : rendermetrics.Field_Entity_Group)
    (metrics metrics' : MetricsByCounter) :
  group = rendermetrics.FE_SWITCH \/ group = rendermetrics.FE_LINK \/
  group = rendermetrics.FE_CPU \/ group = rendermetrics.FE_CPU_CORE ->
  Forall2 (fun entry entry' =>
             Notions.sameHeader entry.1 entry'.1 /\
             Forall2 (Notions.samePrinted h h') entry.2 entry'.2)
          metrics metrics' ->
  rendermetrics.RenderGroup h group metrics = rendermetrics.RenderGroup h' group metrics'.
Proof.
  intros Hgroup Hsame.
  assert (Hblocks : forall classLabels,
             (forall m m', Notions.samePrinted h h' m m' -> classLabels m' = classLabels m) ->
             rendermetrics.concatMap (rendermetrics.plainBlock classLabels h) metrics
             = rendermetrics.concatMap (rendermetrics.plainBlock classLabels h') metrics').
  { intros classLabels Hclass. apply concatMap_Forall2.
    eapply Forall2_impl; [exact Hsame|].
    intros entry entry' [Hc Hms]. apply plainBlock_same; assumption. }
  destruct Hgroup as [-> | [-> | [-> | ->]]]; cbn [rendermetrics.RenderGroup];
    unfold rendermetrics.switchMetricsFormat, rendermetrics.linkMetricsFormat,
      rendermetrics.cpuMetricsFormat, rendermetrics.cpuCoreMetricsFormat;
    rewrite Hblocks; try reflexivity;
    intros m m' (Hg & Hd & _); rewrite ?Hg, ?Hd; reflexivity.
Qed.

Lemma RenderGroup_plain_groups_witness :
  rendermetrics.RenderGroup Inputs.heapJobs rendermetrics.FE_SWITCH
    [(Inputs.counterX "help" 1, [Inputs.jobSample "0" EmptyString 1])]
  = rendermetrics.RenderGroup Inputs.heap0 rendermetrics.FE_SWITCH
      [(Inputs.counterX "help" 1000, [Inputs.metric139])].
Proof.
  apply RenderGroup_plain_groups; [auto|].
  constructor; [|constructor]. split; [repeat split|].
  constructor; [|constructor]. repeat split.
Defined.

(** *** The labels of a sample *)



(* ===================================================================== *)
(** ** From the mapping file to the text                                  *)
(* ===================================================================== *)





(** The text of the example: the sample line carries the two labels, and
    each gauge has its line. *)
Example job_record_text :
  exists out h',
    transformation.Process (Inputs.envOf (Inputs.dirWith [("0"%string, ["100 200"%string])]))
      [(Inputs.counterX "help" 1, [Inputs.metric139])] Inputs.oneGPU Inputs.heap0
      = Return (None, out, h') /\
    fst (rendermetrics.RenderGroup h' rendermetrics.FE_GPU out)
    = "# HELP X help" +:+ rendermetrics.nl +:+
      "# TYPE X gauge" +:+ rendermetrics.nl +:+
      "X{gpu=" +:+ rendermetrics.dq +:+ "0" +:+ rendermetrics.dq +:+
      ",UUID=" +:+ rendermetrics.dq +:+ "GPU-abc" +:+ rendermetrics.dq +:+
      ",pci_bus_id=" +:+ rendermetrics.dq +:+ rendermetrics.dq +:+
      ",device=" +:+ rendermetrics.dq +:+ rendermetrics.dq +:+
      ",modelName=" +:+ rendermetrics.dq +:+ rendermetrics.dq +:+
      ",jobid=" +:+ rendermetrics.dq +:+ "100" +:+ rendermetrics.dq +:+
      ",userid=" +:+ rendermetrics.dq +:+ "200" +:+ rendermetrics.dq +:+
      "} 139" +:+ rendermetrics.nl +:+
      rendermetrics.strJobId0 +:+
      "nvidia_gpu_jobId{minor_number=" +:+ rendermetrics.dq +:+ "0" +:+ rendermetrics.dq +:+
      ",uuid=" +:+ rendermetrics.dq +:+ "GPU-abc" +:+ rendermetrics.dq +:+
      ",device=" +:+ rendermetrics.dq +:+ rendermetrics.dq +:+
      ",modelName=" +:+ rendermetrics.dq +:+ rendermetrics.dq +:+
      ",GPU_I_PROFILE=" +:+ rendermetrics.dq +:+ rendermetrics.dq +:+
      ",GPU_I_ID=" +:+ rendermetrics.dq +:+ rendermetrics.dq +:+
      ",jobid=" +:+ rendermetrics.dq +:+ "100" +:+ rendermetrics.dq +:+
      ",userid=" +:+ rendermetrics.dq +:+ "200" +:+ rendermetrics.dq +:+
      "} 100" +:+ rendermetrics.nl +:+
      rendermetrics.strUserId0 +:+
      "nvidia_gpu_jobUid{minor_number=" +:+ rendermetrics.dq +:+ "0" +:+ rendermetrics.dq +:+
      ",uuid=" +:+ rendermetrics.dq +:+ "GPU-abc" +:+ rendermetrics.dq +:+
      ",device=" +:+ rendermetrics.dq +:+ rendermetrics.dq +:+
      ",modelName=" +:+ rendermetrics.dq +:+ rendermetrics.dq +:+
      ",GPU_I_PROFILE=" +:+ rendermetrics.dq +:+ rendermetrics.dq +:+
      ",GPU_I_ID=" +:+ rendermetrics.dq +:+ rendermetrics.dq +:+
      ",jobid=" +:+ rendermetrics.dq +:+ "100" +:+ rendermetrics.dq +:+
      ",userid=" +:+ rendermetrics.dq +:+ "200" +:+ rendermetrics.dq +:+
      "} 200" +:+ rendermetrics.nl.
Proof. eexists. eexists. split; vm_compute; reflexivity. Qed.
